(** * CloudStream Studio: trim/playback engine, job poller and thumbnail loader

    A shallow embedding of [components/Player.tsx] (the [Player] component)
    and of the [VideoLibrary] component that follows it in the same file,
    together with the properties of the design document that concern them;
    then of the reader of the environment file in [vite.config.ts].

    Conventions of the embedding.
    - A JavaScript number is [NaN] or an exact rational in [JS]: binary64
      rounding, the two infinities and the sign of zero are not represented
      there. [Binary64] has the doubles themselves, for the decisions of the
      program that rest on the rounding.
    - A JavaScript string is a [string]; its characters stand for code units
      below 256.
    - React state ([useState]) and refs ([useRef]) are fields of one record;
      an event handler is a function from the record before the event to the
      record after it, the re-render and its effects included.
    - An [await] splits a function in two: the part before it and the
      continuation that receives the resolved value. *)

From Stdlib Require Import ZArith QArith Qround Qabs Lqa Lia Bool List.
From Stdlib Require Import Ascii String DecimalString DecimalPos SpecFloat.
From stdpp Require Import gmap strings list.

Import ListNotations.
Local Open Scope Z_scope.

(** ** JavaScript numbers *)

Module JS.

Inductive number : Type :=
| NaN
| Num (q : Q).

(** Two numbers denote the same value. *)
Definition same (a b : number) : Prop :=
  match a, b with
  | NaN, NaN => True
  | Num x, Num y => (x == y)%Q
  | _, _ => False
  end.

Definition of_Z (z : Z) : number := Num (inject_Z z).

Definition Qltb (x y : Q) : bool := negb (Qle_bool y x).

Definition lift2 (f : Q -> Q -> Q) (a b : number) : number :=
  match a, b with
  | Num x, Num y => Num (f x y)
  | _, _ => NaN
  end.

Definition cmp2 (f : Q -> Q -> bool) (a b : number) : bool :=
  match a, b with
  | Num x, Num y => f x y
  | _, _ => false
  end.

Definition add : number -> number -> number := lift2 Qplus.
Definition sub : number -> number -> number := lift2 Qminus.
Definition mul : number -> number -> number := lift2 Qmult.

(** [a / b]. A zero divisor gives [NaN]: exact for [0 / 0], and the one
    division by a variable in this program (the pointer fraction) has a zero
    numerator whenever its divisor is zero. *)
Definition div (a b : number) : number :=
  match a, b with
  | Num x, Num y => if Qeq_bool y 0 then NaN else Num (x / y)
  | _, _ => NaN
  end.

(** Comparisons: every comparison with [NaN] is false. *)
Definition lt : number -> number -> bool := cmp2 Qltb.
Definition le : number -> number -> bool := cmp2 Qle_bool.
Definition gt (a b : number) : bool := lt b a.
Definition ge (a b : number) : bool := le b a.

Definition Qmaxb (x y : Q) : Q := if Qle_bool x y then y else x.
Definition Qminb (x y : Q) : Q := if Qle_bool x y then x else y.

(** [Math.max], [Math.min]: [NaN] as soon as one argument is. *)
Definition max : number -> number -> number := lift2 Qmaxb.
Definition min : number -> number -> number := lift2 Qminb.

(** Truncation toward zero and the remainder [%], which takes the sign of
    the dividend; the program divides by the literals 60 and 1 only. *)
Definition Qtrunc (x : Q) : Z :=
  if Qle_bool 0 x then Qfloor x else Qceiling x.

Definition Qrem (x y : Q) : Q := (x - y * inject_Z (Qtrunc (x / y)))%Q.

(** [Math.round] rounds halves toward plus infinity. *)
Definition Qround_half_up (x : Q) : Z := Qfloor (x + (1 # 2))%Q.

Definition floor (a : number) : number :=
  match a with Num x => of_Z (Qfloor x) | NaN => NaN end.

Definition round (a : number) : number :=
  match a with Num x => of_Z (Qround_half_up x) | NaN => NaN end.

Definition abs (a : number) : number :=
  match a with Num x => Num (Qabs x) | NaN => NaN end.

Definition isFinite (a : number) : bool :=
  match a with Num _ => true | NaN => false end.

(** Truthiness of a number, and [a || 0]. *)
Definition truthy (a : number) : bool :=
  match a with Num x => negb (Qeq_bool x 0) | NaN => false end.

Definition or_zero (a : number) : number :=
  if truthy a then a else of_Z 0.

(** [Object.is] on numbers, as React compares effect dependencies. *)
Definition sameb (a b : number) : bool :=
  match a, b with
  | NaN, NaN => true
  | Num x, Num y => Qeq_bool x y
  | _, _ => false
  end.

(** The literals of the program. *)
Definition lit (n : Z) (d : positive) : number := Num (n # d).

End JS.

(** ** JavaScript string operations used by the time codec *)

Module JSString.

Local Open Scope string_scope.

(** [s.split(c)] for a one-character separator: never the empty list. *)
Fixpoint split (c : ascii) (s : string) : list string :=
  match s with
  | EmptyString => [EmptyString]
  | String a rest =>
      if Ascii.eqb a c then EmptyString :: split c rest
      else match split c rest with
           | [] => [String a EmptyString]
           | hd :: tl => String a hd :: tl
           end
  end.

Fixpoint zeros (n : nat) : string :=
  match n with O => EmptyString | S k => String "0" (zeros k) end.

(** [s.padStart(n, '0')] and [s.padEnd(n, '0')]. *)
Definition padStart0 (n : nat) (s : string) : string :=
  zeros (n - String.length s) ++ s.

Definition padEnd0 (n : nat) (s : string) : string :=
  s ++ zeros (n - String.length s).

(** [s.slice(0, n)]. *)
Definition slice0 (n : nat) (s : string) : string := substring 0 n s.

(** White space skipped by [parseInt]: TAB, LF, VT, FF, CR, SP, NBSP. *)
Definition is_space (a : ascii) : bool :=
  let n := nat_of_ascii a in
  ((9 <=? n)%nat && (n <=? 13)%nat) || (n =? 32)%nat || (n =? 160)%nat.

Fixpoint skip_space (s : string) : string :=
  match s with
  | String a rest => if is_space a then skip_space rest else s
  | EmptyString => s
  end.

(** Value of a digit in radix 10 or 16. *)
Definition digit_value (radix : Z) (a : ascii) : option Z :=
  let n := Z.of_nat (nat_of_ascii a) in
  let v :=
    (if (48 <=? n) && (n <=? 57) then Some (n - 48)
     else if (97 <=? n) && (n <=? 102) then Some (n - 87)
     else if (65 <=? n) && (n <=? 70) then Some (n - 55)
     else None)%Z in
  match v with
  | Some d => if (d <? radix)%Z then Some d else None
  | None => None
  end.

(** The longest prefix of digits, read left to right; [None] when the
    prefix is empty. *)
Fixpoint read_digits (radix : Z) (s : string) (acc : option Z) : option Z :=
  match s with
  | EmptyString => acc
  | String a rest =>
      match digit_value radix a with
      | Some d =>
          read_digits radix rest
            (Some (match acc with Some v => (v * radix + d)%Z | None => d end))
      | None => acc
      end
  end.

(** [parseInt(s)] without a radix argument: leading white space, an optional
    sign, an optional [0x]/[0X] prefix selecting radix 16, then digits. *)
Definition parseInt (s : string) : JS.number :=
  let s1 := skip_space s in
  let '(sign, s2) :=
    match s1 with
    | String "-" rest => ((-1)%Z, rest)
    | String "+" rest => (1%Z, rest)
    | _ => (1%Z, s1)
    end in
  let '(radix, s3) :=
    match s2 with
    | String "0" (String "x" rest) => (16%Z, rest)
    | String "0" (String "X" rest) => (16%Z, rest)
    | _ => (10%Z, s2)
    end in
  match read_digits radix s3 None with
  | Some v => JS.of_Z (sign * v)%Z
  | None => JS.NaN
  end.

(** [n.toString()] for an integer [n], as [Math.floor] and [Math.round]
    return: decimal digits, with a minus sign when negative (the exponent
    notation of magnitudes from 1e21 on is not represented). *)
Definition toString (n : Z) : string := NilZero.string_of_int (Z.to_int n).

(** [s.includes(sub)] and [s.endsWith(suffix)]. *)
Fixpoint includes (sub s : string) : bool :=
  String.prefix sub s
  || match s with
     | String _ rest => includes sub rest
     | EmptyString => false
     end.

Definition endsWith (suffix s : string) : bool :=
  let n := String.length s in
  let k := String.length suffix in
  (k <=? n)%nat && String.eqb (substring (n - k) k s) suffix.

End JSString.

(** ** TimeCodec: [roundToPrecision], [formatTime], [parseTimeString] *)

Module TimeCodec.

Import JS JSString.
Local Open Scope string_scope.

(** [Math.pow(10, precision)]. *)
Definition pow10 (precision : nat) : number := of_Z (10 ^ Z.of_nat precision).

Definition roundToPrecision (value : number) (precision : nat) : number :=
  let multiplier := pow10 precision in
  div (round (mul value multiplier)) multiplier.

Definition formatTime (t : number) : string :=
  match t with
  | NaN => "0:00.000"
  | Num q =>
      let mins := Qfloor (q / 60) in
      let secs := Qfloor (Qrem q 60) in
      let ms := Qround_half_up (Qrem q 1 * 1000) in
      toString mins ++ ":" ++ padStart0 2 (toString secs) ++ "."
        ++ padStart0 3 (toString ms)
  end.

Definition parseTimeString (timeStr : string) : number :=
  match split ":" timeStr with
  | [p0; p1] =>
      let mins := or_zero (parseInt p0) in
      let secsParts := split "." p1 in
      let secs := or_zero (parseInt (nth 0 secsParts "")) in
      let ms :=
        match nth_error secsParts 1 with
        | Some (String a r) => parseInt (slice0 3 (padEnd0 3 (String a r)))
        | _ => of_Z 0
        end in
      let totalSeconds :=
        add (add (mul mins (of_Z 60)) secs) (div ms (of_Z 1000)) in
      roundToPrecision totalSeconds 3
  | _ => of_Z 0
  end.

(** The three fields [formatTime] prints for a time [q >= 0]. *)
Definition minutesOf (q : Q) : Z := Qfloor (q / 60)%Q.
Definition secondsOf (q : Q) : Z := Qfloor (Qrem q 60).
Definition millisOf (q : Q) : Z := Qround_half_up (Qrem q 1 * 1000)%Q.

(** Millisecond rounding of a rational: what [roundToPrecision(q, 3)]
    computes on a finite number. *)
Definition round3 (q : Q) : Q :=
  (inject_Z (Qround_half_up (q * 1000)) / 1000)%Q.

End TimeCodec.

(** ** Digit strings

    What the proofs about the time codec say of the strings it prints. *)

Module DigitStrings.

Import JS JSString.

(** Decimal digit strings, as [toString] prints them. *)
Definition is_digit (a : ascii) : bool :=
  match digit_value 10 a with Some _ => true | None => false end.

Fixpoint all_digits (s : string) : bool :=
  match s with
  | EmptyString => true
  | String a rest => is_digit a && all_digits rest
  end.

(** The number a digit string denotes, read after the prefix [acc]. *)
Definition decimal_from (acc : Z) (s : string) : Z :=
  match read_digits 10 s (Some acc) with Some v => v | None => acc end.

Fixpoint uint_value (d : Decimal.uint) (acc : Z) : Z :=
  match d with
  | Decimal.Nil => acc
  | Decimal.D0 d => uint_value d (acc * 10 + 0)
  | Decimal.D1 d => uint_value d (acc * 10 + 1)
  | Decimal.D2 d => uint_value d (acc * 10 + 2)
  | Decimal.D3 d => uint_value d (acc * 10 + 3)
  | Decimal.D4 d => uint_value d (acc * 10 + 4)
  | Decimal.D5 d => uint_value d (acc * 10 + 5)
  | Decimal.D6 d => uint_value d (acc * 10 + 6)
  | Decimal.D7 d => uint_value d (acc * 10 + 7)
  | Decimal.D8 d => uint_value d (acc * 10 + 8)
  | Decimal.D9 d => uint_value d (acc * 10 + 9)
  end.

(** [s] has no occurrence of [c]. *)
Fixpoint lacks (c : ascii) (s : string) : bool :=
  match s with
  | EmptyString => true
  | String a rest => negb (Ascii.eqb a c) && lacks c rest
  end.

(** What the parser needs of the seconds field and of the milliseconds
    field of [formatTime]. *)
Definition secondsField_ok (z : Z) : bool :=
  let f := padStart0 2 (toString z) in
  all_digits f && negb (String.eqb f "") && (decimal_from 0 f =? z)%Z.

Definition millisField_ok (z : Z) : bool :=
  let f := padStart0 3 (toString z) in
  all_digits f && negb (String.eqb f "") && (decimal_from 0 f =? z)%Z
    && String.eqb (slice0 3 (padEnd0 3 f)) f.

End DigitStrings.

(** ** Assets

    Modelled from the spec: the type [VideoAsset] of [../types], which both
    components import: a stable identifier, a display name and a locator.
    [asset_fullPath] is the optional field the library reads through a cast. *)

Record VideoAsset : Type := {
  asset_id : string;
  asset_name : string;
  asset_url : string;
  asset_fullPath : option string
}.

(** ** Notices shown to the user

    Each [alert(...)] and [setError(...)] of the two components, by message. *)

Inductive Notice : Type :=
| SelectVideoFirst            (* handleCreateClip: no video selected *)
| StartMustPrecedeEnd         (* handleCreateClip: start >= end *)
| ClipTooShort                (* handleCreateClip: shorter than 0.1 s *)
| PlayFailed                  (* togglePlay: play() rejected *)
| OptimizeTimedOut            (* checkStatus: more than 5 minutes *)
| OptimizeCompleted           (* checkStatus: status 'completed' *)
| OptimizeFailed (reason : option string)
                              (* checkStatus: status 'failed'; [None] is the
                                 fallback text for a missing reason *)
| StatusQueryFailed           (* checkStatus: retries exhausted *)
| AlreadyOptimizing           (* handleOptimize: job already live *)
| OptimizeStarted             (* handleOptimize: task created *)
| OptimizeRequestFailed       (* handleOptimize: request rejected *)
| CannotDeleteHls             (* handleDelete: HLS artefact *)
| CannotDeleteOptimizing.     (* handleDelete: job live for the asset *)

(** ** The [Player] component *)

Module Player.

Import JS JSString TimeCodec.

(** The type [Clip] of [../types], with the fields [handleCreateClip]
    fills. *)
Record Clip : Type := {
  clip_id : string;
  sourceVideoId : string;
  clip_name : string;
  startTime : number;
  endTime : number
}.

(** ['start' | 'end' | 'scrubber']. *)
Inductive DragType : Type := DragStart | DragEnd | DragScrubber.

(** The media element behind [videoRef], as far as the component reads and
    writes it, and the calls the component makes on it, oldest first. *)
Record VideoElement : Type := {
  el_currentTime : number;
  el_paused : bool;
  el_duration : number
}.

Inductive SurfaceCall : Type :=
| CallPause
| CallPlay
| CallSeek (t : number).

(** [scrubberRef.current.getBoundingClientRect()]. *)
Record Rect : Type := { rect_left : number; rect_width : number }.

(** Props, refs and state of the component, and what it has emitted. *)
Record State : Type := {
  video : option VideoAsset;
  autoPlay : bool;
  videoRef : option VideoElement;
  scrubberRef : option Rect;
  surfaceCalls : list SurfaceCall;
  isDraggingRef : bool;
  currentTimeRef : number;
  isPlaying : bool;
  currentTime : number;
  duration : number;
  error : option Notice;
  isLoading : bool;
  startPoint : number;
  endPoint : number;
  dragType : option DragType;
  alerts : list Notice;
  addedClips : list Clip
}.

Definition set_videoRef (v : option VideoElement) (s : State) : State :=
  {| video := video s; autoPlay := autoPlay s; videoRef := v;
     scrubberRef := scrubberRef s; surfaceCalls := surfaceCalls s;
     isDraggingRef := isDraggingRef s; currentTimeRef := currentTimeRef s;
     isPlaying := isPlaying s; currentTime := currentTime s;
     duration := duration s; error := error s; isLoading := isLoading s;
     startPoint := startPoint s; endPoint := endPoint s;
     dragType := dragType s; alerts := alerts s; addedClips := addedClips s |}.

Definition set_surfaceCalls (v : list SurfaceCall) (s : State) : State :=
  {| video := video s; autoPlay := autoPlay s; videoRef := videoRef s;
     scrubberRef := scrubberRef s; surfaceCalls := v;
     isDraggingRef := isDraggingRef s; currentTimeRef := currentTimeRef s;
     isPlaying := isPlaying s; currentTime := currentTime s;
     duration := duration s; error := error s; isLoading := isLoading s;
     startPoint := startPoint s; endPoint := endPoint s;
     dragType := dragType s; alerts := alerts s; addedClips := addedClips s |}.

Definition set_isDraggingRef (v : bool) (s : State) : State :=
  {| video := video s; autoPlay := autoPlay s; videoRef := videoRef s;
     scrubberRef := scrubberRef s; surfaceCalls := surfaceCalls s;
     isDraggingRef := v; currentTimeRef := currentTimeRef s;
     isPlaying := isPlaying s; currentTime := currentTime s;
     duration := duration s; error := error s; isLoading := isLoading s;
     startPoint := startPoint s; endPoint := endPoint s;
     dragType := dragType s; alerts := alerts s; addedClips := addedClips s |}.

Definition set_currentTimeRef (v : number) (s : State) : State :=
  {| video := video s; autoPlay := autoPlay s; videoRef := videoRef s;
     scrubberRef := scrubberRef s; surfaceCalls := surfaceCalls s;
     isDraggingRef := isDraggingRef s; currentTimeRef := v;
     isPlaying := isPlaying s; currentTime := currentTime s;
     duration := duration s; error := error s; isLoading := isLoading s;
     startPoint := startPoint s; endPoint := endPoint s;
     dragType := dragType s; alerts := alerts s; addedClips := addedClips s |}.

Definition setIsPlaying (v : bool) (s : State) : State :=
  {| video := video s; autoPlay := autoPlay s; videoRef := videoRef s;
     scrubberRef := scrubberRef s; surfaceCalls := surfaceCalls s;
     isDraggingRef := isDraggingRef s; currentTimeRef := currentTimeRef s;
     isPlaying := v; currentTime := currentTime s; duration := duration s;
     error := error s; isLoading := isLoading s; startPoint := startPoint s;
     endPoint := endPoint s; dragType := dragType s; alerts := alerts s;
     addedClips := addedClips s |}.

Definition setCurrentTime (v : number) (s : State) : State :=
  {| video := video s; autoPlay := autoPlay s; videoRef := videoRef s;
     scrubberRef := scrubberRef s; surfaceCalls := surfaceCalls s;
     isDraggingRef := isDraggingRef s; currentTimeRef := currentTimeRef s;
     isPlaying := isPlaying s; currentTime := v; duration := duration s;
     error := error s; isLoading := isLoading s; startPoint := startPoint s;
     endPoint := endPoint s; dragType := dragType s; alerts := alerts s;
     addedClips := addedClips s |}.

Definition setDuration (v : number) (s : State) : State :=
  {| video := video s; autoPlay := autoPlay s; videoRef := videoRef s;
     scrubberRef := scrubberRef s; surfaceCalls := surfaceCalls s;
     isDraggingRef := isDraggingRef s; currentTimeRef := currentTimeRef s;
     isPlaying := isPlaying s; currentTime := currentTime s; duration := v;
     error := error s; isLoading := isLoading s; startPoint := startPoint s;
     endPoint := endPoint s; dragType := dragType s; alerts := alerts s;
     addedClips := addedClips s |}.

Definition setError (v : option Notice) (s : State) : State :=
  {| video := video s; autoPlay := autoPlay s; videoRef := videoRef s;
     scrubberRef := scrubberRef s; surfaceCalls := surfaceCalls s;
     isDraggingRef := isDraggingRef s; currentTimeRef := currentTimeRef s;
     isPlaying := isPlaying s; currentTime := currentTime s;
     duration := duration s; error := v; isLoading := isLoading s;
     startPoint := startPoint s; endPoint := endPoint s;
     dragType := dragType s; alerts := alerts s; addedClips := addedClips s |}.

Definition setIsLoading (v : bool) (s : State) : State :=
  {| video := video s; autoPlay := autoPlay s; videoRef := videoRef s;
     scrubberRef := scrubberRef s; surfaceCalls := surfaceCalls s;
     isDraggingRef := isDraggingRef s; currentTimeRef := currentTimeRef s;
     isPlaying := isPlaying s; currentTime := currentTime s;
     duration := duration s; error := error s; isLoading := v;
     startPoint := startPoint s; endPoint := endPoint s;
     dragType := dragType s; alerts := alerts s; addedClips := addedClips s |}.

Definition setStartPoint (v : number) (s : State) : State :=
  {| video := video s; autoPlay := autoPlay s; videoRef := videoRef s;
     scrubberRef := scrubberRef s; surfaceCalls := surfaceCalls s;
     isDraggingRef := isDraggingRef s; currentTimeRef := currentTimeRef s;
     isPlaying := isPlaying s; currentTime := currentTime s;
     duration := duration s; error := error s; isLoading := isLoading s;
     startPoint := v; endPoint := endPoint s; dragType := dragType s;
     alerts := alerts s; addedClips := addedClips s |}.

Definition setEndPoint (v : number) (s : State) : State :=
  {| video := video s; autoPlay := autoPlay s; videoRef := videoRef s;
     scrubberRef := scrubberRef s; surfaceCalls := surfaceCalls s;
     isDraggingRef := isDraggingRef s; currentTimeRef := currentTimeRef s;
     isPlaying := isPlaying s; currentTime := currentTime s;
     duration := duration s; error := error s; isLoading := isLoading s;
     startPoint := startPoint s; endPoint := v; dragType := dragType s;
     alerts := alerts s; addedClips := addedClips s |}.

Definition setDragType (v : option DragType) (s : State) : State :=
  {| video := video s; autoPlay := autoPlay s; videoRef := videoRef s;
     scrubberRef := scrubberRef s; surfaceCalls := surfaceCalls s;
     isDraggingRef := isDraggingRef s; currentTimeRef := currentTimeRef s;
     isPlaying := isPlaying s; currentTime := currentTime s;
     duration := duration s; error := error s; isLoading := isLoading s;
     startPoint := startPoint s; endPoint := endPoint s; dragType := v;
     alerts := alerts s; addedClips := addedClips s |}.

Definition alert (n : Notice) (s : State) : State :=
  {| video := video s; autoPlay := autoPlay s; videoRef := videoRef s;
     scrubberRef := scrubberRef s; surfaceCalls := surfaceCalls s;
     isDraggingRef := isDraggingRef s; currentTimeRef := currentTimeRef s;
     isPlaying := isPlaying s; currentTime := currentTime s;
     duration := duration s; error := error s; isLoading := isLoading s;
     startPoint := startPoint s; endPoint := endPoint s;
     dragType := dragType s; alerts := alerts s ++ [n];
     addedClips := addedClips s |}.

Definition onAddClip (c : Clip) (s : State) : State :=
  {| video := video s; autoPlay := autoPlay s; videoRef := videoRef s;
     scrubberRef := scrubberRef s; surfaceCalls := surfaceCalls s;
     isDraggingRef := isDraggingRef s; currentTimeRef := currentTimeRef s;
     isPlaying := isPlaying s; currentTime := currentTime s;
     duration := duration s; error := error s; isLoading := isLoading s;
     startPoint := startPoint s; endPoint := endPoint s;
     dragType := dragType s; alerts := alerts s;
     addedClips := addedClips s ++ [c] |}.

Notation "s |> f" := (f s) (at level 45, left associativity, only parsing).

(** *** The playback surface *)

(** [videoRef.current.pause()]. *)
Definition pause (s : State) : State :=
  match videoRef s with
  | Some v =>
      s |> set_videoRef (Some {| el_currentTime := el_currentTime v;
                                 el_paused := true;
                                 el_duration := el_duration v |})
        |> set_surfaceCalls (surfaceCalls s ++ [CallPause])
  | None => s
  end.

(** [videoRef.current.currentTime = t]. *)
Definition seek (t : number) (s : State) : State :=
  match videoRef s with
  | Some v =>
      s |> set_videoRef (Some {| el_currentTime := t;
                                 el_paused := el_paused v;
                                 el_duration := el_duration v |})
        |> set_surfaceCalls (surfaceCalls s ++ [CallSeek t])
  | None => s
  end.

(** [videoRef.current.play()]: the request; its promise settles later. *)
Definition play (s : State) : State :=
  match videoRef s with
  | Some _ => s |> set_surfaceCalls (surfaceCalls s ++ [CallPlay])
  | None => s
  end.

(** The surface moves its own position (playback, or the browser). *)
Definition surfaceMoves (t : number) (s : State) : State :=
  match videoRef s with
  | Some v =>
      s |> set_videoRef (Some {| el_currentTime := t;
                                 el_paused := el_paused v;
                                 el_duration := el_duration v |})
  | None => s
  end.

(** The three writes that follow every seek of the component. *)
Definition seekAndStore (t : number) (s : State) : State :=
  s |> seek t |> set_currentTimeRef t |> setCurrentTime t.

(** *** PlaybackGovernor *)

(** Period of the range-enforcement poll, in milliseconds. *)
Definition BOUNDS_POLL_MS : Z := 100.

Definition checkPlaybackBounds (s : State) : State :=
  match videoRef s with
  | None => s
  | Some v =>
      if isDraggingRef s then s
      else
        let current := el_currentTime v in
        if ge current (endPoint s) then
          s |> pause
            |> seek (startPoint s)
            |> set_currentTimeRef (startPoint s)
            |> setCurrentTime (startPoint s)
            |> setIsPlaying false
        else s
  end.

(** The interval installed by the effect on [isPlaying, startPoint, endPoint]:
    present only with a mounted element and [isPlaying]. *)
Definition boundsInterval (s : State) : option Z :=
  match videoRef s with
  | Some _ => if isPlaying s then Some BOUNDS_POLL_MS else None
  | None => None
  end.

Definition tick (s : State) : State :=
  match boundsInterval s with
  | Some _ => checkPlaybackBounds s
  | None => s
  end.

Definition onEnded (s : State) : State :=
  let s1 := s |> setIsPlaying false in
  match videoRef s1 with
  | Some _ => s1 |> seekAndStore (startPoint s)
  | None => s1
  end.

Definition togglePlay (s : State) : State :=
  match videoRef s with
  | None => s
  | Some v =>
      if isPlaying s then s |> pause |> setIsPlaying false
      else
        let current := el_currentTime v in
        let s1 :=
          if lt current (startPoint s) || ge current (endPoint s)
          then s |> seekAndStore (startPoint s)
          else s in
        s1 |> play
  end.

(** Settling of the promise of [play()]. *)
Definition playResolved (s : State) : State :=
  match videoRef s with
  | Some v =>
      s |> set_videoRef (Some {| el_currentTime := el_currentTime v;
                                 el_paused := false;
                                 el_duration := el_duration v |})
        |> setIsPlaying true
  | None => s |> setIsPlaying true
  end.

(** The [catch] of [togglePlay]; the autoplay of [handleLoadedMetadata]
    only logs a rejection. *)
Definition playRejected (s : State) : State :=
  s |> setError (Some PlayFailed) |> setIsPlaying false.

Definition handleTimeUpdate (s : State) : State :=
  match videoRef s with
  | None => s
  | Some v =>
      if isDraggingRef s then s
      else
        let newTime := roundToPrecision (el_currentTime v) 3 in
        if lt (abs (sub newTime (currentTimeRef s))) (lit 5 100) then s
        else s |> set_currentTimeRef newTime |> setCurrentTime newTime
  end.

Definition handleLoadedMetadata (s : State) : State :=
  let s1 := s |> setIsLoading false |> setError None in
  match videoRef s1 with
  | Some v =>
      let dur := roundToPrecision (el_duration v) 3 in
      let s2 := s1 |> setDuration dur |> setEndPoint dur in
      if autoPlay s then s2 |> play else s2
  | None => s1
  end.

(** *** DragCoordinator *)

(** Minimum clip length, the literal [0.1]. *)
Definition EPS : number := lit 1 10.

(** Pointer position to time: the first lines of [handleMouseMove]. *)
Definition pointerTime (rect : Rect) (clientX : number) (dur : number) : number :=
  let x := max (of_Z 0) (min (sub clientX (rect_left rect)) (rect_width rect)) in
  let percentage := div x (rect_width rect) in
  roundToPrecision (mul percentage dur) 3.

(** The branch of [handleMouseMove] on the drag target, given [newTime]. *)
Definition dragTo (ty : DragType) (newTime : number) (s : State) : State :=
  match ty with
  | DragStart =>
      let clampedStart := max (of_Z 0) (min newTime (sub (endPoint s) EPS)) in
      s |> setStartPoint clampedStart
        |> seek clampedStart
        |> set_currentTimeRef clampedStart
        |> setCurrentTime clampedStart
  | DragEnd =>
      let clampedEnd := max (add (startPoint s) EPS) (min newTime (duration s)) in
      s |> setEndPoint clampedEnd
  | DragScrubber =>
      let clampedTime := max (startPoint s) (min newTime (endPoint s)) in
      s |> seek clampedTime
        |> set_currentTimeRef clampedTime
        |> setCurrentTime clampedTime
  end.

(** The [mousemove] listener exists on [document] only while the drag effect
    has a drag type. *)
Definition handleMouseMove (clientX : number) (s : State) : State :=
  match dragType s with
  | None => s
  | Some ty =>
      match scrubberRef s, videoRef s with
      | Some rect, Some _ => dragTo ty (pointerTime rect clientX (duration s)) s
      | _, _ => s
      end
  end.

Definition handleMouseUp (s : State) : State :=
  match dragType s with
  | None => s
  | Some _ => s |> setDragType None |> set_isDraggingRef false
  end.

Definition handleStartDrag (ty : DragType) (s : State) : State :=
  let s1 :=
    match isPlaying s, videoRef s with
    | true, Some _ => s |> pause |> setIsPlaying false
    | _, _ => s
    end in
  s1 |> setDragType (Some ty).

(** The body of the drag effect: it sets the flag read by the playback
    handlers and (un)installs the listeners modelled above. *)
Definition dragEffectBody (s : State) : State :=
  match dragType s with
  | None => s |> set_isDraggingRef false
  | Some _ => s |> set_isDraggingRef true
  end.

(** *** Text fields of the range *)

Definition onChangeStart (value : string) (s : State) : State :=
  let newTime := parseTimeString value in
  let clampedTime := min newTime (sub (endPoint s) EPS) in
  let s1 := s |> setStartPoint clampedTime in
  match videoRef s1 with
  | Some _ => s1 |> seekAndStore clampedTime
  | None => s1
  end.

Definition onChangeEnd (value : string) (s : State) : State :=
  let newTime := parseTimeString value in
  s |> setEndPoint (max newTime (add (startPoint s) EPS)).

(** *** ClipFactory *)

Definition clipName (v : VideoAsset) (s : State) : string :=
  (asset_name v ++ " (" ++ formatTime (startPoint s) ++ "-"
     ++ formatTime (endPoint s) ++ ")")%string.

(** [uuid] is the value of [crypto.randomUUID()]. *)
Definition handleCreateClip (uuid : string) (s : State) : State :=
  match video s with
  | None => s |> alert SelectVideoFirst
  | Some v =>
      if ge (startPoint s) (endPoint s) then s |> alert StartMustPrecedeEnd
      else if lt (sub (endPoint s) (startPoint s)) EPS then s |> alert ClipTooShort
      else
        let newClip :=
          {| clip_id := uuid;
             sourceVideoId := asset_id v;
             clip_name := clipName v s;
             startTime := roundToPrecision (startPoint s) 3;
             endTime := roundToPrecision (endPoint s) 3 |} in
        s |> onAddClip newClip
  end.

(** *** Events and one turn of the component

    A change of the selected asset resets the state to [selected] below and
    is not an event of a session. *)

Inductive Event : Type :=
| MouseDownHandle (ty : DragType)   (* onMouseDown of a handle or the playhead *)
| MouseMove (clientX : number)      (* document mousemove *)
| MouseUp                           (* document mouseup *)
| SurfacePosition (t : number)      (* the surface advances on its own *)
| TimeUpdate                        (* onTimeUpdate *)
| Tick                              (* the 100 ms interval *)
| Ended                             (* onEnded *)
| LoadedMetadata                    (* onLoadedMetadata *)
| ClickPlay                         (* onClick of the video *)
| PlayResolved                      (* a promise of play() resolves *)
| PlayRejected                      (* the promise of togglePlay rejects *)
| AutoPlayRejected                  (* the promise of the autoplay rejects *)
| ChangeStart (value : string)      (* onChange of the Start field *)
| ChangeEnd (value : string)        (* onChange of the End field *)
| ClickCreateClip (uuid : string).  (* onClick of "Clip & Add" *)

(** What the markup renders or disables. *)
Definition handleRendered (ty : DragType) (s : State) : bool :=
  match ty with
  | DragScrubber =>
      gt (duration s) (of_Z 0) && ge (currentTime s) (startPoint s)
        && le (currentTime s) (endPoint s)
  | _ => gt (duration s) (of_Z 0)
  end.

Definition fieldsEnabled (s : State) : bool := truthy (duration s).

Definition clipButtonEnabled (s : State) : bool :=
  truthy (duration s) && negb (ge (startPoint s) (endPoint s)).

Definition handler (e : Event) (s : State) : State :=
  match e with
  | MouseDownHandle ty => if handleRendered ty s then handleStartDrag ty s else s
  | MouseMove x => handleMouseMove x s
  | MouseUp => handleMouseUp s
  | SurfacePosition t => surfaceMoves t s
  | TimeUpdate => handleTimeUpdate s
  | Tick => tick s
  | Ended => onEnded s
  | LoadedMetadata => handleLoadedMetadata s
  | ClickPlay => togglePlay s
  | PlayResolved => playResolved s
  | PlayRejected => playRejected s
  | AutoPlayRejected => s
  | ChangeStart v => if fieldsEnabled s then onChangeStart v s else s
  | ChangeEnd v => if fieldsEnabled s then onChangeEnd v s else s
  | ClickCreateClip uuid => if clipButtonEnabled s then handleCreateClip uuid s else s
  end.

Definition dragType_eqb (a b : option DragType) : bool :=
  match a, b with
  | None, None => true
  | Some DragStart, Some DragStart => true
  | Some DragEnd, Some DragEnd => true
  | Some DragScrubber, Some DragScrubber => true
  | _, _ => false
  end.

(** The drag effect depends on [dragType, duration, startPoint, endPoint]
    and runs after the render that follows a change of one of them. *)
Definition dragDepsSame (prev s : State) : bool :=
  dragType_eqb (dragType prev) (dragType s)
    && sameb (duration prev) (duration s)
    && sameb (startPoint prev) (startPoint s)
    && sameb (endPoint prev) (endPoint s).

Definition commit (prev s : State) : State :=
  if dragDepsSame prev s then s else dragEffectBody s.

Definition step (s : State) (e : Event) : State := commit s (handler e s).

Definition run (s : State) (es : list Event) : State := fold_left step es s.

(** *** TrimRangeModel: the range invariant of the design *)

(** [0 <= startTime <= endTime - 0.1 <= duration]. *)
Definition rangeInvariant (s : State) : Prop :=
  match startPoint s, endPoint s, duration s with
  | Num a, Num b, Num d => (0 <= a /\ a <= b - (1 # 10) /\ b - (1 # 10) <= d)%Q
  | _, _, _ => False
  end.

(** Clamping [t] to the interval [lo, hi], as the design words it. *)
Definition clampTo (lo hi t : Q) : Q :=
  if Qltb t lo then lo else if Qltb hi t then hi else t.

(** *** Drag sessions *)

(** A drag session is open: the flag read by the playback handlers is set
    and a drag type is held. *)
Definition sessionOpen (s : State) : Prop :=
  isDraggingRef s = true /\ dragType s <> None.

(** Events of the drag path: presses, releases, and moves at a finite
    pointer position. *)
Definition dragEvent (e : Event) : Prop :=
  match e with
  | MouseDownHandle _ | MouseUp | MouseMove (Num _) => True
  | _ => False
  end.

(** *** Sample states *)

(** The player right after the reset that follows the selection of
    [asset], with a media element of the given duration behind [videoRef]
    and a timeline track [width] pixels wide. *)
Definition selected (asset : option VideoAsset) (dur width : number) : State :=
  {| video := asset; autoPlay := false;
     videoRef := Some {| el_currentTime := of_Z 0; el_paused := true;
                         el_duration := dur |};
     scrubberRef := Some {| rect_left := of_Z 0; rect_width := width |};
     surfaceCalls := []; isDraggingRef := false; currentTimeRef := of_Z 0;
     isPlaying := false; currentTime := of_Z 0; duration := of_Z 0;
     error := None; isLoading := true;
     startPoint := of_Z 0; endPoint := of_Z 0; dragType := None;
     alerts := []; addedClips := [] |}.

Definition introAsset : VideoAsset :=
  {| asset_id := "v1"; asset_name := "intro.mp4";
     asset_url := "https://cdn.example/intro.mp4"; asset_fullPath := None |}.

(** A 120.5 s asset, metadata loaded, on a track of 1205 pixels. *)
Definition intro : State :=
  run (selected (Some introAsset) (lit 1205 10) (of_Z 1205)) [LoadedMetadata].

(** The 120.5 s asset with the range set to [[a, b]]. *)
Definition introRange (a b : number) : State :=
  setStartPoint a (setEndPoint b intro).

(** The scenario of the design: on the 120.5 s asset, the end handle is
    dragged to 118.0, then the start handle to 119.0. *)
Definition dragScenario : list Event :=
  [MouseDownHandle DragEnd; MouseMove (of_Z 1180); MouseUp;
   MouseDownHandle DragStart; MouseMove (of_Z 1190)].

(** A playing state of the asset whose surface has run past the end. *)
Definition playingPastEnd : State :=
  run intro [ClickPlay; PlayResolved; SurfacePosition (lit 1206 10)].

(** A playing state of the 120.5 s asset, ten seconds in. *)
Definition playingAtTen : State :=
  run intro [ClickPlay; PlayResolved; SurfacePosition (lit 10 1); TimeUpdate].

End Player.

(** ** The [VideoLibrary] component *)

Module VideoLibrary.

Import JS JSString.

Notation "s |> f" := (f s) (at level 45, left associativity, only parsing).

Definition ITEMS_PER_PAGE : nat := 12.
Definition OPTIMIZE_TIMEOUT : Z := 5 * 60 * 1000.
Definition POLL_INTERVAL : Z := 3000.

(** An entry of [pollingTasksRef]; [retryCount] is the field attached on the
    first failed request and absent before. *)
Record PollingTask : Type := {
  timeoutId : Z;
  aborted : bool;
  retryCount : option Z
}.

(** What the closure [checkStatus] of one [pollOptimizeTask] call captures. *)
Record Poll : Type := {
  taskId : string;
  videoId : string;
  startTime : Z
}.

(** Props, state and refs of the component, with the part of the browser it
    touches: the clock, the pending timers ([id -> (due, callback)]), the
    requests awaiting an answer, and the notices shown.

    Modelled from the spec: [thumbnailCache] is the cache of [./thumbnail]
    (not in the sources), keyed by asset locator; [clearThumbnailForVideo]
    removes the entry of a locator. *)
Record State : Type := {
  mounted : bool;
  now : Z;
  videos : list VideoAsset;
  currentPage : nat;
  thumbnails : gmap string string;
  loadingThumbnails : gset string;
  optimizingVideos : gset string;
  selectedVideoId : option string;
  pollingTasksRef : gmap string PollingTask;
  requestedThumbnails : gset string;
  videoCardRefs : gset string;
  timers : gmap Z (Z * Poll);
  nextTimer : Z;
  statusRequests : gmap Z Poll;
  optimizeRequests : gmap Z VideoAsset;
  thumbnailRequests : gmap Z VideoAsset;
  nextRequest : Z;
  thumbnailCache : gset string;
  alerts : list Notice;
  deleted : list VideoAsset
}.

(** React state setters take effect only while the component is mounted;
    refs and the browser are written unconditionally. *)

Definition set_mounted (v : bool) (s : State) : State :=
  {| mounted := v; now := now s; videos := videos s;
     currentPage := currentPage s; thumbnails := thumbnails s;
     loadingThumbnails := loadingThumbnails s;
     optimizingVideos := optimizingVideos s;
     selectedVideoId := selectedVideoId s;
     pollingTasksRef := pollingTasksRef s;
     requestedThumbnails := requestedThumbnails s;
     videoCardRefs := videoCardRefs s; timers := timers s;
     nextTimer := nextTimer s; statusRequests := statusRequests s;
     optimizeRequests := optimizeRequests s;
     thumbnailRequests := thumbnailRequests s; nextRequest := nextRequest s;
     thumbnailCache := thumbnailCache s; alerts := alerts s;
     deleted := deleted s |}.

Definition set_now (v : Z) (s : State) : State :=
  {| mounted := mounted s; now := v; videos := videos s;
     currentPage := currentPage s; thumbnails := thumbnails s;
     loadingThumbnails := loadingThumbnails s;
     optimizingVideos := optimizingVideos s;
     selectedVideoId := selectedVideoId s;
     pollingTasksRef := pollingTasksRef s;
     requestedThumbnails := requestedThumbnails s;
     videoCardRefs := videoCardRefs s; timers := timers s;
     nextTimer := nextTimer s; statusRequests := statusRequests s;
     optimizeRequests := optimizeRequests s;
     thumbnailRequests := thumbnailRequests s; nextRequest := nextRequest s;
     thumbnailCache := thumbnailCache s; alerts := alerts s;
     deleted := deleted s |}.

Definition set_videos (v : list VideoAsset) (s : State) : State :=
  {| mounted := mounted s; now := now s; videos := v;
     currentPage := currentPage s; thumbnails := thumbnails s;
     loadingThumbnails := loadingThumbnails s;
     optimizingVideos := optimizingVideos s;
     selectedVideoId := selectedVideoId s;
     pollingTasksRef := pollingTasksRef s;
     requestedThumbnails := requestedThumbnails s;
     videoCardRefs := videoCardRefs s; timers := timers s;
     nextTimer := nextTimer s; statusRequests := statusRequests s;
     optimizeRequests := optimizeRequests s;
     thumbnailRequests := thumbnailRequests s; nextRequest := nextRequest s;
     thumbnailCache := thumbnailCache s; alerts := alerts s;
     deleted := deleted s |}.

Definition setCurrentPage (v : nat) (s : State) : State :=
  if mounted s then
  {| mounted := mounted s; now := now s; videos := videos s; currentPage := v;
     thumbnails := thumbnails s; loadingThumbnails := loadingThumbnails s;
     optimizingVideos := optimizingVideos s;
     selectedVideoId := selectedVideoId s;
     pollingTasksRef := pollingTasksRef s;
     requestedThumbnails := requestedThumbnails s;
     videoCardRefs := videoCardRefs s; timers := timers s;
     nextTimer := nextTimer s; statusRequests := statusRequests s;
     optimizeRequests := optimizeRequests s;
     thumbnailRequests := thumbnailRequests s; nextRequest := nextRequest s;
     thumbnailCache := thumbnailCache s; alerts := alerts s;
     deleted := deleted s |}
  else s.

Definition setThumbnails (f : gmap string string -> gmap string string)
    (s : State) : State :=
  if mounted s then
  {| mounted := mounted s; now := now s; videos := videos s;
     currentPage := currentPage s; thumbnails := f (thumbnails s);
     loadingThumbnails := loadingThumbnails s;
     optimizingVideos := optimizingVideos s;
     selectedVideoId := selectedVideoId s;
     pollingTasksRef := pollingTasksRef s;
     requestedThumbnails := requestedThumbnails s;
     videoCardRefs := videoCardRefs s; timers := timers s;
     nextTimer := nextTimer s; statusRequests := statusRequests s;
     optimizeRequests := optimizeRequests s;
     thumbnailRequests := thumbnailRequests s; nextRequest := nextRequest s;
     thumbnailCache := thumbnailCache s; alerts := alerts s;
     deleted := deleted s |}
  else s.

Definition setLoadingThumbnails (f : gset string -> gset string) (s : State)
    : State :=
  if mounted s then
  {| mounted := mounted s; now := now s; videos := videos s;
     currentPage := currentPage s; thumbnails := thumbnails s;
     loadingThumbnails := f (loadingThumbnails s);
     optimizingVideos := optimizingVideos s;
     selectedVideoId := selectedVideoId s;
     pollingTasksRef := pollingTasksRef s;
     requestedThumbnails := requestedThumbnails s;
     videoCardRefs := videoCardRefs s; timers := timers s;
     nextTimer := nextTimer s; statusRequests := statusRequests s;
     optimizeRequests := optimizeRequests s;
     thumbnailRequests := thumbnailRequests s; nextRequest := nextRequest s;
     thumbnailCache := thumbnailCache s; alerts := alerts s;
     deleted := deleted s |}
  else s.

Definition setOptimizingVideos (f : gset string -> gset string) (s : State)
    : State :=
  if mounted s then
  {| mounted := mounted s; now := now s; videos := videos s;
     currentPage := currentPage s; thumbnails := thumbnails s;
     loadingThumbnails := loadingThumbnails s;
     optimizingVideos := f (optimizingVideos s);
     selectedVideoId := selectedVideoId s;
     pollingTasksRef := pollingTasksRef s;
     requestedThumbnails := requestedThumbnails s;
     videoCardRefs := videoCardRefs s; timers := timers s;
     nextTimer := nextTimer s; statusRequests := statusRequests s;
     optimizeRequests := optimizeRequests s;
     thumbnailRequests := thumbnailRequests s; nextRequest := nextRequest s;
     thumbnailCache := thumbnailCache s; alerts := alerts s;
     deleted := deleted s |}
  else s.

Definition setSelectedVideoId (v : option string) (s : State) : State :=
  if mounted s then
  {| mounted := mounted s; now := now s; videos := videos s;
     currentPage := currentPage s; thumbnails := thumbnails s;
     loadingThumbnails := loadingThumbnails s;
     optimizingVideos := optimizingVideos s; selectedVideoId := v;
     pollingTasksRef := pollingTasksRef s;
     requestedThumbnails := requestedThumbnails s;
     videoCardRefs := videoCardRefs s; timers := timers s;
     nextTimer := nextTimer s; statusRequests := statusRequests s;
     optimizeRequests := optimizeRequests s;
     thumbnailRequests := thumbnailRequests s; nextRequest := nextRequest s;
     thumbnailCache := thumbnailCache s; alerts := alerts s;
     deleted := deleted s |}
  else s.

Definition set_pollingTasksRef (v : gmap string PollingTask) (s : State)
    : State :=
  {| mounted := mounted s; now := now s; videos := videos s;
     currentPage := currentPage s; thumbnails := thumbnails s;
     loadingThumbnails := loadingThumbnails s;
     optimizingVideos := optimizingVideos s;
     selectedVideoId := selectedVideoId s; pollingTasksRef := v;
     requestedThumbnails := requestedThumbnails s;
     videoCardRefs := videoCardRefs s; timers := timers s;
     nextTimer := nextTimer s; statusRequests := statusRequests s;
     optimizeRequests := optimizeRequests s;
     thumbnailRequests := thumbnailRequests s; nextRequest := nextRequest s;
     thumbnailCache := thumbnailCache s; alerts := alerts s;
     deleted := deleted s |}.

Definition set_requestedThumbnails (v : gset string) (s : State) : State :=
  {| mounted := mounted s; now := now s; videos := videos s;
     currentPage := currentPage s; thumbnails := thumbnails s;
     loadingThumbnails := loadingThumbnails s;
     optimizingVideos := optimizingVideos s;
     selectedVideoId := selectedVideoId s;
     pollingTasksRef := pollingTasksRef s; requestedThumbnails := v;
     videoCardRefs := videoCardRefs s; timers := timers s;
     nextTimer := nextTimer s; statusRequests := statusRequests s;
     optimizeRequests := optimizeRequests s;
     thumbnailRequests := thumbnailRequests s; nextRequest := nextRequest s;
     thumbnailCache := thumbnailCache s; alerts := alerts s;
     deleted := deleted s |}.

Definition set_videoCardRefs (v : gset string) (s : State) : State :=
  {| mounted := mounted s; now := now s; videos := videos s;
     currentPage := currentPage s; thumbnails := thumbnails s;
     loadingThumbnails := loadingThumbnails s;
     optimizingVideos := optimizingVideos s;
     selectedVideoId := selectedVideoId s;
     pollingTasksRef := pollingTasksRef s;
     requestedThumbnails := requestedThumbnails s; videoCardRefs := v;
     timers := timers s; nextTimer := nextTimer s;
     statusRequests := statusRequests s;
     optimizeRequests := optimizeRequests s;
     thumbnailRequests := thumbnailRequests s; nextRequest := nextRequest s;
     thumbnailCache := thumbnailCache s; alerts := alerts s;
     deleted := deleted s |}.

Definition set_timers (v : gmap Z (Z * Poll)) (s : State) : State :=
  {| mounted := mounted s; now := now s; videos := videos s;
     currentPage := currentPage s; thumbnails := thumbnails s;
     loadingThumbnails := loadingThumbnails s;
     optimizingVideos := optimizingVideos s;
     selectedVideoId := selectedVideoId s;
     pollingTasksRef := pollingTasksRef s;
     requestedThumbnails := requestedThumbnails s;
     videoCardRefs := videoCardRefs s; timers := v; nextTimer := nextTimer s;
     statusRequests := statusRequests s;
     optimizeRequests := optimizeRequests s;
     thumbnailRequests := thumbnailRequests s; nextRequest := nextRequest s;
     thumbnailCache := thumbnailCache s; alerts := alerts s;
     deleted := deleted s |}.

Definition set_nextTimer (v : Z) (s : State) : State :=
  {| mounted := mounted s; now := now s; videos := videos s;
     currentPage := currentPage s; thumbnails := thumbnails s;
     loadingThumbnails := loadingThumbnails s;
     optimizingVideos := optimizingVideos s;
     selectedVideoId := selectedVideoId s;
     pollingTasksRef := pollingTasksRef s;
     requestedThumbnails := requestedThumbnails s;
     videoCardRefs := videoCardRefs s; timers := timers s; nextTimer := v;
     statusRequests := statusRequests s;
     optimizeRequests := optimizeRequests s;
     thumbnailRequests := thumbnailRequests s; nextRequest := nextRequest s;
     thumbnailCache := thumbnailCache s; alerts := alerts s;
     deleted := deleted s |}.

Definition set_statusRequests (v : gmap Z Poll) (s : State) : State :=
  {| mounted := mounted s; now := now s; videos := videos s;
     currentPage := currentPage s; thumbnails := thumbnails s;
     loadingThumbnails := loadingThumbnails s;
     optimizingVideos := optimizingVideos s;
     selectedVideoId := selectedVideoId s;
     pollingTasksRef := pollingTasksRef s;
     requestedThumbnails := requestedThumbnails s;
     videoCardRefs := videoCardRefs s; timers := timers s;
     nextTimer := nextTimer s; statusRequests := v;
     optimizeRequests := optimizeRequests s;
     thumbnailRequests := thumbnailRequests s; nextRequest := nextRequest s;
     thumbnailCache := thumbnailCache s; alerts := alerts s;
     deleted := deleted s |}.

Definition set_optimizeRequests (v : gmap Z VideoAsset) (s : State) : State :=
  {| mounted := mounted s; now := now s; videos := videos s;
     currentPage := currentPage s; thumbnails := thumbnails s;
     loadingThumbnails := loadingThumbnails s;
     optimizingVideos := optimizingVideos s;
     selectedVideoId := selectedVideoId s;
     pollingTasksRef := pollingTasksRef s;
     requestedThumbnails := requestedThumbnails s;
     videoCardRefs := videoCardRefs s; timers := timers s;
     nextTimer := nextTimer s; statusRequests := statusRequests s;
     optimizeRequests := v; thumbnailRequests := thumbnailRequests s;
     nextRequest := nextRequest s; thumbnailCache := thumbnailCache s;
     alerts := alerts s; deleted := deleted s |}.

Definition set_thumbnailRequests (v : gmap Z VideoAsset) (s : State) : State :=
  {| mounted := mounted s; now := now s; videos := videos s;
     currentPage := currentPage s; thumbnails := thumbnails s;
     loadingThumbnails := loadingThumbnails s;
     optimizingVideos := optimizingVideos s;
     selectedVideoId := selectedVideoId s;
     pollingTasksRef := pollingTasksRef s;
     requestedThumbnails := requestedThumbnails s;
     videoCardRefs := videoCardRefs s; timers := timers s;
     nextTimer := nextTimer s; statusRequests := statusRequests s;
     optimizeRequests := optimizeRequests s; thumbnailRequests := v;
     nextRequest := nextRequest s; thumbnailCache := thumbnailCache s;
     alerts := alerts s; deleted := deleted s |}.

Definition set_nextRequest (v : Z) (s : State) : State :=
  {| mounted := mounted s; now := now s; videos := videos s;
     currentPage := currentPage s; thumbnails := thumbnails s;
     loadingThumbnails := loadingThumbnails s;
     optimizingVideos := optimizingVideos s;
     selectedVideoId := selectedVideoId s;
     pollingTasksRef := pollingTasksRef s;
     requestedThumbnails := requestedThumbnails s;
     videoCardRefs := videoCardRefs s; timers := timers s;
     nextTimer := nextTimer s; statusRequests := statusRequests s;
     optimizeRequests := optimizeRequests s;
     thumbnailRequests := thumbnailRequests s; nextRequest := v;
     thumbnailCache := thumbnailCache s; alerts := alerts s;
     deleted := deleted s |}.

Definition set_thumbnailCache (v : gset string) (s : State) : State :=
  {| mounted := mounted s; now := now s; videos := videos s;
     currentPage := currentPage s; thumbnails := thumbnails s;
     loadingThumbnails := loadingThumbnails s;
     optimizingVideos := optimizingVideos s;
     selectedVideoId := selectedVideoId s;
     pollingTasksRef := pollingTasksRef s;
     requestedThumbnails := requestedThumbnails s;
     videoCardRefs := videoCardRefs s; timers := timers s;
     nextTimer := nextTimer s; statusRequests := statusRequests s;
     optimizeRequests := optimizeRequests s;
     thumbnailRequests := thumbnailRequests s; nextRequest := nextRequest s;
     thumbnailCache := v; alerts := alerts s; deleted := deleted s |}.

Definition alert (n : Notice) (s : State) : State :=
  {| mounted := mounted s; now := now s; videos := videos s;
     currentPage := currentPage s; thumbnails := thumbnails s;
     loadingThumbnails := loadingThumbnails s;
     optimizingVideos := optimizingVideos s;
     selectedVideoId := selectedVideoId s;
     pollingTasksRef := pollingTasksRef s;
     requestedThumbnails := requestedThumbnails s;
     videoCardRefs := videoCardRefs s; timers := timers s;
     nextTimer := nextTimer s; statusRequests := statusRequests s;
     optimizeRequests := optimizeRequests s;
     thumbnailRequests := thumbnailRequests s; nextRequest := nextRequest s;
     thumbnailCache := thumbnailCache s; alerts := alerts s ++ [n];
     deleted := deleted s |}.

Definition onDelete (v : VideoAsset) (s : State) : State :=
  {| mounted := mounted s; now := now s; videos := videos s;
     currentPage := currentPage s; thumbnails := thumbnails s;
     loadingThumbnails := loadingThumbnails s;
     optimizingVideos := optimizingVideos s;
     selectedVideoId := selectedVideoId s;
     pollingTasksRef := pollingTasksRef s;
     requestedThumbnails := requestedThumbnails s;
     videoCardRefs := videoCardRefs s; timers := timers s;
     nextTimer := nextTimer s; statusRequests := statusRequests s;
     optimizeRequests := optimizeRequests s;
     thumbnailRequests := thumbnailRequests s; nextRequest := nextRequest s;
     thumbnailCache := thumbnailCache s; alerts := alerts s;
     deleted := deleted s ++ [v] |}.

(** *** Browser timers and requests *)

(** [window.setTimeout(checkStatus, delay)]: the handle returned and the
    state with the timer pending. Handles are positive and never reused. *)
Definition setTimeout (p : Poll) (delay : Z) (s : State) : Z * State :=
  let id := nextTimer s in
  (id, s |> set_timers (<[id := (now s + delay, p)]> (timers s))
         |> set_nextTimer (id + 1)).

Definition clearTimeout (id : Z) (s : State) : State :=
  s |> set_timers (delete id (timers s)).

(** [fetch(API_BASE/api/tasks/taskId)]: the request is pending until the
    environment answers it. *)
Definition fetchStatus (p : Poll) (s : State) : State :=
  s |> set_statusRequests (<[nextRequest s := p]> (statusRequests s))
    |> set_nextRequest (nextRequest s + 1).

(** Outcome of one status request: the [try] block throws (the fetch
    rejects, the HTTP status is not ok, the body does not parse or is
    [null]), or it yields [taskData] with its [status] and optional
    [error]. *)
Inductive Response : Type :=
| RequestFailed
| TaskData (status : string) (error : option string).

(** *** JobPoller: [pollOptimizeTask] *)

Definition cleanup (p : Poll) (s : State) : State :=
  let s1 :=
    match pollingTasksRef s !! taskId p with
    | Some task =>
        if timeoutId task =? 0 then s else clearTimeout (timeoutId task) s
    | None => s
    end in
  s1 |> set_pollingTasksRef (delete (taskId p) (pollingTasksRef s1))
     |> setOptimizingVideos (fun prev => prev ∖ {[videoId p]}).

(** [checkStatus] up to its [await]. *)
Definition checkStatus (p : Poll) (s : State) : State :=
  match pollingTasksRef s !! taskId p with
  | None => cleanup p s
  | Some task =>
      if aborted task then cleanup p s
      else if now s - startTime p >? OPTIMIZE_TIMEOUT then
        s |> alert OptimizeTimedOut |> cleanup p
      else fetchStatus p s
  end.

(** [taskData.error || fallback]. *)
Definition failureReason (error : option string) : option string :=
  match error with
  | Some (String a r) => Some (String a r)
  | _ => None
  end.

(** [(task as any)?.retryCount || 0]. *)
Definition retryCountOf (task : option PollingTask) : Z :=
  match task with
  | Some t => default 0 (retryCount t)
  | None => 0
  end.

(** [checkStatus] from its [await] on: the rest of the [try] block and the
    [catch] block. *)
Definition checkStatusResume (p : Poll) (r : Response) (s : State) : State :=
  match r with
  | TaskData status error =>
      if String.eqb status "completed" then
        s |> alert OptimizeCompleted |> cleanup p
      else if String.eqb status "failed" then
        s |> alert (OptimizeFailed (failureReason error)) |> cleanup p
      else
        let '(id, s1) := setTimeout p POLL_INTERVAL s in
        match pollingTasksRef s1 !! taskId p with
        | Some currentTask =>
            s1 |> set_pollingTasksRef
                    (<[taskId p := {| timeoutId := id;
                                      aborted := aborted currentTask;
                                      retryCount := retryCount currentTask |}]>
                       (pollingTasksRef s1))
        | None => s1
        end
  | RequestFailed =>
      let count := retryCountOf (pollingTasksRef s !! taskId p) in
      if count <? 3 then
        match pollingTasksRef s !! taskId p with
        | Some currentTask =>
            let '(id, s1) := setTimeout p (POLL_INTERVAL * 2) s in
            s1 |> set_pollingTasksRef
                    (<[taskId p := {| timeoutId := id;
                                      aborted := aborted currentTask;
                                      retryCount := Some (count + 1) |}]>
                       (pollingTasksRef s1))
        | None => s
        end
      else s |> alert StatusQueryFailed |> cleanup p
  end.

Definition pollOptimizeTask (task video : string) (s : State) : State :=
  let p := {| taskId := task; videoId := video; startTime := now s |} in
  s |> set_pollingTasksRef
         (<[task := {| timeoutId := 0; aborted := false; retryCount := None |}]>
            (pollingTasksRef s))
    |> checkStatus p.

(** *** Unmount: the cleanup of the first effect *)

Definition abortTask (task : PollingTask) : PollingTask :=
  {| timeoutId := timeoutId task; aborted := true; retryCount := retryCount task |}.

(** One turn of the [forEach] of the cleanup, on the timer of an entry. *)
Definition clearOne (kv : string * PollingTask) (acc : State) : State :=
  if timeoutId (snd kv) =? 0 then acc else clearTimeout (timeoutId (snd kv)) acc.

(** The [forEach] of the cleanup: every entry is flagged and its timer
    cleared. *)
Definition abortAll (s : State) : State :=
  let s1 := fold_right clearOne s (map_to_list (pollingTasksRef s)) in
  s1 |> set_pollingTasksRef (abortTask <$> pollingTasksRef s1).

Definition unmount (s : State) : State :=
  s |> abortAll |> set_pollingTasksRef ∅ |> set_mounted false.

(** *** [handleOptimize] *)

Definition handleOptimize (video : VideoAsset) (confirmed : bool) (s : State) : State :=
  if decide (asset_id video ∈ optimizingVideos s) then s |> alert AlreadyOptimizing
  else if negb confirmed then s
  else
    s |> setOptimizingVideos (fun prev => prev ∪ {[asset_id video]})
      |> set_optimizeRequests (<[nextRequest s := video]> (optimizeRequests s))
      |> set_nextRequest (nextRequest s + 1).

(** The answer to the optimize request: [Some task_id], or [None] when the
    [try] block throws. *)
Definition handleOptimizeResume (video : VideoAsset) (result : option string)
    (s : State) : State :=
  match result with
  | Some task_id =>
      s |> alert OptimizeStarted |> pollOptimizeTask task_id (asset_id video)
  | None =>
      s |> alert OptimizeRequestFailed
        |> setOptimizingVideos (fun prev => prev ∖ {[asset_id video]})
  end.

(** *** LazyResourceLoader: thumbnails *)

Definition clearThumbnailForVideo (url : string) (s : State) : State :=
  s |> set_thumbnailCache (thumbnailCache s ∖ {[url]}).

(** [thumbnails[id]] read as a condition: a non-empty string. *)
Definition hasThumbnail (id : string) (s : State) : bool :=
  match thumbnails s !! id with
  | Some (String _ _) => true
  | _ => false
  end.

(** [generateThumbnail] up to its [await]. *)
Definition generateThumbnail (video : VideoAsset) (s : State) : State :=
  if hasThumbnail (asset_id video) s
     || bool_decide (asset_id video ∈ loadingThumbnails s)
     || bool_decide (asset_id video ∈ requestedThumbnails s)
  then s
  else
    s |> set_requestedThumbnails (requestedThumbnails s ∪ {[asset_id video]})
      |> setLoadingThumbnails (fun prev => prev ∪ {[asset_id video]})
      |> set_thumbnailRequests (<[nextRequest s := video]> (thumbnailRequests s))
      |> set_nextRequest (nextRequest s + 1).

(** [generateThumbnail] from its [await] on. [result] is the thumbnail, or
    [None] when the acquisition yields nothing or throws. *)
Definition generateThumbnailResume (video : VideoAsset) (result : option string)
    (s : State) : State :=
  let s1 :=
    match result with
    | Some (String a r) =>
        s |> set_thumbnailCache (thumbnailCache s ∪ {[asset_url video]})
          |> setThumbnails (fun prev => <[asset_id video := String a r]> prev)
    | _ => s
    end in
  s1 |> setLoadingThumbnails (fun prev => prev ∖ {[asset_id video]}).

Definition pathToDelete (video : VideoAsset) : string :=
  match asset_fullPath video with
  | Some (String a r) => String a r
  | _ => asset_name video
  end.

Definition handleDelete (video : VideoAsset) (confirmed : bool) (s : State) : State :=
  let path := pathToDelete video in
  if includes "/hls/" path || endsWith ".m3u8" path || endsWith ".ts" path
  then s |> alert CannotDeleteHls
  else if decide (asset_id video ∈ optimizingVideos s)
  then s |> alert CannotDeleteOptimizing
  else if confirmed then
    let s1 := s |> clearThumbnailForVideo (asset_url video) |> onDelete video in
    let s2 :=
      if decide (selectedVideoId s = Some (asset_id video))
      then s1 |> setSelectedVideoId None else s1 in
    s2 |> set_videoCardRefs (videoCardRefs s2 ∖ {[asset_id video]})
       |> set_requestedThumbnails (requestedThumbnails s2 ∖ {[asset_id video]})
       |> setThumbnails (fun prev => delete (asset_id video) prev)
  else s.

(** [videos.find(v => v.id === id)]. *)
Definition findVideo (id : string) (vs : list VideoAsset) : option VideoAsset :=
  List.find (fun v => String.eqb (asset_id v) id) vs.

(** The body of the stale-entry effect for one key of [videoCardRefs]. *)
Definition dropIfStale (currentVideoIds : gset string) (id : string) (s : State)
    : State :=
  if decide (id ∈ currentVideoIds) then s
  else
    let s1 :=
      s |> set_videoCardRefs (videoCardRefs s ∖ {[id]})
        |> set_requestedThumbnails (requestedThumbnails s ∖ {[id]}) in
    match findVideo id (videos s1) with
    | Some video => s1 |> clearThumbnailForVideo (asset_url video)
    | None => s1
    end.

(** The effect on [videos]: it walks the registered cards. *)
Definition staleCleanup (s : State) : State :=
  let currentVideoIds : gset string := list_to_set (asset_id <$> videos s) in
  fold_right (dropIfStale currentVideoIds) s (elements (videoCardRefs s)).

(** Rendering: the page shown and the [ref] callbacks of its cards. *)
Definition totalPages (s : State) : nat :=
  Nat.div (length (videos s) + ITEMS_PER_PAGE - 1) ITEMS_PER_PAGE.

Definition paginatedVideos (s : State) : list VideoAsset :=
  let startIndex := ((currentPage s - 1) * ITEMS_PER_PAGE)%nat in
  take ITEMS_PER_PAGE (drop startIndex (videos s)).

Definition registerCards (s : State) : State :=
  s |> set_videoCardRefs
         (videoCardRefs s ∪ list_to_set (asset_id <$> paginatedVideos s)).

(** The effect that keeps [currentPage] within [totalPages]. *)
Definition clampPage (s : State) : State :=
  if ((totalPages s <? currentPage s)%nat && (0 <? totalPages s)%nat)%bool
  then s |> setCurrentPage (totalPages s)
  else s.

(** The parent passes a new [videos]: render, then the effects that depend
    on it, in the order of their declaration, then the render that follows
    a change of page. *)
Definition videosChanged (vs : list VideoAsset) (s : State) : State :=
  s |> set_videos vs |> registerCards |> clampPage |> staleCleanup
    |> registerCards.

(** The observer reports the card of [id] as visible. *)
Definition cardVisible (id : string) (s : State) : State :=
  if decide (id ∈ videoCardRefs s) then
    match findVideo id (paginatedVideos s) with
    | Some video => generateThumbnail video s
    | None => s
    end
  else s.

(** *** Events and one turn of the component *)

Inductive Event : Type :=
| ClickOptimize (video : VideoAsset) (confirmed : bool)
| OptimizeAnswer (req : Z) (result : option string)
| TimePasses (dt : Z)
| TimerFires (id : Z)
| StatusAnswer (req : Z) (r : Response)
| Unmount
| CardVisible (id : string)
| ThumbnailAnswer (req : Z) (result : option string)
| ClickDelete (video : VideoAsset) (confirmed : bool)
| VideosChanged (vs : list VideoAsset).

(** A rendered component handles clicks; timers and answers of the
    environment arrive whether or not it is still mounted. A timer fires
    only once due, an answer arrives only for a pending request. *)
Definition step (s : State) (e : Event) : State :=
  match e with
  | ClickOptimize video confirmed =>
      if mounted s then handleOptimize video confirmed s else s
  | OptimizeAnswer req result =>
      match optimizeRequests s !! req with
      | Some video =>
          s |> set_optimizeRequests (delete req (optimizeRequests s))
            |> handleOptimizeResume video result
      | None => s
      end
  | TimePasses dt => if 0 <=? dt then s |> set_now (now s + dt) else s
  | TimerFires id =>
      match timers s !! id with
      | Some (due, p) =>
          if due <=? now s then s |> clearTimeout id |> checkStatus p else s
      | None => s
      end
  | StatusAnswer req r =>
      match statusRequests s !! req with
      | Some p =>
          s |> set_statusRequests (delete req (statusRequests s))
            |> checkStatusResume p r
      | None => s
      end
  | Unmount => if mounted s then unmount s else s
  | CardVisible id => if mounted s then cardVisible id s else s
  | ThumbnailAnswer req result =>
      match thumbnailRequests s !! req with
      | Some video =>
          s |> set_thumbnailRequests (delete req (thumbnailRequests s))
            |> generateThumbnailResume video result
      | None => s
      end
  | ClickDelete video confirmed =>
      if mounted s then handleDelete video confirmed s else s
  | VideosChanged vs => if mounted s then videosChanged vs s else s
  end.

Definition run (s : State) (es : list Event) : State := fold_left step es s.

(** A freshly mounted library showing [vs]. *)
Definition mount (vs : list VideoAsset) : State :=
  registerCards
    {| mounted := true; now := 0; videos := vs; currentPage := 1;
       thumbnails := ∅; loadingThumbnails := ∅; optimizingVideos := ∅;
       selectedVideoId := None; pollingTasksRef := ∅;
       requestedThumbnails := ∅; videoCardRefs := ∅;
       timers := ∅; nextTimer := 1;
       statusRequests := ∅; optimizeRequests := ∅; thumbnailRequests := ∅;
       nextRequest := 1; thumbnailCache := ∅; alerts := []; deleted := [] |}.

(** *** JobPoller: the view of one job *)

(** The job of [task] is live (polling): it has an entry in the registry
    that is not flagged as aborted. *)
Definition polling (s : State) (task : string) : Prop :=
  exists t, pollingTasksRef s !! task = Some t /\ aborted t = false.

(** The retry counter of [task] as [checkStatus] reads it. *)
Definition retryCounter (s : State) (task : string) : Z :=
  retryCountOf (pollingTasksRef s !! task).

(** *** Sample runs *)

Definition assetA : VideoAsset :=
  {| asset_id := "A"; asset_name := "a.mp4";
     asset_url := "https://cdn.example/a.mp4"; asset_fullPath := None |}.

(** The job ["t1"] of asset ["A"], started at time 0; its first status
    request (number 2) is in flight. *)
Definition pollA : Poll := {| taskId := "t1"; videoId := "A"; startTime := 0 |}.

Definition jobStarted : State :=
  run (mount [assetA]) [ClickOptimize assetA true; OptimizeAnswer 1 (Some "t1")].

(** Three failed status requests in a row, each retried when its timer
    fires. *)
Definition threeFailures : State :=
  run jobStarted
    [StatusAnswer 2 RequestFailed; TimePasses 6000; TimerFires 1;
     StatusAnswer 3 RequestFailed; TimePasses 6000; TimerFires 2;
     StatusAnswer 4 RequestFailed; TimePasses 6000; TimerFires 3].

Definition threeFailuresThenSuccess : State :=
  step threeFailures (StatusAnswer 5 (TaskData "processing" None)).

(** The library unmounted while the first status request is in flight. *)
Definition abortedInFlight : State := step jobStarted Unmount.

(** The thumbnail of ["A"] acquired and shown. *)
Definition thumbnailShown : State :=
  run (mount [assetA]) [CardVisible "A"; ThumbnailAnswer 1 (Some "thumb")].

(** The asset deleted while its thumbnail is loading; the acquisition
    answers afterwards. *)
Definition deletedWhileLoading : State :=
  run (mount [assetA]) [CardVisible "A"; ClickDelete assetA true].

End VideoLibrary.

(** ** More string operations *)

Module StringsMore.

Import JSString.

(** Number of occurrences of [c] in [s]. *)
Fixpoint count_char (c : ascii) (s : string) : nat :=
  match s with
  | EmptyString => 0
  | String a rest => (if Ascii.eqb a c then 1 else 0) + count_char c rest
  end.

(** [parts.join(c)] for a one-character separator. *)
Fixpoint join (c : ascii) (parts : list string) : string :=
  match parts with
  | [] => EmptyString
  | [p] => p
  | p :: rest => (p ++ String c (join c rest))%string
  end.

End StringsMore.

(** ** The build configuration: the environment file

    [vite.config.ts] reads [.env.dev] or [.env.prod] itself. Strings are
    sequences of bytes here: of the white space [trim] removes, TAB, LF, VT,
    FF, CR, SP and NBSP are represented. *)

Module ViteConfig.

Import JSString StringsMore.
Local Open Scope string_scope.

Fixpoint revOnto (s acc : string) : string :=
  match s with
  | EmptyString => acc
  | String a rest => revOnto rest (String a acc)
  end.

Definition reverse (s : string) : string := revOnto s EmptyString.

(** [s.trim()]. *)
Definition trim (s : string) : string :=
  reverse (skip_space (reverse (skip_space s))).

(** The body of the [forEach] over the lines: the assignment a line makes,
    if it makes one. *)
Definition parseLine (line : string) : option (string * string) :=
  let line := trim line in
  if negb (String.eqb line "") && negb (String.prefix "#" line) then
    match split "=" line with
    | key :: valueParts =>
        if negb (String.eqb key "") && (0 <? length valueParts)%nat
        then Some (key, trim (join "=" valueParts))
        else None
    | [] => None
    end
  else None.

(** [customEnv[key] = value] on the plain object [customEnv]: the key
    [__proto__] reaches the setter that [Object.prototype] has for it, which
    ignores a string, so that no property is made; every other key gets an
    own property. *)
Definition assign (customEnv : gmap string string) (line : string)
    : gmap string string :=
  match parseLine line with
  | Some (key, value) =>
      if String.eqb key "__proto__" then customEnv
      else <[key := value]> customEnv
  | None => customEnv
  end.

(** [customEnv] after the environment file has been read. *)
Definition parseEnv (envContent : string) : gmap string string :=
  fold_left assign (split "010" envContent) ∅.

(** [env.VITE_API_BASE_URL || 'http://localhost:8000/api'] on
    [{ ...viteEnv, ...customEnv }]. *)
Definition apiBaseUrl (viteEnv customEnv : gmap string string) : string :=
  match (customEnv ∪ viteEnv) !! "VITE_API_BASE_URL" with
  | Some (String a r) => String a r
  | _ => "http://localhost:8000/api"
  end.

End ViteConfig.

(** ** More of the [Player] component *)

Module PlayerMore.

Import JS JSString TimeCodec Player.

(** The surface finishes loading a medium of duration [d]. *)
Definition surfaceLoads (d : number) (s : State) : State :=
  match videoRef s with
  | Some v =>
      s |> set_videoRef (Some {| el_currentTime := el_currentTime v;
                                 el_paused := el_paused v;
                                 el_duration := d |})
  | None => s
  end.

(** The effect on [video]: the reset that follows the selection of an
    asset. It leaves [duration] as it was; [load()] is not represented. *)
Definition resetOnVideoChange (s : State) : State :=
  match video s with
  | None => s
  | Some _ =>
      let s1 :=
        s |> setError None |> setIsLoading true |> setIsPlaying false
          |> setCurrentTime (of_Z 0) |> setStartPoint (of_Z 0)
          |> setEndPoint (of_Z 0) |> setDragType None
          |> set_currentTimeRef (of_Z 0) |> set_isDraggingRef false in
      match videoRef s1 with
      | Some _ => s1 |> seek (of_Z 0)
      | None => s1
      end
  end.

(** On a track of width zero JavaScript divides to an infinity, which
    [div] does not represent: the properties of this handler take a track of
    non-zero width. *)
Definition handleTimelineClick (clientX : number) (s : State) : State :=
  match scrubberRef s, videoRef s with
  | Some rect, Some _ =>
      if negb (truthy (duration s)) then s
      else
        match dragType s with
        | Some _ => s
        | None =>
            let x := sub clientX (rect_left rect) in
            let percentage := div x (rect_width rect) in
            let clickedTime := roundToPrecision (mul percentage (duration s)) 3 in
            let clampedTime := max (startPoint s) (min clickedTime (endPoint s)) in
            s |> seek clampedTime
              |> set_currentTimeRef clampedTime
              |> setCurrentTime clampedTime
        end
  | _, _ => s
  end.

(** The effect on [previewTime, duration], for a preview range that is
    given. The timer that asks the surface to play 100 ms later is not
    represented. *)
Definition applyPreview (previewStart previewEnd : number) (s : State) : State :=
  match videoRef s with
  | None => s
  | Some _ =>
      if sameb (duration s) (of_Z 0) then s
      else
        s |> setStartPoint previewStart
          |> setEndPoint previewEnd
          |> seek previewStart
          |> set_currentTimeRef previewStart
          |> setCurrentTime previewStart
  end.

(** The playhead is at [c]: the state, the ref and the surface agree. *)
Definition playheadAt (c : Q) (s : State) : Prop :=
  currentTime s = Num c /\ currentTimeRef s = Num c
  /\ option_map el_currentTime (videoRef s) = Some (Num c).

(** *** Height of the controls area *)

Record Controls : Type := {
  controlsHeight : number;
  isResizing : bool;
  resizeStartY : number;
  resizeStartHeight : number
}.

Definition initialControls : Controls :=
  {| controlsHeight := of_Z 192; isResizing := false;
     resizeStartY := of_Z 0; resizeStartHeight := of_Z 0 |}.

Definition handleResizeStart (clientY : number) (c : Controls) : Controls :=
  {| controlsHeight := controlsHeight c; isResizing := true;
     resizeStartY := clientY; resizeStartHeight := controlsHeight c |}.

(** The listeners exist on [document] only while [isResizing]. *)
Definition handleResizeMove (clientY : number) (c : Controls) : Controls :=
  if isResizing c then
    let deltaY := sub (resizeStartY c) clientY in
    let newHeight :=
      max (of_Z 150) (min (of_Z 600) (add (resizeStartHeight c) deltaY)) in
    {| controlsHeight := newHeight; isResizing := isResizing c;
       resizeStartY := resizeStartY c;
       resizeStartHeight := resizeStartHeight c |}
  else c.

Definition handleResizeEnd (c : Controls) : Controls :=
  if isResizing c then
    {| controlsHeight := controlsHeight c; isResizing := false;
       resizeStartY := resizeStartY c;
       resizeStartHeight := resizeStartHeight c |}
  else c.

Inductive ResizeEvent : Type :=
| ResizeDown (clientY : number)   (* onMouseDown of the resize handle *)
| ResizeMove (clientY : number)   (* document mousemove *)
| ResizeUp.                       (* document mouseup *)

Definition resizeStep (c : Controls) (e : ResizeEvent) : Controls :=
  match e with
  | ResizeDown y => handleResizeStart y c
  | ResizeMove y => handleResizeMove y c
  | ResizeUp => handleResizeEnd c
  end.

(** What every event of the resize keeps: a finite height between 150 and
    600, and finite anchors while a resize is under way. *)
Definition resizeOk (c : Controls) : Prop :=
  (exists h, controlsHeight c = Num h /\ (150 <= h <= 600)%Q)
  /\ (isResizing c = true ->
      exists y h0, resizeStartY c = Num y /\ resizeStartHeight c = Num h0).

(** *** BufferNetworkMonitor *)

(** The refs and state of the two monitor effects of a player whose media
    element is present, with the calls the handlers make of
    [setBufferProgress] and [setNetworkSpeed], oldest first, each with the
    clock value at which it was made. [bufferMounted] and [networkMounted]
    are the flags [isMounted] of the closures now installed by the buffer
    effect and by the network effect; [bytesLoaded] is the variable of that
    name of the network effect. *)
Record Monitor : Type := {
  bufferMounted : bool;
  networkMounted : bool;
  lastBufferUpdate : Z;
  lastNetworkUpdate : Z;
  bytesLoaded : number;
  isBuffering : bool;
  bufferShown : list (Z * number);
  speedShown : list (Z * number)
}.

Definition initialMonitor : Monitor :=
  {| bufferMounted := true; networkMounted := true;
     lastBufferUpdate := 0; lastNetworkUpdate := 0;
     bytesLoaded := of_Z 0; isBuffering := false;
     bufferShown := []; speedShown := [] |}.

(** What the handlers read of the element: the end of the last buffered
    range, if any, the duration and the frame size. *)
Record Media : Type := {
  bufferedEnd : option number;
  mediaDuration : number;
  videoWidth : number;
  videoHeight : number
}.

(** [handleProgress], at clock [now] (the value of [Date.now()]). *)
Definition handleProgress (now : Z) (m : Media) (st : Monitor) : Monitor :=
  match bufferMounted st, bufferedEnd m with
  | true, Some bEnd =>
      if sameb (mediaDuration m) (of_Z 0) then st
      else if now - lastBufferUpdate st <? 500 then st
      else
        let bufferedPercent := mul (div bEnd (mediaDuration m)) (of_Z 100) in
        {| bufferMounted := bufferMounted st;
           networkMounted := networkMounted st; lastBufferUpdate := now;
           lastNetworkUpdate := lastNetworkUpdate st;
           bytesLoaded := bytesLoaded st; isBuffering := isBuffering st;
           bufferShown := bufferShown st ++ [(now, bufferedPercent)];
           speedShown := speedShown st |}
  | _, _ => st
  end.

Definition setIsBuffering (b : bool) (st : Monitor) : Monitor :=
  {| bufferMounted := bufferMounted st; networkMounted := networkMounted st;
     lastBufferUpdate := lastBufferUpdate st;
     lastNetworkUpdate := lastNetworkUpdate st;
     bytesLoaded := bytesLoaded st; isBuffering := b;
     bufferShown := bufferShown st; speedShown := speedShown st |}.

(** [handleWaiting] and [handleStalled] ([b] true), [handleCanPlayThrough]
    ([b] false). *)
Definition handleBuffering (b : bool) (st : Monitor) : Monitor :=
  if bufferMounted st then setIsBuffering b st else st.

(** [updateNetworkSpeed], at clock [now]; [elapsedMs] is
    [performance.now() - startTime], and [media] is [None] when
    [videoRef.current] is. *)
Definition updateNetworkSpeed (now : Z) (elapsedMs : number)
    (media : option Media) (st : Monitor) : Monitor :=
  match media with
  | None => st
  | Some m =>
  if negb (networkMounted st) then st
  else if now - lastNetworkUpdate st <? 2000 then st
  else
    let st1 :=
      {| bufferMounted := bufferMounted st;
         networkMounted := networkMounted st;
         lastBufferUpdate := lastBufferUpdate st; lastNetworkUpdate := now;
         bytesLoaded := bytesLoaded st; isBuffering := isBuffering st;
         bufferShown := bufferShown st; speedShown := speedShown st |} in
    match bufferedEnd m with
    | Some bEnd =>
        let perSecond :=
          if gt (mediaDuration m) (of_Z 0)
          then mul (mul (videoWidth m) (videoHeight m)) (lit 1 2)
          else of_Z 1000000 in
        let estimatedBytes := mul bEnd perSecond in
        let elapsedTime := div elapsedMs (of_Z 1000) in
        if gt elapsedTime (of_Z 0) && gt estimatedBytes (bytesLoaded st1) then
          let speed := div (div estimatedBytes elapsedTime) (of_Z (1024 * 1024)) in
          {| bufferMounted := bufferMounted st1;
             networkMounted := networkMounted st1;
             lastBufferUpdate := lastBufferUpdate st1;
             lastNetworkUpdate := lastNetworkUpdate st1;
             bytesLoaded := estimatedBytes; isBuffering := isBuffering st1;
             bufferShown := bufferShown st1;
             speedShown := speedShown st1 ++ [(now, speed)] |}
        else st1
    | None => st1
    end
  end.

(** A change of [video]: the network effect is cleaned up and runs again,
    installing a fresh closure when an asset is selected ([hasVideo]); the
    reset effect, which runs for an asset only, clears [isBuffering]. *)
Definition videoChanges (hasVideo : bool) (st : Monitor) : Monitor :=
  if hasVideo then
    {| bufferMounted := bufferMounted st; networkMounted := true;
       lastBufferUpdate := lastBufferUpdate st;
       lastNetworkUpdate := lastNetworkUpdate st;
       bytesLoaded := of_Z 0; isBuffering := false;
       bufferShown := bufferShown st; speedShown := speedShown st |}
  else
    {| bufferMounted := bufferMounted st; networkMounted := false;
       lastBufferUpdate := lastBufferUpdate st;
       lastNetworkUpdate := lastNetworkUpdate st;
       bytesLoaded := bytesLoaded st; isBuffering := isBuffering st;
       bufferShown := bufferShown st; speedShown := speedShown st |}.

(** The cleanups of the two effects when the player goes away. *)
Definition teardownMonitor (st : Monitor) : Monitor :=
  {| bufferMounted := false; networkMounted := false;
     lastBufferUpdate := lastBufferUpdate st;
     lastNetworkUpdate := lastNetworkUpdate st;
     bytesLoaded := bytesLoaded st; isBuffering := isBuffering st;
     bufferShown := bufferShown st; speedShown := speedShown st |}.

Inductive MonitorEvent : Type :=
| Progress (now : Z) (m : Media)          (* 'progress' *)
| Waiting                                 (* 'waiting' *)
| CanPlayThrough                          (* 'canplaythrough' *)
| Stalled                                 (* 'stalled' *)
| SpeedTick (now : Z) (elapsedMs : number) (media : option Media)
                                          (* the 3 s interval *)
| VideoChanges (hasVideo : bool)          (* the prop [video] changes *)
| Teardown.                               (* the player is unmounted *)

Definition monitorStep (st : Monitor) (e : MonitorEvent) : Monitor :=
  match e with
  | Progress now m => handleProgress now m st
  | Waiting => handleBuffering true st
  | CanPlayThrough => handleBuffering false st
  | Stalled => handleBuffering true st
  | SpeedTick now elapsed media => updateNetworkSpeed now elapsed media st
  | VideoChanges hasVideo => videoChanges hasVideo st
  | Teardown => teardownMonitor st
  end.

(** The events that reach a handler of the monitors. *)
Definition monitorHandlerEvent (e : MonitorEvent) : Prop :=
  match e with
  | VideoChanges _ | Teardown => False
  | _ => True
  end.

(** What [document] delivers: pointer positions are finite. *)
Definition finiteResize (e : ResizeEvent) : Prop :=
  match e with
  | ResizeDown (Num _) | ResizeMove (Num _) | ResizeUp => True
  | _ => False
  end.

(** *** Events that write no bound

    Every event but a pointer move, the text fields of the range and the
    loading of metadata. *)
Definition leavesRange (e : Event) : Prop :=
  match e with
  | MouseMove _ | ChangeStart _ | ChangeEnd _ | LoadedMetadata => False
  | _ => True
  end.

(** Consecutive entries of a log are at least [gap] apart. *)
Fixpoint spaced (gap : Z) (times : list Z) : Prop :=
  match times with
  | t1 :: ((t2 :: _) as rest) => t1 + gap <= t2 /\ spaced gap rest
  | _ => True
  end.

(** What every event of the monitors keeps: each log is spaced by its
    throttle and ends no later than the clock value of its ref, the byte
    count is a number that is not negative, and every speed shown is a
    positive number. *)
Definition monitorInvariant (st : Monitor) : Prop :=
  spaced 500 (map fst (bufferShown st))
  /\ (forall t, last (map fst (bufferShown st)) = Some t -> t <= lastBufferUpdate st)
  /\ spaced 2000 (map fst (speedShown st))
  /\ (forall t, last (map fst (speedShown st)) = Some t -> t <= lastNetworkUpdate st)
  /\ (exists b, bytesLoaded st = Num b /\ (0 <= b)%Q)
  /\ Forall (fun shown => exists q, snd shown = Num q /\ (0 < q)%Q) (speedShown st).

End PlayerMore.

(** ** More of the [VideoLibrary] component *)

Module LibraryMore.

Import JS JSString VideoLibrary.

(** *** Pages *)

(** [goToPage], on the whole numbers its callers pass. *)
Definition goToPage (page : Z) (s : State) : State :=
  s |> setCurrentPage
         (Z.to_nat (Z.max 1 (Z.min page (Z.of_nat (totalPages s))))).

(** The number on the [i]-th page button. *)
Definition pageNum (totalPages currentPage i : Z) : Z :=
  if totalPages <=? 5 then i + 1
  else if currentPage <=? 3 then i + 1
  else if currentPage >=? totalPages - 2 then totalPages - 4 + i
  else currentPage - 2 + i.

(** The numbers on the page buttons, left to right:
    [Array.from({ length: Math.min(5, totalPages) }, ...)]. *)
Definition pageButtons (totalPages currentPage : Z) : list Z :=
  (fun i => pageNum totalPages currentPage (Z.of_nat i))
    <$> seq 0 (Z.to_nat (Z.min 5 totalPages)).

(** The slice of [videos] shown as page [page]. *)
Definition pageSlice (page : nat) (vs : list VideoAsset) : list VideoAsset :=
  take ITEMS_PER_PAGE (drop ((page - 1) * ITEMS_PER_PAGE)%nat vs).

(** A click on a page button, with the render and the effects that follow
    the change of page. *)
Definition pageTurn (page : Z) (s : State) : State :=
  s |> goToPage page |> registerCards |> clampPage |> registerCards.

(** *** Thumbnails *)

(** [generateThumbnail] up to its [await], as the closure of the render
    [view]: [thumbnails] and [loadingThumbnails] are read there, the ref
    [requestedThumbnails] as it is at the call. *)
Definition generateThumbnailOf (view : State) (video : VideoAsset) (s : State)
    : State :=
  if hasThumbnail (asset_id video) view
     || bool_decide (asset_id video ∈ loadingThumbnails view)
     || bool_decide (asset_id video ∈ requestedThumbnails s)
  then s
  else
    s |> set_requestedThumbnails (requestedThumbnails s ∪ {[asset_id video]})
      |> setLoadingThumbnails (fun prev => prev ∪ {[asset_id video]})
      |> set_thumbnailRequests (<[nextRequest s := video]> (thumbnailRequests s))
      |> set_nextRequest (nextRequest s + 1).

(** [handleRegenerateThumbnail] up to the [await] of the acquisition: its
    [generateThumbnail] is the one of the render that showed the button. *)
Definition handleRegenerateThumbnail (video : VideoAsset) (s : State) : State :=
  let s1 :=
    s |> clearThumbnailForVideo (asset_url video)
      |> setThumbnails (fun prev => delete (asset_id video) prev) in
  s1 |> set_requestedThumbnails (requestedThumbnails s1 ∖ {[asset_id video]})
     |> generateThumbnailOf s video.

(** The button is rendered on a card with a thumbnail whose asset is not
    being optimized. *)
Definition regenerateRendered (video : VideoAsset) (s : State) : bool :=
  hasThumbnail (asset_id video) s
    && negb (bool_decide (asset_id video ∈ optimizingVideos s)).

(** The paths [handleDelete] refuses. *)
Definition hlsPath (path : string) : bool :=
  includes "/hls/" path || endsWith ".m3u8" path || endsWith ".ts" path.

(** *** Events of the library, with the two buttons above *)

Inductive UiEvent : Type :=
| Core (e : Event)
| ClickRegenerate (video : VideoAsset)
| ClickPage (page : Z).

Definition uiStep (s : State) (e : UiEvent) : State :=
  match e with
  | Core e => step s e
  | ClickRegenerate video =>
      if mounted s && regenerateRendered video s
      then handleRegenerateThumbnail video s else s
  | ClickPage page => if mounted s then pageTurn page s else s
  end.

Definition uiRun (s : State) (es : list UiEvent) : State := fold_left uiStep es s.

(** *** Work pending for a job

    A unit of work is something of the environment that will call back into
    the poller: a pending timer, a status request in flight, or an optimize
    request in flight. *)

Inductive Work : Type :=
| WTimer (id : Z)
| WStatus (req : Z)
| WOptimize (req : Z).

(** The asset a unit of work belongs to, if the unit is pending. *)
Definition workAsset (s : State) (w : Work) : option string :=
  match w with
  | WTimer id => (fun x => videoId (snd x)) <$> timers s !! id
  | WStatus req => videoId <$> statusRequests s !! req
  | WOptimize req => asset_id <$> optimizeRequests s !! req
  end.

(** No unit of work is pending for the asset [v]. *)
Definition idle (s : State) (v : string) : Prop :=
  forall w, workAsset s w <> Some v.

(** Every pending unit of work belongs to an asset marked as optimizing,
    and no asset has two. *)
Definition jobInvariant (s : State) : Prop :=
  (forall w v, workAsset s w = Some v -> v ∈ optimizingVideos s)
  /\ (forall w w' v,
        workAsset s w = Some v -> workAsset s w' = Some v -> w = w').





(** Every acquisition in flight is for an asset marked as loading, and no
    asset has two. *)
Definition thumbnailInvariant (s : State) : Prop :=
  (forall req video,
      thumbnailRequests s !! req = Some video ->
      asset_id video ∈ loadingThumbnails s)
  /\ (forall req req' video video',
        thumbnailRequests s !! req = Some video ->
        thumbnailRequests s !! req' = Some video' ->
        asset_id video = asset_id video' -> req = req').

(** The part of the state the poller never writes, and the part only the
    poller and the unmount write. *)
Definition libraryPart (s : State) :=
  (videos s, currentPage s, thumbnails s, loadingThumbnails s,
   requestedThumbnails s, thumbnailRequests s, thumbnailCache s,
   videoCardRefs s, deleted s).

Definition jobPart (s : State) :=
  (timers s, statusRequests s, optimizeRequests s, optimizingVideos s,
   mounted s, pollingTasksRef s, nextTimer s).

(** The page shown exists: pages count from 1, and the current one is
    within the pages there are, when there are any. *)
Definition pageInvariant (s : State) : Prop :=
  (1 <= currentPage s)%nat
  /\ ((0 < totalPages s)%nat -> (currentPage s <= totalPages s)%nat).

End LibraryMore.

(** ** Binary64: the numbers of the program as IEEE 754 doubles

    The arithmetic is that of [SpecFloat]: every operation rounds to the
    nearest double, ties to even, with the two infinities, the two zeros
    and NaN. It is used where a decision of the program rests on the last
    bit of a number. *)

Module Binary64.

Local Open Scope string_scope.

Definition prec : Z := 53.
Definition emax : Z := 1024.

Definition number : Type := spec_float.

Definition NaN : number := S754_nan.

(** The double nearest to an integer. *)
Definition of_Z (z : Z) : number := binary_normalize prec emax z 0 false.

Definition add : number -> number -> number := SFadd prec emax.
Definition sub : number -> number -> number := SFsub prec emax.
Definition mul : number -> number -> number := SFmul prec emax.
Definition div : number -> number -> number := SFdiv prec emax.

(** Comparisons: every comparison with [NaN] is false. *)
Definition lt : number -> number -> bool := SFltb.
Definition le : number -> number -> bool := SFleb.
Definition gt (a b : number) : bool := lt b a.
Definition ge (a b : number) : bool := le b a.

(** The decimal literal [n/d], for [n] and [d] that are doubles: the
    division rounds to the double nearest to the quotient, which is the
    double the literal denotes. *)
Definition lit (n : Z) (d : positive) : number := div (of_Z n) (of_Z (Z.pos d)).

Definition isFinite (a : number) : bool :=
  match a with
  | S754_zero _ | S754_finite _ _ _ => true
  | _ => false
  end.

(** The signed significand of a finite double [(-1)^s * m * 2^e]. *)
Definition significand (s : bool) (m : positive) : Z :=
  if s then Z.neg m else Z.pos m.

(** [Math.floor]. *)
Definition floor (a : number) : number :=
  match a with
  | S754_finite s m e =>
      if (0 <=? e)%Z then a
      else
        let n := (significand s m / 2 ^ (- e))%Z in
        if (n =? 0)%Z then S754_zero s else of_Z n
  | _ => a
  end.

(** [Math.round]: the integer nearest to [a], halves toward plus infinity;
    a result of zero keeps the sign of [a]. *)
Definition round (a : number) : number :=
  match a with
  | S754_finite s m e =>
      if (0 <=? e)%Z then a
      else
        let n := ((2 * significand s m + 2 ^ (- e)) / 2 ^ (- e + 1))%Z in
        if (n =? 0)%Z then S754_zero s else of_Z n
  | _ => a
  end.

(** [a % y] for a literal [y] that is a positive integer (the program has
    60 and 1): the remainder takes the sign of [a] and is exact. *)
Definition rem (a : number) (y : positive) : number :=
  match a with
  | S754_finite s m e =>
      if (0 <=? e)%Z
      then binary_normalize prec emax
             (Z.rem (significand s m * 2 ^ e) (Z.pos y)) 0 s
      else binary_normalize prec emax
             (Z.rem (significand s m) (Z.pos y * 2 ^ (- e))) e s
  | S754_zero _ => a
  | _ => NaN
  end.

(** [Math.max], [Math.min]: [NaN] as soon as one argument is, and [-0]
    below [+0]. *)
Definition max (a b : number) : number :=
  match a, b with
  | S754_nan, _ | _, S754_nan => NaN
  | _, _ =>
      if lt a b then b else if lt b a then a
      else match a with S754_zero true => b | _ => a end
  end.

Definition min (a b : number) : number :=
  match a, b with
  | S754_nan, _ | _, S754_nan => NaN
  | _, _ =>
      if lt a b then a else if lt b a then b
      else match a with S754_zero true => a | _ => b end
  end.

(** The value of a double without fractional part. *)
Definition integerValue (a : number) : option Z :=
  match a with
  | S754_zero _ => Some 0%Z
  | S754_finite s m e =>
      if (0 <=? e)%Z then Some (significand s m * 2 ^ e)%Z
      else if (Z.rem (Z.pos m) (2 ^ (- e)) =? 0)%Z
           then Some (Z.quot (significand s m) (2 ^ (- e)))
           else None
  | _ => None
  end.

(** Number to string, step 5 of [Number::toString]: the integer with the
    fewest significant digits whose double is [a], the closest to [V] when
    there are two, the even one at a tie. [V] is the value of [a], a
    positive integer of [D] digits; [k] is the number of digits tried. *)
Fixpoint shortest (fuel k : nat) (a : number) (V : Z) (D : nat) : Z :=
  match fuel with
  | O => V
  | S fuel' =>
      let scale := (10 ^ Z.of_nat (D - k))%Z in
      let lo := (V / scale * scale)%Z in
      let hi := (lo + scale)%Z in
      let okLo := SFeqb (of_Z lo) a in
      let okHi := SFeqb (of_Z hi) a in
      if okLo && okHi then
        if (V - lo <? hi - V)%Z then lo
        else if (hi - V <? V - lo)%Z then hi
        else if Z.even (lo / scale) then lo else hi
      else if okLo then lo
      else if okHi then hi
      else shortest fuel' (S k) a V D
  end.

Fixpoint stripTrailingZeros (s : string) : string :=
  match s with
  | EmptyString => EmptyString
  | String c rest =>
      match stripTrailingZeros rest with
      | EmptyString =>
          if Ascii.eqb c "0" then EmptyString else String c EmptyString
      | rest' => String c rest'
      end
  end.

(** [String(a)] for a number without fractional part, which is all that the
    program prints: decimal digits below 1e21, exponent notation from there
    on. The empty string stands for the numbers with a fractional part. *)
Definition toString (a : number) : string :=
  match a with
  | S754_nan => "NaN"
  | S754_infinity s => if s then "-Infinity" else "Infinity"
  | S754_zero _ => "0"
  | S754_finite s m e =>
      match integerValue a with
      | None => EmptyString
      | Some z =>
          let V := Z.abs z in
          let D := String.length (JSString.toString V) in
          let c := shortest D 1 (S754_finite false m e) V D in
          let digits := JSString.toString c in
          let body :=
            if (c <? 10 ^ 21)%Z then digits
            else
              match stripTrailingZeros digits with
              | String d EmptyString =>
                  String d EmptyString ++ "e+"
                    ++ JSString.toString (Z.of_nat (String.length digits) - 1)
              | String d rest =>
                  String d EmptyString ++ "." ++ rest ++ "e+"
                    ++ JSString.toString (Z.of_nat (String.length digits) - 1)
              | EmptyString => digits
              end in
          if s then "-" ++ body else body
      end
  end.

(** [roundToPrecision] and [formatTime] of the player. [Math.pow(10, 3)] is
    the double 1000. *)
Definition roundToPrecision (value : number) (precision : nat) : number :=
  let multiplier := of_Z (10 ^ Z.of_nat precision) in
  div (round (mul value multiplier)) multiplier.

(** The arithmetic of [parseTimeString] on the three integers it reads
    from the text: [roundToPrecision(mins * 60 + secs + ms / 1000, 3)]. *)
Definition timeOfFields (mins secs ms : Z) : number :=
  roundToPrecision
    (add (add (mul (of_Z mins) (of_Z 60)) (of_Z secs))
         (div (of_Z ms) (of_Z 1000)))
    3.

Definition formatTime (t : number) : string :=
  if negb (isFinite t) then "0:00.000"
  else
    let mins := floor (div t (of_Z 60)) in
    let secs := floor (rem t 60) in
    let ms := round (mul (rem t 1) (of_Z 1000)) in
    toString mins ++ ":" ++ JSString.padStart0 2 (toString secs) ++ "."
      ++ JSString.padStart0 3 (toString ms).

End Binary64.

(** ** ClipFactory in binary64

    [handleCreateClip] again, on the doubles the program holds: the props
    and the state the handler reads, and what it emits. *)

Module ClipFactory64.

Import Binary64.

Record Clip : Type := {
  clip_id : string;
  sourceVideoId : string;
  clip_name : string;
  startTime : number;
  endTime : number
}.

Record State : Type := {
  video : option VideoAsset;
  startPoint : number;
  endPoint : number;
  alerts : list Notice;
  addedClips : list Clip
}.

Definition alert (n : Notice) (s : State) : State :=
  {| video := video s; startPoint := startPoint s; endPoint := endPoint s;
     alerts := alerts s ++ [n]; addedClips := addedClips s |}.

Definition onAddClip (c : Clip) (s : State) : State :=
  {| video := video s; startPoint := startPoint s; endPoint := endPoint s;
     alerts := alerts s; addedClips := addedClips s ++ [c] |}.

(** Minimum clip length, the literal [0.1]. *)
Definition EPS : number := lit 1 10.

Definition clipName (v : VideoAsset) (s : State) : string :=
  (asset_name v ++ " (" ++ formatTime (startPoint s) ++ "-"
     ++ formatTime (endPoint s) ++ ")")%string.

(** [uuid] is the value of [crypto.randomUUID()]. *)
Definition handleCreateClip (uuid : string) (s : State) : State :=
  match video s with
  | None => alert SelectVideoFirst s
  | Some v =>
      if ge (startPoint s) (endPoint s) then alert StartMustPrecedeEnd s
      else if lt (sub (endPoint s) (startPoint s)) EPS then alert ClipTooShort s
      else
        let newClip :=
          {| clip_id := uuid;
             sourceVideoId := asset_id v;
             clip_name := clipName v s;
             startTime := roundToPrecision (startPoint s) 3;
             endTime := roundToPrecision (endPoint s) 3 |} in
        onAddClip newClip s
  end.

(** [clampedStart] of [handleMouseMove]: the start a drag of the start
    handle to [newTime] stores. *)
Definition clampedStart (newTime endPoint : number) : number :=
  max (of_Z 0) (min newTime (sub endPoint EPS)).

(** The end the End field stores for a text that parses to [newTime]. *)
Definition fieldEnd (newTime startPoint : number) : number :=
  max newTime (add startPoint EPS).


End ClipFactory64.

(** * Properties *)

(** ** Arithmetic of the number model *)

Section NumberFacts.

Import JS.
Local Open Scope Q_scope.

Lemma Qle_bool_false (x y : Q) : Qle_bool x y = false <-> y < x.
Proof.
  split; intros H.
  - apply Qnot_le_lt. intros Hle. apply Qle_bool_iff in Hle. congruence.
  - destruct (Qle_bool x y) eqn:E; [|reflexivity].
    apply Qle_bool_iff in E. exfalso. apply (Qlt_not_le _ _ H E).
Qed.

Lemma Qltb_true (x y : Q) : Qltb x y = true <-> x < y.
Proof.
  unfold Qltb. rewrite negb_true_iff. apply Qle_bool_false.
Qed.

Lemma Qltb_false (x y : Q) : Qltb x y = false <-> y <= x.
Proof.
  unfold Qltb. rewrite negb_false_iff. apply Qle_bool_iff.
Qed.

Lemma Qmaxb_cases (x y : Q) :
  (x <= y /\ Qmaxb x y = y) \/ (y < x /\ Qmaxb x y = x).
Proof.
  unfold Qmaxb. destruct (Qle_bool x y) eqn:E.
  - left. split; [now apply Qle_bool_iff | reflexivity].
  - right. split; [now apply Qle_bool_false | reflexivity].
Qed.

Lemma Qminb_cases (x y : Q) :
  (x <= y /\ Qminb x y = x) \/ (y < x /\ Qminb x y = y).
Proof.
  unfold Qminb. destruct (Qle_bool x y) eqn:E.
  - left. split; [now apply Qle_bool_iff | reflexivity].
  - right. split; [now apply Qle_bool_false | reflexivity].
Qed.

Lemma sameb_refl (a : number) : sameb a a = true.
Proof. destruct a; simpl; [reflexivity | apply Qeq_bool_refl]. Qed.

End NumberFacts.

(** ** Rounding *)

Section RoundingFacts.

Import JS TimeCodec.
Local Open Scope Q_scope.

(** [Math.round] is within one half of its argument. *)
Lemma Qround_half_up_bounds (x : Q) :
  x - (1 # 2) < inject_Z (Qround_half_up x)
  /\ inject_Z (Qround_half_up x) <= x + (1 # 2).
Proof.
  unfold Qround_half_up.
  pose proof (Qfloor_le (x + (1 # 2))) as Hle.
  pose proof (Qlt_floor (x + (1 # 2))) as Hlt.
  rewrite inject_Z_plus in Hlt. change (inject_Z 1) with 1 in Hlt.
  generalize dependent (inject_Z (Qfloor (x + (1 # 2)))). intros f Hle Hlt.
  split; lra.
Qed.

Lemma Qround_half_up_Z (z : Z) : Qround_half_up (inject_Z z) = z.
Proof.
  destruct (Qround_half_up_bounds (inject_Z z)) as [Hlo Hhi].
  assert (H1 : inject_Z (Qround_half_up (inject_Z z)) < inject_Z (z + 1)).
  { rewrite inject_Z_plus. change (inject_Z 1) with 1.
    generalize dependent (inject_Z (Qround_half_up (inject_Z z))).
    generalize (inject_Z z). intros; lra. }
  assert (H2 : inject_Z z < inject_Z (Qround_half_up (inject_Z z) + 1)).
  { rewrite inject_Z_plus. change (inject_Z 1) with 1.
    generalize dependent (inject_Z (Qround_half_up (inject_Z z))).
    generalize (inject_Z z). intros; lra. }
  rewrite <- Zlt_Qlt in H1, H2. lia.
Qed.

Lemma roundToPrecision_Num (q : Q) :
  roundToPrecision (Num q) 3 = Num (round3 q).
Proof. reflexivity. Qed.

Lemma roundToPrecision_NaN : roundToPrecision NaN 3 = NaN.
Proof. reflexivity. Qed.

Lemma round3_error (q : Q) :
  - (1 # 2000) < round3 q - q /\ round3 q - q <= 1 # 2000.
Proof.
  unfold round3.
  destruct (Qround_half_up_bounds (q * 1000)) as [Hlo Hhi].
  generalize dependent (inject_Z (Qround_half_up (q * 1000))). intros r Hlo Hhi.
  assert (E : r / 1000 == r * (1 # 1000)) by (field).
  rewrite E. split; lra.
Qed.

End RoundingFacts.

(** ** ClipFactory *)

Section ClipFactoryFacts.

Import Binary64 ClipFactory64.

(** The Start field stores 5 for the text [0:05.000] under an end of 120.5,
    and the End field then stores the double of [5.1] for the text
    [0:05.100], as for every text that parses to less. *)
Lemma fields_at_5 :
  min (timeOfFields 0 5 0) (sub (lit 1205 10) EPS) = of_Z 5 /\
  fieldEnd (timeOfFields 0 5 100) (of_Z 5) = lit 51 10 /\
  fieldEnd (timeOfFields 0 0 0) (of_Z 5) = lit 51 10.
Proof. repeat split; vm_compute; reflexivity. Qed.


End ClipFactoryFacts.

(** ** PlaybackGovernor *)

Section GovernorFacts.

Import JS TimeCodec Player.

Lemma dragType_eqb_refl (o : option DragType) : dragType_eqb o o = true.
Proof. destruct o as [[]|]; reflexivity. Qed.

(** No dependency of the drag effect changed: the effect does not run. *)
Lemma commit_same_deps (prev s : State) :
  dragType s = dragType prev -> duration s = duration prev ->
  startPoint s = startPoint prev -> endPoint s = endPoint prev ->
  commit prev s = s.
Proof.
  intros Ht Hd Ha Hb. unfold commit, dragDepsSame.
  rewrite Ht, Hd, Ha, Hb, dragType_eqb_refl, !sameb_refl. reflexivity.
Qed.

(** C7. While [isPlaying] holds and the element is mounted, the bounds check
    runs every 100 ms. A check made with no drag open and the surface at or
    past [endPoint] pauses the surface, seeks it to [startPoint] and leaves
    the governor idle; the ended notification also leaves it idle and seeks
    to [startPoint]. *)
Theorem C7_range_enforcement (s : State) (v : VideoElement) :
  videoRef s = Some v ->
  (isPlaying s = true ->
   boundsInterval s = Some 100%Z
   /\ (isDraggingRef s = false -> ge (el_currentTime v) (endPoint s) = true ->
       isPlaying (step s Tick) = false
       /\ surfaceCalls (step s Tick)
            = surfaceCalls s ++ [CallPause; CallSeek (startPoint s)]
       /\ videoRef (step s Tick)
            = Some {| el_currentTime := startPoint s; el_paused := true;
                      el_duration := el_duration v |}
       /\ currentTime (step s Tick) = startPoint s))
  /\ isPlaying (step s Ended) = false
  /\ surfaceCalls (step s Ended) = surfaceCalls s ++ [CallSeek (startPoint s)]
  /\ videoRef (step s Ended)
       = Some {| el_currentTime := startPoint s; el_paused := el_paused v;
                 el_duration := el_duration v |}
  /\ currentTime (step s Ended) = startPoint s.
Proof.
  intros Hv. split.
  - intros Hp. split.
    + unfold boundsInterval. now rewrite Hv, Hp.
    + intros Hd Hge.
      assert (E : step s Tick =
                  s |> pause |> seek (startPoint s)
                    |> set_currentTimeRef (startPoint s)
                    |> setCurrentTime (startPoint s) |> setIsPlaying false).
      { unfold step, handler, tick, boundsInterval, checkPlaybackBounds.
        rewrite Hv, Hp, Hd, Hge. apply commit_same_deps; unfold pause, seek; rewrite Hv; reflexivity. }
      rewrite E. unfold pause, seek. rewrite Hv. simpl.
      rewrite <- app_assoc. repeat split.
  - assert (E : step s Ended = s |> setIsPlaying false |> seekAndStore (startPoint s)).
    { unfold step, handler, onEnded. simpl. rewrite Hv.
      apply commit_same_deps; unfold seekAndStore, seek; simpl; rewrite Hv; reflexivity. }
    rewrite E. unfold seekAndStore, seek. simpl. rewrite Hv. simpl. repeat split.
Qed.

Lemma C7_range_enforcement_witness :
  isPlaying playingPastEnd = true
  /\ isPlaying (step playingPastEnd Tick) = false
  /\ surfaceCalls (step playingPastEnd Tick)
       = surfaceCalls playingPastEnd
           ++ [CallPause; CallSeek (startPoint playingPastEnd)]
  /\ isPlaying (step playingPastEnd Ended) = false.
Proof.
  pose proof (C7_range_enforcement playingPastEnd
                {| el_currentTime := lit 1206 10; el_paused := false;
                   el_duration := lit 1205 10 |} eq_refl) as [Htick [Hended _]].
  destruct (Htick eq_refl) as [_ Hpast].
  destruct (Hpast eq_refl eq_refl) as (Hidle & Hcalls & _).
  exact (conj eq_refl (conj Hidle (conj Hcalls Hended))).
Defined.

End GovernorFacts.

(** ** TrimRangeModel and DragCoordinator *)

Section DragFacts.

Import JS TimeCodec Player.
Local Open Scope Q_scope.

(** [Math.max(lo, Math.min(t, hi))] is the clamp of [t] to a non-empty
    interval. *)
Lemma max_min_clamp (lo hi t : Q) :
  lo <= hi -> Qmaxb lo (Qminb t hi) = clampTo lo hi t.
Proof.
  intros Hne. unfold clampTo.
  destruct (Qminb_cases t hi) as [[H1 ->]|[H1 ->]];
    [destruct (Qmaxb_cases lo t) as [[H2 ->]|[H2 ->]]
    |destruct (Qmaxb_cases lo hi) as [[H2 ->]|[H2 ->]]].
  - apply Qltb_false in H2. rewrite H2.
    assert (H3 : Qltb hi t = false) by now apply Qltb_false. now rewrite H3.
  - apply Qltb_true in H2. now rewrite H2.
  - assert (H3 : Qltb t lo = false) by (apply Qltb_false; lra). rewrite H3.
    apply Qltb_true in H1. now rewrite H1.
  - lra.
Qed.

Lemma clampTo_bounds (lo hi t : Q) :
  lo <= hi -> lo <= clampTo lo hi t /\ clampTo lo hi t <= hi.
Proof.
  intros Hne. unfold clampTo.
  destruct (Qltb t lo) eqn:E1; [split; lra|].
  destruct (Qltb hi t) eqn:E2; [split; lra|].
  apply Qltb_false in E1, E2. split; lra.
Qed.

Lemma dragTo_clamps (s : State) (t a b d : Q) :
  startPoint s = Num a -> endPoint s = Num b -> duration s = Num d ->
  (0 <= b - (1 # 10) ->
   startPoint (dragTo DragStart (Num t) s) = Num (clampTo 0 (b - (1 # 10)) t)
   /\ endPoint (dragTo DragStart (Num t) s) = Num b)
  /\ (a + (1 # 10) <= d ->
      endPoint (dragTo DragEnd (Num t) s) = Num (clampTo (a + (1 # 10)) d t)
      /\ startPoint (dragTo DragEnd (Num t) s) = Num a).
Proof.
  intros Ha Hb Hd. split; intros Hne.
  - unfold dragTo, seek. destruct (videoRef _); simpl; rewrite Hb; simpl;
      change (inject_Z 0) with 0;
      rewrite (max_min_clamp 0 (b - (1 # 10)) t Hne); split; reflexivity.
  - unfold dragTo. simpl. rewrite Ha, Hd. simpl.
    rewrite (max_min_clamp (a + (1 # 10)) d t Hne). split; reflexivity.
Qed.

Lemma dragScenario_raw_time :
  same (pointerTime {| rect_left := of_Z 0; rect_width := of_Z 1205 |}
          (of_Z 1190) (lit 1205 10)) (lit 119 1).
Proof. vm_compute. reflexivity. Qed.

Lemma dragScenario_result :
  same (endPoint (run intro dragScenario)) (lit 118 1)
  /\ same (startPoint (run intro dragScenario)) (lit 1179 10).
Proof. split; vm_compute; reflexivity. Qed.

(** C8. A start drag to [t] stores the clamp of [t] to
    [[0, endPoint - 0.1]], an end drag to [t] stores the clamp of [t] to
    [[startPoint + 0.1, duration]]; the other bound is left as it was. On
    the 120.5 s asset with the end dragged to 118.0, a start drag whose raw
    time is 119.0 stores 117.9. *)
Theorem C8_drag_clamps :
  (forall (s : State) (t a b d : Q),
     startPoint s = Num a -> endPoint s = Num b -> duration s = Num d ->
     (0 <= b - (1 # 10) ->
      startPoint (dragTo DragStart (Num t) s) = Num (clampTo 0 (b - (1 # 10)) t)
      /\ endPoint (dragTo DragStart (Num t) s) = Num b)
     /\ (a + (1 # 10) <= d ->
         endPoint (dragTo DragEnd (Num t) s) = Num (clampTo (a + (1 # 10)) d t)
         /\ startPoint (dragTo DragEnd (Num t) s) = Num a))
  /\ same (pointerTime {| rect_left := of_Z 0; rect_width := of_Z 1205 |}
             (of_Z 1190) (lit 1205 10)) (lit 119 1)
  /\ same (endPoint (run intro dragScenario)) (lit 118 1)
  /\ same (startPoint (run intro dragScenario)) (lit 1179 10).
Proof.
  split; [exact dragTo_clamps|].
  split; [exact dragScenario_raw_time|exact dragScenario_result].
Qed.

Lemma C8_drag_clamps_witness :
  startPoint (dragTo DragStart (Num (119 # 1))
                (introRange (of_Z 0) (lit 118 1)))
    = Num (clampTo 0 ((118 # 1) - (1 # 10)) (119 # 1))
  /\ clampTo 0 ((118 # 1) - (1 # 10)) (119 # 1) == 1179 # 10
  /\ endPoint (dragTo DragEnd (Num (118 # 1))
                 (introRange (of_Z 0) (lit 1205 10)))
       = Num (clampTo (0 + (1 # 10)) (inject_Z 120500 / inject_Z 1000) (118 # 1))
  /\ clampTo (0 + (1 # 10)) (inject_Z 120500 / inject_Z 1000) (118 # 1) == 118 # 1.
Proof.
  destruct (proj1 C8_drag_clamps (introRange (of_Z 0) (lit 118 1))
              (119 # 1) 0 (118 # 1) (inject_Z 120500 / inject_Z 1000)
              eq_refl eq_refl eq_refl) as [Hs _].
  destruct (proj1 C8_drag_clamps (introRange (of_Z 0) (lit 1205 10))
              (118 # 1) 0 (1205 # 10) (inject_Z 120500 / inject_Z 1000)
              eq_refl eq_refl eq_refl) as [_ He].
  split; [|split; [|split]].
  - apply Hs. unfold Qle; simpl; lia.
  - vm_compute. reflexivity.
  - apply He. unfold Qle; simpl; lia.
  - vm_compute. reflexivity.
Defined.

End DragFacts.

(** ** Drag priority over playback *)

Section DragPriorityFacts.

Import JS TimeCodec Player.

Lemma commit_calls (prev s : State) : surfaceCalls (commit prev s) = surfaceCalls s.
Proof.
  unfold commit, dragEffectBody.
  destruct (dragDepsSame prev s); [reflexivity|]. now destruct (dragType s).
Qed.

Ltac grows :=
  simpl; rewrite <- ?app_assoc;
  first [ exists []; now rewrite app_nil_r | eexists; reflexivity ].

Ltac split_matches :=
  repeat match goal with
         | |- context [match ?x with _ => _ end] => destruct x eqn:?
         end.

(** The component only ever appends to the calls made on the surface. *)
Lemma handler_calls_grow (s : State) (e : Event) :
  exists later, surfaceCalls (handler e s) = surfaceCalls s ++ later.
Proof.
  destruct e; unfold handler, handleStartDrag, handleMouseMove, dragTo,
    handleMouseUp, surfaceMoves, handleTimeUpdate, tick, checkPlaybackBounds,
    onEnded, handleLoadedMetadata, togglePlay, playResolved, playRejected,
    onChangeStart, onChangeEnd, handleCreateClip, seekAndStore, pause, seek, play;
    simpl; split_matches; grows.
Qed.

Lemma step_calls_grow (s : State) (e : Event) :
  exists later, surfaceCalls (step s e) = surfaceCalls s ++ later.
Proof. unfold step. rewrite commit_calls. apply handler_calls_grow. Qed.

Lemma run_calls_grow (es : list Event) (s : State) :
  exists later, surfaceCalls (run s es) = surfaceCalls s ++ later.
Proof.
  revert s. induction es as [|e es IH]; intros s.
  - exists []. simpl. now rewrite app_nil_r.
  - change (run s (e :: es)) with (run (step s e) es).
    destruct (IH (step s e)) as [l2 H2].
    destruct (step_calls_grow s e) as [l1 H1].
    exists (l1 ++ l2). rewrite H2, H1. now rewrite app_assoc.
Qed.

Lemma commit_session (prev s : State) :
  isDraggingRef s = true -> dragType s <> None -> sessionOpen (commit prev s).
Proof.
  intros Hr Ht. unfold commit, dragEffectBody.
  destruct (dragDepsSame prev s); [now split|].
  destruct (dragType s) eqn:E; [|congruence]. split; simpl; congruence.
Qed.

(** Only the release of the pointer closes a session. *)
Lemma handler_keeps_session (s : State) (e : Event) :
  e <> MouseUp -> sessionOpen s ->
  isDraggingRef (handler e s) = true /\ dragType (handler e s) <> None.
Proof.
  intros Hne [Hr Ht].
  destruct e; try congruence;
    unfold handler, handleStartDrag, handleMouseMove, dragTo,
      surfaceMoves, handleTimeUpdate, tick, checkPlaybackBounds,
      onEnded, handleLoadedMetadata, togglePlay, playResolved, playRejected,
      onChangeStart, onChangeEnd, handleCreateClip, seekAndStore, pause, seek, play;
    simpl; split_matches; simpl; split; congruence.
Qed.

Lemma step_keeps_session (s : State) (e : Event) :
  e <> MouseUp -> sessionOpen s -> sessionOpen (step s e).
Proof.
  intros Hne Hs. destruct (handler_keeps_session s e Hne Hs) as [Hr Ht].
  now apply commit_session.
Qed.

Lemma run_keeps_session (es : list Event) (s : State) :
  ~ In MouseUp es -> sessionOpen s -> sessionOpen (run s es).
Proof.
  revert s. induction es as [|e es IH]; intros s Hno Hs; [exact Hs|].
  change (run s (e :: es)) with (run (step s e) es).
  apply IH.
  - intros Hin. apply Hno. now right.
  - apply step_keeps_session; [|exact Hs].
    intros ->. apply Hno. now left.
Qed.

(** With the flag set, a position event of the surface changes nothing. *)
Lemma timeUpdate_ignored (s : State) :
  isDraggingRef s = true -> step s TimeUpdate = s.
Proof.
  intros Hr.
  assert (E : handler TimeUpdate s = s).
  { unfold handler, handleTimeUpdate. rewrite Hr. now destruct (videoRef s). }
  unfold step. rewrite E. now apply commit_same_deps.
Qed.

Lemma startDrag_pauses (s : State) (v : VideoElement) (ty : DragType) :
  videoRef s = Some v -> isPlaying s = true -> dragType s = None ->
  handleRendered ty s = true ->
  step s (MouseDownHandle ty)
    = s |> pause |> setIsPlaying false |> setDragType (Some ty)
        |> set_isDraggingRef true.
Proof.
  intros Hv Hp Ht Hh. unfold step, handler, handleStartDrag.
  rewrite Hh, Hp, Hv. unfold commit, dragDepsSame.
  unfold pause. rewrite Hv. simpl. rewrite Ht. now destruct ty.
Qed.

(** C9. A drag started while [isPlaying] holds pauses the surface in the
    turn of the pointer press, before any pointer move is handled: no move
    is handled before the press, and every call made on the surface during
    the session comes after the pause. While a session is open, whatever
    happens short of the pointer release, a position event of the surface
    leaves the whole state, the stored position included, as it was. *)
Theorem C9_drag_priority :
  (forall (s : State) (v : VideoElement) (ty : DragType) (es : list Event),
     videoRef s = Some v -> isPlaying s = true -> dragType s = None ->
     handleRendered ty s = true ->
     let s1 := step s (MouseDownHandle ty) in
     (forall x, step s (MouseMove x) = s)
     /\ isPlaying s1 = false
     /\ videoRef s1 = Some {| el_currentTime := el_currentTime v;
                             el_paused := true;
                             el_duration := el_duration v |}
     /\ sessionOpen s1
     /\ exists later,
          surfaceCalls (run s1 es) = surfaceCalls s ++ CallPause :: later)
  /\ (forall (s : State) (es : list Event),
        sessionOpen s -> ~ In MouseUp es ->
        sessionOpen (run s es)
        /\ step (run s es) TimeUpdate = run s es
        /\ currentTime (step (run s es) TimeUpdate) = currentTime (run s es)
        /\ currentTimeRef (step (run s es) TimeUpdate) = currentTimeRef (run s es)).
Proof.
  split.
  - intros s v ty es Hv Hp Ht Hh s1.
    assert (E : s1 = s |> pause |> setIsPlaying false |> setDragType (Some ty)
                       |> set_isDraggingRef true)
      by now apply (startDrag_pauses s v ty).
    split; [|split; [|split; [|split]]].
    + intros x. unfold step, handler, handleMouseMove. rewrite Ht.
      now apply commit_same_deps.
    + rewrite E. reflexivity.
    + rewrite E. unfold pause. rewrite Hv. reflexivity.
    + rewrite E. split; simpl; congruence.
    + destruct (run_calls_grow es s1) as [later Hl].
      exists later. rewrite Hl, E. unfold pause. rewrite Hv. simpl.
      now rewrite <- app_assoc.
  - intros s es Hs Hno.
    pose proof (run_keeps_session es s Hno Hs) as Hopen.
    pose proof (timeUpdate_ignored (run s es) (proj1 Hopen)) as Hsame.
    repeat split; try apply Hopen; now rewrite Hsame.
Qed.

(** Without a session the same position event is stored. *)
Example timeUpdate_stored_when_idle :
  same (currentTime (run playingAtTen [SurfacePosition (lit 31 1); TimeUpdate]))
       (lit 31 1).
Proof. vm_compute. reflexivity. Qed.

Lemma C9_drag_priority_witness :
  isPlaying playingAtTen = true
  /\ isPlaying (step playingAtTen (MouseDownHandle DragStart)) = false
  /\ sessionOpen (run (step playingAtTen (MouseDownHandle DragStart))
                    [MouseMove (of_Z 300); SurfacePosition (lit 31 1)])
  /\ currentTime
       (step (run (step playingAtTen (MouseDownHandle DragStart))
                [MouseMove (of_Z 300); SurfacePosition (lit 31 1)]) TimeUpdate)
     = currentTime
         (run (step playingAtTen (MouseDownHandle DragStart))
            [MouseMove (of_Z 300); SurfacePosition (lit 31 1)]).
Proof.
  destruct (proj1 C9_drag_priority playingAtTen
              {| el_currentTime := lit 10 1; el_paused := false;
                 el_duration := lit 1205 10 |}
              DragStart [] eq_refl eq_refl eq_refl eq_refl)
    as (_ & Hidle & _ & Hopen & _).
  destruct (proj2 C9_drag_priority
              (step playingAtTen (MouseDownHandle DragStart))
              [MouseMove (of_Z 300); SurfacePosition (lit 31 1)] Hopen)
    as (Hopen' & _ & Hcur & _).
  { intros [H|[H|[]]]; discriminate H. }
  exact (conj eq_refl (conj Hidle (conj Hopen' Hcur))).
Defined.

End DragPriorityFacts.

(** ** The range invariant *)

Section RangeFacts.

Import JS TimeCodec Player.
Local Open Scope Q_scope.

(** The drag path keeps the invariant, whatever finite time it is given. *)
Lemma dragTo_keeps_range (s : State) (ty : DragType) (t : Q) :
  rangeInvariant s -> rangeInvariant (dragTo ty (Num t) s).
Proof.
  unfold rangeInvariant.
  destruct (startPoint s) as [|a] eqn:Ha; [tauto|].
  destruct (endPoint s) as [|b] eqn:Hb; [tauto|].
  destruct (duration s) as [|d] eqn:Hd; [tauto|].
  intros (H0 & H1 & H2).
  assert (Hlo : 0 <= b - (1 # 10)) by lra.
  destruct ty.
  - destruct (proj1 (dragTo_clamps s t a b d Ha Hb Hd) Hlo) as [Es Ee].
    rewrite Es, Ee.
    assert (Ed : duration (dragTo DragStart (Num t) s) = Num d).
    { unfold dragTo, seek. now destruct (videoRef _). }
    rewrite Ed. destruct (clampTo_bounds 0 (b - (1 # 10)) t Hlo).
    repeat split; lra.
  - unfold dragTo. simpl. rewrite Ha, Hd. simpl.
    destruct (Qminb_cases t d) as [[Hm ->]|[Hm ->]];
      [destruct (Qmaxb_cases (a + (1 # 10)) t) as [[Hx ->]|[Hx ->]]
      |destruct (Qmaxb_cases (a + (1 # 10)) d) as [[Hx ->]|[Hx ->]]];
      repeat split; lra.
  - assert (E : startPoint (dragTo DragScrubber (Num t) s) = Num a
                /\ endPoint (dragTo DragScrubber (Num t) s) = Num b
                /\ duration (dragTo DragScrubber (Num t) s) = Num d).
    { unfold dragTo, seek. now destruct (videoRef _). }
    destruct E as (-> & -> & ->). repeat split; lra.
Qed.

(** A pointer over a track of positive width yields a finite time. *)
Lemma pointerTime_finite (l w x d : Q) :
  0 < w ->
  exists t, pointerTime {| rect_left := Num l; rect_width := Num w |} (Num x) (Num d)
            = Num t.
Proof.
  intros Hw. unfold pointerTime. simpl.
  assert (E : Qeq_bool w 0 = false).
  { destruct (Qeq_bool w 0) eqn:E; [|reflexivity].
    apply Qeq_bool_iff in E. lra. }
  rewrite E. eexists. reflexivity.
Qed.

Lemma mouseMove_keeps_range (s : State) (l w x : Q) :
  scrubberRef s = Some {| rect_left := Num l; rect_width := Num w |} ->
  0 < w -> rangeInvariant s -> rangeInvariant (handleMouseMove (Num x) s).
Proof.
  intros Hr Hw Hinv. unfold handleMouseMove. rewrite Hr.
  destruct (dragType s) as [ty|]; [|exact Hinv].
  destruct (videoRef s); [|exact Hinv].
  assert (Hd : exists d, duration s = Num d).
  { unfold rangeInvariant in Hinv.
    destruct (startPoint s), (endPoint s), (duration s); try tauto. eauto. }
  destruct Hd as [d Hd]. rewrite Hd.
  destruct (pointerTime_finite l w x d Hw) as [t ->].
  now apply dragTo_keeps_range.
Qed.

Lemma commit_range (prev s : State) :
  rangeInvariant (commit prev s) <-> rangeInvariant s.
Proof.
  unfold commit, dragEffectBody.
  destruct (dragDepsSame prev s); [reflexivity|]. now destruct (dragType s).
Qed.

Lemma commit_scrubberRef (prev s : State) :
  scrubberRef (commit prev s) = scrubberRef s.
Proof.
  unfold commit, dragEffectBody.
  destruct (dragDepsSame prev s); [reflexivity|]. now destruct (dragType s).
Qed.

(** No handler touches the timeline track. *)
Lemma handler_scrubberRef (s : State) (e : Event) :
  scrubberRef (handler e s) = scrubberRef s.
Proof.
  destruct e; unfold handler, handleStartDrag, handleMouseMove, dragTo,
    handleMouseUp, surfaceMoves, handleTimeUpdate, tick, checkPlaybackBounds,
    onEnded, handleLoadedMetadata, togglePlay, playResolved, playRejected,
    onChangeStart, onChangeEnd, handleCreateClip, seekAndStore, pause, seek, play;
    simpl;
    repeat match goal with
           | |- context [match ?x with _ => _ end] => destruct x eqn:?
           end;
    simpl; congruence.
Qed.

Lemma dragEvent_keeps_range (s : State) (e : Event) (l w : Q) :
  dragEvent e ->
  scrubberRef s = Some {| rect_left := Num l; rect_width := Num w |} ->
  0 < w -> rangeInvariant s ->
  scrubberRef (step s e) = Some {| rect_left := Num l; rect_width := Num w |}
  /\ rangeInvariant (step s e).
Proof.
  intros He Hr Hw Hinv. unfold step.
  rewrite commit_scrubberRef, commit_range, handler_scrubberRef.
  split; [exact Hr|].
  destruct e as [ty|[|x]| | | | | | | | | | | | |]; try contradiction; simpl.
  - unfold handleStartDrag, pause.
    destruct (handleRendered ty s), (isPlaying s), (videoRef s); assumption.
  - now apply (mouseMove_keeps_range s l w x).
  - unfold handleMouseUp. destruct (dragType s); assumption.
Qed.

(** In exact rationals, every sequence of drags keeps the invariant after
    every event. *)
Lemma drags_keep_range (es : list Event) (s : State) (l w : Q) :
  Forall dragEvent es ->
  scrubberRef s = Some {| rect_left := Num l; rect_width := Num w |} ->
  0 < w -> rangeInvariant s -> rangeInvariant (run s es).
Proof.
  revert s. induction es as [|e es IH]; intros s Hall Hr Hw Hinv; [exact Hinv|].
  change (run s (e :: es)) with (run (step s e) es).
  apply Forall_cons in Hall as [He Hes].
  destruct (dragEvent_keeps_range s e l w He Hr Hw Hinv) as [Hr' Hinv'].
  now apply IH.
Qed.

(** C3, on the code: the text fields do not keep the invariant. On the
    120.5 s asset with the full range selected, typing [9:00.500] in the End
    field stores 540.5, past the duration, and typing [-1:00.000] in the
    Start field stores -60, below zero. *)
Theorem C3_text_fields_break_range :
  rangeInvariant intro
  /\ same (endPoint (step intro (ChangeEnd "9:00.500"))) (lit 5405 10)
  /\ ~ rangeInvariant (step intro (ChangeEnd "9:00.500"))
  /\ same (startPoint (step intro (ChangeStart "-1:00.000"))) (of_Z (-60))
  /\ ~ rangeInvariant (step intro (ChangeStart "-1:00.000")).
Proof.
  split; [|split; [|split; [|split]]].
  - vm_compute. repeat split; discriminate.
  - vm_compute. reflexivity.
  - vm_compute. intros (_ & _ & H). apply H. reflexivity.
  - vm_compute. reflexivity.
  - vm_compute. intros (H & _). apply H. reflexivity.
Qed.

End RangeFacts.

(** ** Digit strings *)

Section DigitFacts.

Import JS JSString DigitStrings.
Local Open Scope string_scope.

Lemma string_of_uint_digits (d : Decimal.uint) :
  all_digits (NilEmpty.string_of_uint d) = true.
Proof. induction d; simpl; auto. Qed.

Lemma read_string_of_uint (d : Decimal.uint) (rest : string) (acc : Z) :
  read_digits 10 (NilEmpty.string_of_uint d ++ rest) (Some acc)
  = read_digits 10 rest (Some (uint_value d acc)).
Proof.
  revert acc. induction d; intros acc; simpl; try apply IHd.
  now destruct rest.
Qed.

Lemma uint_value_pos (d : Decimal.uint) (p : positive) :
  uint_value d (Z.pos p) = Z.pos (Pos.of_uint_acc d p).
Proof.
  revert p. induction d; intros p; simpl; try reflexivity;
    rewrite <- IHd; f_equal; lia.
Qed.

Lemma uint_value_zero (d : Decimal.uint) :
  uint_value d 0 = Z.of_N (Pos.of_uint d).
Proof.
  induction d; simpl; try reflexivity; try exact IHd;
    match goal with
    | |- uint_value _ ?k = _ => change k with (Z.pos (Z.to_pos k))
    end; now rewrite uint_value_pos.
Qed.

(** [toString] of a natural number is a non-empty digit string that reads
    back as the number. *)
Lemma toString_nonneg (n : Z) (rest : string) :
  0 <= n ->
  all_digits (toString n) = true
  /\ toString n <> ""
  /\ read_digits 10 (toString n ++ rest) (Some 0) = read_digits 10 rest (Some n).
Proof.
  intros Hn. destruct n as [|p|p]; [| |lia].
  - repeat split. discriminate.
  - unfold toString. simpl.
    pose proof (Unsigned.to_uint_nonnil p) as Hnil.
    pose proof (Unsigned.of_to p) as Hval.
    unfold NilZero.string_of_uint.
    destruct (Pos.to_uint p) eqn:E; try contradiction;
      rewrite <- E in *;
      (split; [apply string_of_uint_digits|]);
      (split; [rewrite E; discriminate|]);
      rewrite read_string_of_uint, uint_value_zero, Hval; reflexivity.
Qed.

Lemma read_digits_some (radix : Z) (s : string) (acc : Z) :
  exists v, read_digits radix s (Some acc) = Some v.
Proof.
  revert acc. induction s as [|b s IH]; intros acc; simpl; [eauto|].
  destruct (digit_value radix b); [apply IH|eauto].
Qed.

Lemma digit_cases (a : ascii) :
  is_digit a = true ->
  In a ["0"; "1"; "2"; "3"; "4"; "5"; "6"; "7"; "8"; "9"]%char.
Proof.
  destruct a as [[] [] [] [] [] [] [] []]; try discriminate; simpl; tauto.
Qed.

Ltac each_digit H :=
  apply digit_cases in H; simpl in H;
  repeat (destruct H as [<-|H]); [..|contradiction].

(** A digit string has no white space, no sign and no [0x] prefix for
    [parseInt] to consume. *)
Lemma parseInt_digit_head (a : ascii) (r : string) :
  is_digit a = true -> all_digits r = true ->
  parseInt (String a r)
  = match read_digits 10 (String a r) None with
    | Some v => of_Z (1 * v)
    | None => NaN
    end.
Proof.
  intros Ha Hr. each_digit Ha;
    try (cbv -[read_digits of_Z Z.mul]; reflexivity).
  destruct r as [|b r']; [reflexivity|].
  simpl in Hr. apply andb_true_iff in Hr as [Hb _].
  each_digit Hb; cbv -[read_digits of_Z Z.mul]; reflexivity.
Qed.

(** On a non-empty digit string [parseInt] reads the decimal number. *)
Lemma parseInt_digits (s : string) :
  all_digits s = true -> s <> "" ->
  parseInt s = of_Z (decimal_from 0 s).
Proof.
  intros Hd Hne. destruct s as [|a r]; [contradiction|].
  pose proof Hd as Hd'. simpl in Hd'. apply andb_true_iff in Hd' as [Ha Hr].
  rewrite (parseInt_digit_head a r Ha Hr). unfold decimal_from.
  assert (E : read_digits 10 (String a r) None
              = read_digits 10 (String a r) (Some 0)).
  { simpl. unfold is_digit in Ha. now destruct (digit_value 10 a). }
  rewrite E. destruct (read_digits_some 10 (String a r) 0) as [v ->].
  now rewrite Z.mul_1_l.
Qed.

(** *** Splitting *)

Lemma split_lacks (c : ascii) (s : string) :
  lacks c s = true -> split c s = [s].
Proof.
  induction s as [|a r IH]; intros Hl; [reflexivity|].
  simpl in Hl. apply andb_true_iff in Hl as [Ha Hr]. simpl.
  apply negb_true_iff in Ha. rewrite Ha. now rewrite (IH Hr).
Qed.

Lemma split_at (c : ascii) (s1 s2 : string) :
  lacks c s1 = true -> split c (s1 ++ String c s2) = s1 :: split c s2.
Proof.
  induction s1 as [|a r IH]; intros Hl; simpl.
  - now rewrite Ascii.eqb_refl.
  - simpl in Hl. apply andb_true_iff in Hl as [Ha Hr].
    apply negb_true_iff in Ha. rewrite Ha. now rewrite (IH Hr).
Qed.

Lemma digits_lack (c : ascii) (s : string) :
  is_digit c = false -> all_digits s = true -> lacks c s = true.
Proof.
  intros Hc. induction s as [|a r IH]; intros Hd; [reflexivity|].
  simpl in Hd. apply andb_true_iff in Hd as [Ha Hr]. simpl.
  rewrite (IH Hr), andb_true_r. apply negb_true_iff.
  destruct (Ascii.eqb_spec a c) as [->|_]; [congruence|reflexivity].
Qed.

Lemma lacks_app (c : ascii) (s1 s2 : string) :
  lacks c (s1 ++ s2) = lacks c s1 && lacks c s2.
Proof.
  induction s1 as [|a r IH]; simpl; [reflexivity|].
  now rewrite IH, andb_assoc.
Qed.

Lemma append_empty_r (s : string) : s ++ "" = s.
Proof.
  induction s as [|a r IH]; [reflexivity|].
  change (String a (r ++ "") = String a r). now rewrite IH.
Qed.

Lemma decimal_toString (n : Z) : 0 <= n -> decimal_from 0 (toString n) = n.
Proof.
  intros Hn. destruct (toString_nonneg n "" Hn) as (_ & _ & Hr).
  rewrite append_empty_r in Hr. unfold decimal_from. now rewrite Hr.
Qed.

(** *** The padded fields, checked over their whole range *)

Lemma below_check (P : Z -> bool) (n : nat) :
  forallb P (map Z.of_nat (seq 0 n)) = true ->
  forall z, 0 <= z < Z.of_nat n -> P z = true.
Proof.
  intros Hall z Hz. rewrite forallb_forall in Hall. apply Hall.
  apply in_map_iff. exists (Z.to_nat z). split; [lia|].
  apply in_seq. lia.
Qed.

Lemma secondsField_checked (z : Z) :
  0 <= z < 60 -> secondsField_ok z = true.
Proof.
  apply (below_check secondsField_ok 60). vm_compute. reflexivity.
Qed.

Lemma millisField_checked (z : Z) :
  0 <= z < 1000 -> millisField_ok z = true.
Proof.
  apply (below_check millisField_ok 1000). vm_compute. reflexivity.
Qed.

End DigitFacts.

(** ** The fields of a formatted time *)

Section FieldArithmetic.

Import JS TimeCodec.
Local Open Scope Q_scope.

Lemma Qfloor_unique (x : Q) (z : Z) :
  inject_Z z <= x -> x < inject_Z (z + 1) -> Qfloor x = z.
Proof.
  intros Hlo Hhi.
  pose proof (Qfloor_le x) as Hle.
  pose proof (Qlt_floor x) as Hlt.
  assert (H1 : inject_Z (Qfloor x) < inject_Z (z + 1)) by lra.
  assert (H2 : inject_Z z < inject_Z (Qfloor x + 1)) by lra.
  rewrite <- Zlt_Qlt in H1, H2. lia.
Qed.

Lemma Qfloor_sub_Z (x : Q) (n : Z) :
  Qfloor (x - inject_Z n) = (Qfloor x - n)%Z.
Proof.
  apply Qfloor_unique.
  - pose proof (Qfloor_le x) as Hle.
    unfold Z.sub. rewrite inject_Z_plus, inject_Z_opp. lra.
  - pose proof (Qlt_floor x) as Hlt.
    replace (Qfloor x - n + 1)%Z with ((Qfloor x + 1) + - n)%Z by lia.
    rewrite inject_Z_plus, inject_Z_opp. lra.
Qed.

Lemma Qtrunc_nonneg (x : Q) : 0 <= x -> Qtrunc x = Qfloor x.
Proof.
  intros Hx. unfold Qtrunc. apply Qle_bool_iff in Hx. now rewrite Hx.
Qed.

Lemma fields_of_time (q : Q) :
  0 <= q ->
  (0 <= minutesOf q)%Z
  /\ (0 <= secondsOf q < 60)%Z
  /\ (0 <= millisOf q <= 1000)%Z
  /\ Qround_half_up (q * 1000)
     = (60000 * minutesOf q + 1000 * secondsOf q + millisOf q)%Z.
Proof.
  intros Hq. unfold minutesOf, secondsOf, millisOf, Qrem.
  assert (H60 : 0 <= q / 60).
  { apply Qle_shift_div_l; lra. }
  rewrite (Qtrunc_nonneg (q / 60) H60).
  assert (H1 : q / 1 == q) by (field).
  assert (Hq1 : 0 <= q / 1) by lra.
  rewrite (Qtrunc_nonneg (q / 1) Hq1).
  assert (E1 : Qfloor (q / 1) = Qfloor q) by (now rewrite H1).
  rewrite E1.
  set (m := Qfloor (q / 60)).
  set (F := Qfloor q).
  pose proof (Qfloor_le (q / 60)) as Hm1.
  pose proof (Qlt_floor (q / 60)) as Hm2.
  fold m in Hm1, Hm2. rewrite inject_Z_plus in Hm2.
  change (inject_Z 1) with 1 in Hm2.
  assert (Hm1' : 60 * inject_Z m <= q).
  { assert (G : q == 60 * (q / 60)) by (field). lra. }
  assert (Hm2' : q < 60 * inject_Z m + 60).
  { assert (G : q == 60 * (q / 60)) by (field). lra. }
  pose proof (Qfloor_le q) as HF1.
  pose proof (Qlt_floor q) as HF2.
  fold F in HF1, HF2. rewrite inject_Z_plus in HF2.
  change (inject_Z 1) with 1 in HF2.
  assert (Hsec : Qfloor (q - 60 * inject_Z m) = (F - 60 * m)%Z).
  { assert (G : q - 60 * inject_Z m == q - inject_Z (60 * m)).
    { rewrite inject_Z_mult. change (inject_Z 60) with 60. lra. }
    rewrite G. apply Qfloor_sub_Z. }
  assert (Hms : Qround_half_up ((q - 1 * inject_Z F) * 1000)
                = (Qround_half_up (q * 1000) - 1000 * F)%Z).
  { unfold Qround_half_up.
    assert (G : (q - 1 * inject_Z F) * 1000 + (1 # 2)
                == (q * 1000 + (1 # 2)) - inject_Z (1000 * F)).
    { rewrite inject_Z_mult. change (inject_Z 1000) with 1000. lra. }
    rewrite G. apply Qfloor_sub_Z. }
  rewrite Hsec, Hms.
  assert (Hm0 : (0 <= m)%Z).
  { apply Qfloor_resp_le in H60. exact H60. }
  assert (HFm : (60 * m <= F < 60 * m + 60)%Z).
  { split.
    - assert (G : inject_Z (60 * m) <= q).
      { rewrite inject_Z_mult. change (inject_Z 60) with 60. lra. }
      apply Qfloor_resp_le in G. rewrite Qfloor_Z in G. exact G.
    - assert (G : inject_Z F < inject_Z (60 * m + 60)).
      { rewrite inject_Z_plus, inject_Z_mult. change (inject_Z 60) with 60. lra. }
      rewrite <- Zlt_Qlt in G. exact G. }
  destruct (Qround_half_up_bounds (q * 1000)) as [Hr1 Hr2].
  assert (HR : (1000 * F <= Qround_half_up (q * 1000) <= 1000 * F + 1000)%Z).
  { split.
    - assert (G : inject_Z (1000 * F) < inject_Z (Qround_half_up (q * 1000) + 1)).
      { rewrite inject_Z_plus, inject_Z_mult. change (inject_Z 1000) with 1000.
        change (inject_Z 1) with 1. lra. }
      rewrite <- Zlt_Qlt in G. lia.
    - assert (G : inject_Z (Qround_half_up (q * 1000)) < inject_Z (1000 * F + 1000 + 1)).
      { rewrite !inject_Z_plus, inject_Z_mult. change (inject_Z 1000) with 1000.
        change (inject_Z 1) with 1. lra. }
      rewrite <- Zlt_Qlt in G. lia. }
  repeat split; lia.
Qed.

End FieldArithmetic.

(** ** Round trip of the time codec *)

Section RoundTrip.

Import JS JSString TimeCodec DigitStrings.
Local Open Scope Q_scope.

Lemma or_zero_of_Z (z : Z) : or_zero (of_Z z) = of_Z z.
Proof.
  unfold or_zero, truthy, of_Z.
  destruct (Qeq_bool (inject_Z z) 0) eqn:E; [|reflexivity].
  apply Qeq_bool_iff in E. simpl.
  assert (Hz : z = 0%Z).
  { unfold Qeq in E. simpl in E. lia. }
  now rewrite Hz.
Qed.

(** The time denoted by the three fields rounds to itself. *)
Lemma round3_of_fields (m sec ms : Z) :
  round3 (inject_Z m * inject_Z 60 + inject_Z sec + inject_Z ms / inject_Z 1000)
  = inject_Z (60000 * m + 1000 * sec + ms) / 1000.
Proof.
  unfold round3. f_equal. f_equal.
  assert (G : (inject_Z m * inject_Z 60 + inject_Z sec + inject_Z ms / inject_Z 1000) * 1000
              == inject_Z (60000 * m + 1000 * sec + ms)).
  { rewrite !inject_Z_plus, !inject_Z_mult.
    change (inject_Z 60) with 60. change (inject_Z 1000) with 1000.
    change (inject_Z 60000) with 60000. field. }
  unfold Qround_half_up. rewrite G. apply Qround_half_up_Z.
Qed.

Lemma formatTime_fields (q : Q) :
  formatTime (Num q)
  = (toString (minutesOf q) ++ String ":" (padStart0 2 (toString (secondsOf q))
       ++ String "." (padStart0 3 (toString (millisOf q)))))%string.
Proof. reflexivity. Qed.

(** In exact rationals and away from the carry, parsing a formatted time
    gives its millisecond rounding: for every [q >= 0] whose fraction is
    below 0.9995. *)
Theorem roundtrip_without_carry (q : Q) :
  0 <= q -> Qrem q 1 < 9995 # 10000 ->
  parseTimeString (formatTime (Num q)) = Num (round3 q).
Proof.
  intros Hq Hfrac.
  destruct (fields_of_time q Hq) as (Hm & Hsec & Hms & Hround).
  assert (Hms' : (millisOf q < 1000)%Z).
  { unfold millisOf, Qround_half_up.
    pose proof (Qfloor_le (Qrem q 1 * 1000 + (1 # 2))) as Hle.
    assert (G : inject_Z (Qfloor (Qrem q 1 * 1000 + (1 # 2))) < inject_Z 1000).
    { change (inject_Z 1000) with 1000. lra. }
    now rewrite <- Zlt_Qlt in G. }
  rewrite formatTime_fields.
  set (A := toString (minutesOf q)).
  set (B := padStart0 2 (toString (secondsOf q))).
  set (C := padStart0 3 (toString (millisOf q))).
  destruct (toString_nonneg (minutesOf q) "" Hm) as (HA1 & HA2 & _).
  pose proof (decimal_toString (minutesOf q) Hm) as HA3.
  fold A in HA1, HA2, HA3.
  pose proof (secondsField_checked (secondsOf q) Hsec) as HB.
  unfold secondsField_ok in HB. fold B in HB. cbv zeta in HB.
  apply andb_true_iff in HB as [HB HB3].
  apply andb_true_iff in HB as [HB1 HB2].
  apply Z.eqb_eq in HB3. apply negb_true_iff, String.eqb_neq in HB2.
  pose proof (millisField_checked (millisOf q) (conj (proj1 Hms) Hms')) as HC.
  unfold millisField_ok in HC. fold C in HC. cbv zeta in HC.
  apply andb_true_iff in HC as [HC HC4].
  apply andb_true_iff in HC as [HC HC3].
  apply andb_true_iff in HC as [HC1 HC2].
  apply Z.eqb_eq in HC3. apply negb_true_iff, String.eqb_neq in HC2.
  apply String.eqb_eq in HC4.
  assert (S1 : split ":" (A ++ String ":" (B ++ String "." C))
               = [A; (B ++ String "." C)%string]).
  { rewrite split_at by (now apply digits_lack).
    rewrite split_lacks; [reflexivity|].
    rewrite lacks_app. simpl.
    rewrite (digits_lack ":" B), (digits_lack ":" C) by (reflexivity || assumption).
    reflexivity. }
  assert (S2 : split "." (B ++ String "." C) = [B; C]).
  { rewrite split_at by (now apply digits_lack).
    now rewrite split_lacks by (now apply digits_lack). }
  unfold parseTimeString. rewrite S1, S2. cbv iota beta.
  change (nth 0 [B; C] ""%string) with B.
  change (nth_error [B; C] 1) with (Some C).
  rewrite (parseInt_digits A HA1 HA2), (parseInt_digits B HB1 HB2), HA3, HB3.
  destruct C as [|c0 C'] eqn:EC; [contradiction|]. rewrite <- EC in *.
  rewrite HC4, (parseInt_digits C HC1 HC2), HC3.
  rewrite !or_zero_of_Z.
  change (roundToPrecision
            (Num (inject_Z (minutesOf q) * inject_Z 60 + inject_Z (secondsOf q)
                  + inject_Z (millisOf q) / inject_Z 1000)) 3
          = Num (round3 q)).
  rewrite roundToPrecision_Num, round3_of_fields. unfold round3.
  now rewrite Hround.
Qed.

End RoundTrip.

(** ** TimeCodec *)

Section TimeCodecFacts.

Import JS JSString TimeCodec.

(** C4, on the code: at [t = 0.9996] the milliseconds round up to 1000 and
    are printed as four digits, of which the parser keeps three. *)
Theorem C4_roundtrip_fails_on_carry :
  formatTime (lit 9996 10000) = "0:00.1000"%string
  /\ same (parseTimeString (formatTime (lit 9996 10000))) (lit 1 10)
  /\ same (roundToPrecision (lit 9996 10000) 3) (of_Z 1)
  /\ ~ same (parseTimeString (formatTime (lit 9996 10000)))
            (roundToPrecision (lit 9996 10000) 3).
Proof.
  split; [|split; [|split]].
  - vm_compute. reflexivity.
  - vm_compute. reflexivity.
  - vm_compute. reflexivity.
  - vm_compute. discriminate.
Qed.

(** A string that does not split on [:] into exactly two parts parses to 0. *)
Lemma parseTimeString_not_two_parts (timeStr : string) :
  length (split ":" timeStr) <> 2%nat -> parseTimeString timeStr = of_Z 0.
Proof.
  intros Hlen. unfold parseTimeString.
  destruct (split ":" timeStr) as [|p0 [|p1 [|p2 rest]]]; try reflexivity.
  now elim Hlen.
Qed.

(** C10, on the code: a millisecond field that is present and not numeric
    makes the result [NaN], while such a minute or second field counts
    as 0. *)
Theorem C10_nonnumeric_millis_gives_NaN :
  parseTimeString "1:02.abc" = NaN
  /\ same (parseTimeString "ab:02.500") (lit 25 10)
  /\ same (parseTimeString "1:cd.500") (lit 605 10)
  /\ same (parseTimeString "1:02") (of_Z 62).
Proof.
  split; [|split; [|split]]; vm_compute; reflexivity.
Qed.

End TimeCodecFacts.

(** ** JobPoller *)

Section JobPollerFacts.

Import VideoLibrary.

Lemma not_elem_of_removed (x : string) (X : gset string) : x ∉ X ∖ {[x]}.
Proof.
  intros [_ Hn]%elem_of_difference. apply Hn. now apply elem_of_singleton.
Qed.

Lemma retry_scheduled (p : Poll) (s : State) (task : PollingTask) :
  pollingTasksRef s !! taskId p = Some task ->
  default 0 (retryCount task) < 3 ->
  checkStatusResume p RequestFailed s =
    s |> set_timers (<[nextTimer s := (now s + POLL_INTERVAL * 2, p)]> (timers s))
      |> set_nextTimer (nextTimer s + 1)
      |> set_pollingTasksRef
           (<[taskId p := {| timeoutId := nextTimer s; aborted := aborted task;
                             retryCount := Some (default 0 (retryCount task) + 1) |}]>
              (pollingTasksRef s)).
Proof.
  intros Hin Hlt. unfold checkStatusResume, retryCountOf. rewrite Hin.
  apply Z.ltb_lt in Hlt. rewrite Hlt. reflexivity.
Qed.

Lemma retries_exhausted (p : Poll) (s : State) (task : PollingTask) :
  pollingTasksRef s !! taskId p = Some task ->
  3 <= default 0 (retryCount task) ->
  checkStatusResume p RequestFailed s = s |> alert StatusQueryFailed |> cleanup p.
Proof.
  intros Hin Hge. unfold checkStatusResume, retryCountOf. rewrite Hin.
  apply Z.ltb_ge in Hge. now rewrite Hge.
Qed.

Lemma next_check_scheduled (p : Poll) (s : State) (task : PollingTask)
    (status : string) (error : option string) :
  pollingTasksRef s !! taskId p = Some task ->
  status <> "completed"%string -> status <> "failed"%string ->
  checkStatusResume p (TaskData status error) s =
    s |> set_timers (<[nextTimer s := (now s + POLL_INTERVAL, p)]> (timers s))
      |> set_nextTimer (nextTimer s + 1)
      |> set_pollingTasksRef
           (<[taskId p := {| timeoutId := nextTimer s; aborted := aborted task;
                             retryCount := retryCount task |}]>
              (pollingTasksRef s)).
Proof.
  intros Hin Hc Hf. unfold checkStatusResume.
  apply String.eqb_neq in Hc, Hf. rewrite Hc, Hf. simpl. now rewrite Hin.
Qed.

(** Teardown: the pending timer of the entry is cancelled, the entry leaves
    the registry and, on a mounted component, the marker of the asset is
    cleared. *)
Lemma cleanup_tears_down (p : Poll) (s : State) (task : PollingTask) :
  pollingTasksRef s !! taskId p = Some task ->
  pollingTasksRef (cleanup p s) !! taskId p = None
  /\ (timeoutId task <> 0 -> timers (cleanup p s) !! timeoutId task = None)
  /\ (mounted s = true -> videoId p ∉ optimizingVideos (cleanup p s))
  /\ alerts (cleanup p s) = alerts s.
Proof.
  intros Hin. unfold cleanup. rewrite Hin.
  destruct (timeoutId task =? 0) eqn:E.
  - split; [|split; [|split]].
    + unfold setOptimizingVideos. destruct (mounted _); simpl; apply lookup_delete_eq.
    + intros Hne. apply Z.eqb_eq in E. contradiction.
    + intros Hm. unfold setOptimizingVideos. simpl. rewrite Hm. simpl.
      apply not_elem_of_removed.
    + unfold setOptimizingVideos. now destruct (mounted _).
  - split; [|split; [|split]].
    + unfold setOptimizingVideos. destruct (mounted _); simpl; apply lookup_delete_eq.
    + intros _. unfold setOptimizingVideos. destruct (mounted _); simpl; apply lookup_delete_eq.
    + intros Hm. unfold setOptimizingVideos. simpl. rewrite Hm. simpl.
      apply not_elem_of_removed.
    + unfold setOptimizingVideos. now destruct (mounted _).
Qed.

(** C1, as stated, fails: after three failed requests in a row and then an
    answer with a non-terminal status, the job is still polling but its
    retry counter is 3, not 0. *)
Lemma C1_retry_counter_not_reset :
  polling threeFailuresThenSuccess "t1"
  /\ retryCounter threeFailures "t1" = 3
  /\ retryCounter threeFailuresThenSuccess "t1" = 3
  /\ retryCounter threeFailuresThenSuccess "t1" <> 0.
Proof.
  split; [|split; [|split]].
  - eexists. split; [vm_compute; reflexivity|reflexivity].
  - vm_compute. reflexivity.
  - vm_compute. reflexivity.
  - vm_compute. discriminate.
Qed.

(** C1, amended. For a job in the registry, with [count] the retry counter
    read by the handler: a failed request with [count < 3] stores
    [count + 1], schedules the next check after twice the 3 s interval and
    changes neither the notices nor the optimizing markers; a failed request
    with [count >= 3] shows the generic notice and tears the job down; an
    answer with a non-terminal status schedules the next check after 3 s and
    leaves the job in the registry with its retry counter as it was. Three
    failures in a row followed by such an answer leave the job polling with
    retry counter 3. *)
Theorem C1_retry_policy :
  (forall (p : Poll) (s : State) (task : PollingTask),
     pollingTasksRef s !! taskId p = Some task ->
     (default 0 (retryCount task) < 3 ->
      let s' := checkStatusResume p RequestFailed s in
      pollingTasksRef s' !! taskId p
        = Some {| timeoutId := nextTimer s; aborted := aborted task;
                  retryCount := Some (default 0 (retryCount task) + 1) |}
      /\ timers s' = <[nextTimer s := (now s + 2 * 3000, p)]> (timers s)
      /\ alerts s' = alerts s
      /\ optimizingVideos s' = optimizingVideos s)
     /\ (3 <= default 0 (retryCount task) ->
         let s' := checkStatusResume p RequestFailed s in
         alerts s' = alerts s ++ [StatusQueryFailed]
         /\ pollingTasksRef s' !! taskId p = None
         /\ (timeoutId task <> 0 -> timers s' !! timeoutId task = None)
         /\ (mounted s = true -> videoId p ∉ optimizingVideos s'))
     /\ (forall (status : string) (error : option string),
           status <> "completed"%string -> status <> "failed"%string ->
           let s' := checkStatusResume p (TaskData status error) s in
           pollingTasksRef s' !! taskId p
             = Some {| timeoutId := nextTimer s; aborted := aborted task;
                       retryCount := retryCount task |}
           /\ timers s' = <[nextTimer s := (now s + 3000, p)]> (timers s)
           /\ alerts s' = alerts s
           /\ optimizingVideos s' = optimizingVideos s))
  /\ polling threeFailuresThenSuccess "t1"
  /\ retryCounter threeFailuresThenSuccess "t1" = 3.
Proof.
  split; [|split].
  - intros p s task Hin. split; [|split].
    + intros Hlt s'. subst s'. rewrite (retry_scheduled p s task Hin Hlt).
      simpl. rewrite lookup_insert_eq. repeat split.
    + intros Hge s'. subst s'. rewrite (retries_exhausted p s task Hin Hge).
      destruct (cleanup_tears_down p (alert StatusQueryFailed s) task Hin)
        as (Hreg & Htimer & Hmark & Halerts).
      repeat split; assumption.
    + intros status error Hc Hf s'. subst s'.
      rewrite (next_check_scheduled p s task status error Hin Hc Hf).
      simpl. rewrite lookup_insert_eq. repeat split.
  - eexists. split; [vm_compute; reflexivity|reflexivity].
  - vm_compute. reflexivity.
Qed.

Lemma C1_retry_policy_witness :
  retryCounter (checkStatusResume pollA RequestFailed jobStarted) "t1" = 1
  /\ alerts (checkStatusResume pollA RequestFailed jobStarted) = [OptimizeStarted]
  /\ alerts (checkStatusResume pollA RequestFailed threeFailures)
       = [OptimizeStarted; StatusQueryFailed]
  /\ pollingTasksRef (checkStatusResume pollA RequestFailed threeFailures) !! "t1"
       = None
  /\ pollingTasksRef
       (checkStatusResume pollA (TaskData "processing" None) threeFailures) !! "t1"
       = Some {| timeoutId := 4; aborted := false; retryCount := Some 3 |}.
Proof.
  destruct (proj1 C1_retry_policy pollA jobStarted
              {| timeoutId := 0; aborted := false; retryCount := None |} eq_refl)
    as (Hretry & _ & _).
  destruct (proj1 C1_retry_policy pollA threeFailures
              {| timeoutId := 3; aborted := false; retryCount := Some 3 |} eq_refl)
    as (_ & Hfail & Hnext).
  destruct (Hretry ltac:(simpl; lia)) as (Hreg1 & _ & Halerts1 & _).
  destruct (Hfail ltac:(simpl; lia)) as (Halerts2 & Hreg2 & _).
  destruct (Hnext "processing"%string None ltac:(discriminate) ltac:(discriminate))
    as (Hreg3 & _).
  split; [|split; [|split; [|split]]].
  - exact (f_equal retryCountOf Hreg1).
  - exact Halerts1.
  - exact Halerts2.
  - exact Hreg2.
  - exact Hreg3.
Defined.

End JobPollerFacts.

(** ** Forced abort *)

Section AbortFacts.

Import VideoLibrary.

Lemma clearOne_registry (l : list (string * PollingTask)) (s : State) :
  pollingTasksRef (fold_right clearOne s l) = pollingTasksRef s.
Proof.
  induction l as [|kv l IH]; [reflexivity|]. simpl. unfold clearOne at 1.
  now destruct (timeoutId (snd kv) =? 0).
Qed.

Lemma clearOne_keeps_cleared (kv : string * PollingTask) (s : State) (id : Z) :
  timers s !! id = None -> timers (clearOne kv s) !! id = None.
Proof.
  intros Hnone. unfold clearOne. destruct (timeoutId (snd kv) =? 0); [exact Hnone|].
  simpl. rewrite lookup_delete. now destruct (decide _).
Qed.

Lemma clearOne_clears (l : list (string * PollingTask)) (s : State)
    (k : string) (task : PollingTask) :
  (k, task) ∈ l -> timeoutId task <> 0 ->
  timers (fold_right clearOne s l) !! timeoutId task = None.
Proof.
  intros Hin Hne. induction l as [|kv l IH]; [now apply elem_of_nil in Hin|].
  simpl. apply elem_of_cons in Hin as [<-|Hin].
  - unfold clearOne at 1. simpl. apply Z.eqb_neq in Hne. rewrite Hne.
    simpl. apply lookup_delete_eq.
  - apply clearOne_keeps_cleared. now apply IH.
Qed.

(** The abort flags every entry and cancels the timer of every entry. *)
Lemma abortAll_flags_and_cancels (s : State) (k : string) (task : PollingTask) :
  pollingTasksRef s !! k = Some task ->
  pollingTasksRef (abortAll s) !! k = Some (abortTask task)
  /\ (timeoutId task <> 0 -> timers (abortAll s) !! timeoutId task = None).
Proof.
  intros Hin. unfold abortAll. simpl. split.
  - rewrite lookup_fmap, clearOne_registry, Hin. reflexivity.
  - intros Hne. apply (clearOne_clears _ s k task); [|exact Hne].
    now apply elem_of_map_to_list.
Qed.

Lemma absent_timer_does_not_fire (s : State) (id : Z) :
  timers s !! id = None -> step s (TimerFires id) = s.
Proof. intros Hnone. unfold step. now rewrite Hnone. Qed.

(** A timer cancelled by the unmount never runs its callback. *)
Lemma unmount_cancels_pending (s : State) (k : string) (task : PollingTask) :
  mounted s = true ->
  pollingTasksRef s !! k = Some task -> timeoutId task <> 0 ->
  let s' := step s Unmount in
  pollingTasksRef s' = ∅
  /\ timers s' !! timeoutId task = None
  /\ step s' (TimerFires (timeoutId task)) = s'.
Proof.
  intros Hm Hin Hne s'.
  assert (E : s' = unmount s) by (subst s'; unfold step; now rewrite Hm).
  destruct (abortAll_flags_and_cancels s k task Hin) as [_ Hc].
  assert (Ht : timers s' !! timeoutId task = None).
  { rewrite E. change (timers (unmount s)) with (timers (abortAll s)). now apply Hc. }
  split; [now rewrite E|]. split; [exact Ht|].
  now apply absent_timer_does_not_fire.
Qed.

(** C2, on the code: a status request in flight at the unmount is not
    covered by the abort. With the registry and the timers empty after the
    unmount, a late answer [completed] still shows its notice, and a late
    answer with a non-terminal status schedules a new check, whose callback
    runs 3 s later. *)
Theorem C2_answer_after_abort :
  mounted abortedInFlight = false
  /\ pollingTasksRef abortedInFlight = ∅
  /\ timers abortedInFlight = ∅
  /\ statusRequests abortedInFlight !! 2 = Some pollA
  /\ alerts (step abortedInFlight (StatusAnswer 2 (TaskData "completed" None)))
       = alerts abortedInFlight ++ [OptimizeCompleted]
  /\ timers (step abortedInFlight (StatusAnswer 2 (TaskData "processing" None)))
       !! 1 = Some (3000, pollA)
  /\ step (run abortedInFlight
             [StatusAnswer 2 (TaskData "processing" None); TimePasses 3000])
          (TimerFires 1)
       = checkStatus pollA
           (clearTimeout 1
              (run abortedInFlight
                 [StatusAnswer 2 (TaskData "processing" None); TimePasses 3000])).
Proof.
  split; [|split; [|split; [|split; [|split; [|split]]]]].
  - vm_compute; reflexivity.
  - vm_compute; reflexivity.
  - vm_compute; reflexivity.
  - vm_compute; reflexivity.
  - vm_compute; reflexivity.
  - vm_compute; reflexivity.
  - vm_compute; reflexivity.
Qed.

End AbortFacts.

(** ** LazyResourceLoader *)

Section ThumbnailFacts.

Import VideoLibrary.

(** A confirmed deletion that passes the guards purges the thumbnail, the
    requested marker, the card registration and the cached resource. *)
Lemma handleDelete_purges (video : VideoAsset) (s : State) :
  mounted s = true ->
  ((JSString.includes "/hls/" (pathToDelete video)
    || JSString.endsWith ".m3u8" (pathToDelete video))
   || JSString.endsWith ".ts" (pathToDelete video))%bool = false ->
  asset_id video ∉ optimizingVideos s ->
  let s' := handleDelete video true s in
  thumbnails s' !! asset_id video = None
  /\ (asset_id video ∉ requestedThumbnails s')
  /\ (asset_id video ∉ videoCardRefs s')
  /\ (asset_url video ∉ thumbnailCache s')
  /\ deleted s' = deleted s ++ [video].
Proof.
  intros Hm Hpath Hopt s'. subst s'. unfold handleDelete. rewrite Hpath.
  destruct (decide (asset_id video ∈ optimizingVideos s)); [contradiction|].
  destruct (decide (selectedVideoId s = Some (asset_id video)));
    unfold setThumbnails, setSelectedVideoId; simpl; rewrite Hm; simpl;
    (split; [apply lookup_delete_eq|]);
    (split; [apply not_elem_of_removed|]);
    (split; [apply not_elem_of_removed|]);
    (split; [apply not_elem_of_removed|reflexivity]).
Qed.

(** The lookup of the stale-entry effect cannot find an asset whose id is
    not among the current ones. *)
Lemma findVideo_stale (id : string) (vs : list VideoAsset) :
  id ∉ (list_to_set (asset_id <$> vs) : gset string) -> findVideo id vs = None.
Proof.
  intros Hid. unfold findVideo. induction vs as [|v vs IH]; [reflexivity|].
  simpl. destruct (String.eqb_spec (asset_id v) id) as [E|_].
  - exfalso. apply Hid. rewrite fmap_cons, list_to_set_cons, <- E.
    apply elem_of_union_l. now apply elem_of_singleton.
  - apply IH. intros Hin. apply Hid.
    rewrite fmap_cons, list_to_set_cons. now apply elem_of_union_r.
Qed.

Lemma dropIfStale_keeps (id : string) (s0 s : State) :
  videos s = videos s0 ->
  let s' := dropIfStale (list_to_set (asset_id <$> videos s0)) id s in
  videos s' = videos s0
  /\ thumbnails s' = thumbnails s
  /\ thumbnailCache s' = thumbnailCache s.
Proof.
  intros Hv s'. subst s'. unfold dropIfStale.
  destruct (decide (id ∈ _)) as [|Hid]; [repeat split; assumption|].
  simpl. rewrite Hv, (findVideo_stale id (videos s0) Hid). simpl.
  repeat split. assumption.
Qed.

(** The stale-entry effect never removes a thumbnail nor a cached
    resource. *)
Lemma staleCleanup_keeps_thumbnails (s : State) :
  thumbnails (staleCleanup s) = thumbnails s
  /\ thumbnailCache (staleCleanup s) = thumbnailCache s.
Proof.
  unfold staleCleanup. cbv zeta.
  assert (G : forall l,
             let r := fold_right
                        (dropIfStale (list_to_set (asset_id <$> videos s))) s l in
             videos r = videos s /\ thumbnails r = thumbnails s
             /\ thumbnailCache r = thumbnailCache s).
  { induction l as [|id l IH]; [repeat split|].
    simpl in *. destruct IH as (Hv & Ht & Hc).
    destruct (dropIfStale_keeps id s _ Hv) as (Hv' & Ht' & Hc').
    repeat split; congruence. }
  destruct (G (elements (videoCardRefs s))) as (_ & Ht & Hc). now split.
Qed.

(** C5, on the code. When the parent drops an asset from [videos], the
    stale-entry effect removes the card registration and the requested
    marker but neither the thumbnail of the asset nor its cached resource:
    its lookup of the asset in the new [videos] cannot succeed. When an
    asset is deleted while its thumbnail is loading, the answer of the
    acquisition stores the thumbnail after the purge. *)
Theorem C5_removal_leaves_thumbnail :
  (thumbnails thumbnailShown !! "A" = Some "thumb"%string
   /\ elements (videoCardRefs thumbnailShown) = ["A"%string]
   /\ elements (requestedThumbnails thumbnailShown) = ["A"%string])
  /\ (elements (videoCardRefs (step thumbnailShown (VideosChanged []))) = []
      /\ elements (requestedThumbnails (step thumbnailShown (VideosChanged []))) = []
      /\ thumbnails (step thumbnailShown (VideosChanged [])) !! "A"
           = Some "thumb"%string
      /\ elements (thumbnailCache (step thumbnailShown (VideosChanged [])))
           = ["https://cdn.example/a.mp4"%string])
  /\ (elements (loadingThumbnails deletedWhileLoading) = ["A"%string]
      /\ thumbnails deletedWhileLoading !! "A" = None
      /\ thumbnails (step deletedWhileLoading (ThumbnailAnswer 1 (Some "thumb")))
           !! "A" = Some "thumb"%string).
Proof.
  repeat split; vm_compute; reflexivity.
Qed.

End ThumbnailFacts.

(** * Further properties *)

(** ** TimeCodec *)

Section CodecProperties.

Import JS JSString TimeCodec StringsMore.
Local Open Scope Q_scope.



Lemma split_length (c : ascii) (s : string) :
  length (split c s) = S (count_char c s).
Proof.
  induction s as [|a r IH]; [reflexivity|]. simpl.
  destruct (Ascii.eqb a c); simpl; [now rewrite IH|].
  destruct (split c r) as [|hd tl]; [discriminate IH|exact IH].
Qed.

(** X3. A string whose number of colons is not exactly one parses to 0,
    whatever else it holds. *)
Theorem X3_parseTimeString_colons (timeStr : string) :
  count_char ":" timeStr <> 1%nat -> parseTimeString timeStr = of_Z 0.
Proof.
  intros Hc. apply parseTimeString_not_two_parts.
  rewrite split_length. lia.
Qed.

Lemma X3_parseTimeString_colons_witness :
  parseTimeString "90" = of_Z 0 /\ parseTimeString "1:02:03.500" = of_Z 0.
Proof.
  split.
  - apply (X3_parseTimeString_colons "90"). vm_compute. discriminate.
  - apply (X3_parseTimeString_colons "1:02:03.500"). vm_compute. discriminate.
Defined.

End CodecProperties.

(** ** The player beyond the drag path *)

Section PlayerProperties.

Import JS TimeCodec Player PlayerMore.
Local Open Scope Q_scope.

Lemma Qeq_bool_false (x y : Q) : Qeq_bool x y = false <-> ~ x == y.
Proof.
  split.
  - intros E H. apply Qeq_bool_iff in H. congruence.
  - intros H. destruct (Qeq_bool x y) eqn:E; [|reflexivity].
    apply Qeq_bool_iff in E. contradiction.
Qed.

Lemma commit_bounds (prev s : State) :
  startPoint (commit prev s) = startPoint s
  /\ endPoint (commit prev s) = endPoint s
  /\ duration (commit prev s) = duration s.
Proof.
  unfold commit, dragEffectBody.
  destruct (dragDepsSame prev s); [easy|]. now destruct (dragType s).
Qed.

(** Outside the pointer moves, the text fields and the loading of
    metadata, no handler writes a bound or the duration. *)
Lemma handler_bounds (s : State) (e : Event) :
  match e with
  | MouseMove _ | ChangeStart _ | ChangeEnd _ | LoadedMetadata => False
  | _ => True
  end ->
  startPoint (handler e s) = startPoint s
  /\ endPoint (handler e s) = endPoint s
  /\ duration (handler e s) = duration s.
Proof.
  destruct e; try contradiction; intros _;
    unfold handler, handleStartDrag, handleMouseUp, surfaceMoves,
      handleTimeUpdate, tick, checkPlaybackBounds, onEnded, togglePlay,
      playResolved, playRejected, handleCreateClip, seekAndStore, pause,
      seek, play;
    simpl;
    repeat match goal with
           | |- context [match ?x with _ => _ end] => destruct x eqn:?
           end;
    simpl; auto.
Qed.

Lemma mouseMove_duration (s : State) (x : number) :
  duration (handleMouseMove x s) = duration s.
Proof.
  unfold handleMouseMove, dragTo, seek.
  destruct (dragType s) as [[| |]|]; destruct (scrubberRef s);
    destruct (videoRef s) eqn:Ev; simpl; try rewrite Ev; reflexivity.
Qed.

Lemma step_bounds (s : State) (e : Event) :
  leavesRange e ->
  startPoint (step s e) = startPoint s
  /\ endPoint (step s e) = endPoint s
  /\ duration (step s e) = duration s.
Proof.
  intros He. unfold step.
  destruct (commit_bounds s (handler e s)) as (-> & -> & ->).
  apply handler_bounds. exact He.
Qed.

Lemma mouseMove_start (s : State) (x : number) :
  dragType s <> Some DragStart ->
  startPoint (handleMouseMove x s) = startPoint s.
Proof.
  intros Hd. unfold handleMouseMove, dragTo, seek.
  destruct (dragType s) as [[| |]|]; [contradiction| | |reflexivity];
    destruct (scrubberRef s); destruct (videoRef s) eqn:Ev; simpl;
    try rewrite Ev; reflexivity.
Qed.

Lemma mouseMove_end (s : State) (x : number) :
  dragType s <> Some DragEnd ->
  endPoint (handleMouseMove x s) = endPoint s.
Proof.
  intros Hd. unfold handleMouseMove, dragTo, seek.
  destruct (dragType s) as [[| |]|]; [|contradiction| |reflexivity];
    destruct (scrubberRef s); destruct (videoRef s) eqn:Ev; simpl;
    try rewrite Ev; reflexivity.
Qed.

(** X4. The events that leave the range. Over every sequence of presses of
    a handle or of the playhead, pointer releases, moves of the surface,
    time updates, interval ticks, ended notifications, clicks on the video,
    outcomes of [play()] and clip creations, [startPoint], [endPoint] and
    [duration] stay what they were. A pointer move never writes the
    duration; it writes the start only in a drag of the start handle, and
    the end only in a drag of the end handle. *)
Theorem X4_range_left_by_other_events (es : list Event) (s : State) (x : number) :
  (Forall leavesRange es ->
   startPoint (run s es) = startPoint s
   /\ endPoint (run s es) = endPoint s
   /\ duration (run s es) = duration s)
  /\ duration (step s (MouseMove x)) = duration s
  /\ (dragType s <> Some DragStart ->
      startPoint (step s (MouseMove x)) = startPoint s)
  /\ (dragType s <> Some DragEnd ->
      endPoint (step s (MouseMove x)) = endPoint s).
Proof.
  split; [|split; [|split]].
  - revert s. induction es as [|e es IH]; intros s Hall; [easy|].
    change (run s (e :: es)) with (run (step s e) es).
    apply Forall_cons in Hall as [He Hes].
    destruct (step_bounds s e He) as (E1 & E2 & E3).
    destruct (IH (step s e) Hes) as (F1 & F2 & F3).
    repeat split; congruence.
  - unfold step.
    destruct (commit_bounds s (handler (MouseMove x) s)) as (_ & _ & ->).
    apply mouseMove_duration.
  - intros Hd. unfold step.
    destruct (commit_bounds s (handler (MouseMove x) s)) as (-> & _ & _).
    now apply mouseMove_start.
  - intros Hd. unfold step.
    destruct (commit_bounds s (handler (MouseMove x) s)) as (_ & -> & _).
    now apply mouseMove_end.
Qed.

Lemma X4_range_left_by_other_events_witness :
  (startPoint
     (run (introRange (Num 10) (Num 20))
        [MouseDownHandle DragScrubber; MouseUp; ClickPlay; PlayResolved;
         SurfacePosition (lit 1190 10); TimeUpdate; Tick; Ended;
         ClickCreateClip "c1"])
   = Num 10
   /\ endPoint
        (run (introRange (Num 10) (Num 20))
           [MouseDownHandle DragScrubber; MouseUp; ClickPlay; PlayResolved;
            SurfacePosition (lit 1190 10); TimeUpdate; Tick; Ended;
            ClickCreateClip "c1"])
      = Num 20)
  /\ startPoint
       (step (run (introRange (Num 10) (Num 20)) [MouseDownHandle DragEnd])
             (MouseMove (of_Z 600)))
     = Num 10.
Proof.
  split.
  - destruct (X4_range_left_by_other_events
                [MouseDownHandle DragScrubber; MouseUp; ClickPlay; PlayResolved;
                 SurfacePosition (lit 1190 10); TimeUpdate; Tick; Ended;
                 ClickCreateClip "c1"]
                (introRange (Num 10) (Num 20)) (of_Z 0)) as [H _].
    destruct H as (H1 & H2 & _); [repeat constructor|].
    split; [exact H1|exact H2].
  - destruct (X4_range_left_by_other_events []
                (run (introRange (Num 10) (Num 20)) [MouseDownHandle DragEnd])
                (of_Z 600)) as (_ & _ & H & _).
    rewrite H; [reflexivity|vm_compute; discriminate].
Defined.






Lemma seekAndStore_playhead (s : State) (v : VideoElement) (c : Q) :
  videoRef s = Some v ->
  playheadAt c (s |> seek (Num c) |> set_currentTimeRef (Num c)
                  |> setCurrentTime (Num c)).
Proof.
  intros Hv. unfold playheadAt, seek. rewrite Hv. simpl. auto.
Qed.

Lemma clamp_between (a b t : Q) :
  a <= b -> a <= Qmaxb a (Qminb t b) <= b.
Proof.
  intros Hab. rewrite (max_min_clamp a b t Hab). now apply clampTo_bounds.
Qed.

(** X6. Moving the playhead, by dragging it or by a click on the timeline,
    puts it inside the selected range and leaves the range as it was: state,
    ref and surface all hold the clamp of the requested time. A click during
    a drag, or before a duration is known, changes nothing. *)
Theorem X6_playhead_stays_in_range (s : State) (v : VideoElement) (a b : Q) :
  videoRef s = Some v -> startPoint s = Num a -> endPoint s = Num b ->
  a <= b ->
  (forall t : Q,
      playheadAt (clampTo a b t) (dragTo DragScrubber (Num t) s)
      /\ startPoint (dragTo DragScrubber (Num t) s) = Num a
      /\ endPoint (dragTo DragScrubber (Num t) s) = Num b)
  /\ (forall l w d x : Q,
        scrubberRef s = Some {| rect_left := Num l; rect_width := Num w |} ->
        ~ w == 0 -> duration s = Num d -> ~ d == 0 -> dragType s = None ->
        playheadAt (clampTo a b (round3 ((x - l) / w * d)))
          (handleTimelineClick (Num x) s)
        /\ startPoint (handleTimelineClick (Num x) s) = Num a
        /\ endPoint (handleTimelineClick (Num x) s) = Num b)
  /\ (forall x : number,
        dragType s <> None \/ truthy (duration s) = false ->
        handleTimelineClick x s = s).
Proof.
  intros Hv Ha Hb Hab. split; [|split].
  - intros t. unfold dragTo. rewrite Ha, Hb. simpl max.
    rewrite (max_min_clamp a b t Hab).
    split; [now apply (seekAndStore_playhead s v)|].
    unfold seek. rewrite Hv. simpl. auto.
  - intros l w d x Hr Hw Hd Hd0 Hdt. unfold handleTimelineClick.
    rewrite Hr, Hv, Hd, Hdt. cbn [truthy rect_left rect_width].
    apply Qeq_bool_false in Hd0. rewrite Hd0. cbn [negb].
    assert (Ein : mul (div (sub (Num x) (Num l)) (Num w)) (Num d)
                  = Num ((x - l) / w * d)).
    { simpl. apply Qeq_bool_false in Hw. now rewrite Hw. }
    rewrite Ein, roundToPrecision_Num, Ha, Hb. simpl max.
    rewrite (max_min_clamp a b _ Hab).
    split; [now apply (seekAndStore_playhead s v)|].
    unfold seek. rewrite Hv. simpl. auto.
  - intros x [Hdt|Hd]; unfold handleTimelineClick;
      destruct (scrubberRef s); [|reflexivity| |reflexivity]; rewrite Hv.
    + destruct (negb (truthy (duration s))); [reflexivity|].
      destruct (dragType s); [reflexivity|contradiction].
    + now rewrite Hd.
Qed.

Lemma X6_playhead_stays_in_range_witness :
  (forall t : Q,
      playheadAt (clampTo 10 20 t)
        (dragTo DragScrubber (Num t) (introRange (Num 10) (Num 20)))
      /\ startPoint (dragTo DragScrubber (Num t) (introRange (Num 10) (Num 20)))
         = Num 10
      /\ endPoint (dragTo DragScrubber (Num t) (introRange (Num 10) (Num 20)))
         = Num 20)
  /\ playheadAt 20 (handleTimelineClick (Num 600) (introRange (Num 10) (Num 20))).
Proof.
  destruct (X6_playhead_stays_in_range (introRange (Num 10) (Num 20))
              {| el_currentTime := of_Z 0; el_paused := true;
                 el_duration := lit 1205 10 |} 10 20)
    as (H1 & H2 & _); try reflexivity; [vm_compute; congruence|].
  split; [exact H1|].
  assert (G : playheadAt
                (clampTo 10 20 (round3 ((600 - 0) / 1205 * (120500 # 1000))))
                (handleTimelineClick (Num 600) (introRange (Num 10) (Num 20)))).
  { apply (H2 0 1205 (120500 # 1000) 600); try reflexivity;
      vm_compute; congruence. }
  exact G.
Defined.

Lemma onChangeStart_stores (s : State) (v : VideoElement) (value : string) (c : Q) :
  videoRef s = Some v ->
  min (parseTimeString value) (sub (endPoint s) EPS) = Num c ->
  startPoint (onChangeStart value s) = Num c
  /\ endPoint (onChangeStart value s) = endPoint s
  /\ playheadAt c (onChangeStart value s).
Proof.
  intros Hv Hc. unfold onChangeStart. rewrite Hc.
  change (videoRef (setStartPoint (Num c) s)) with (videoRef s). rewrite Hv.
  unfold seekAndStore, seek, playheadAt.
  change (videoRef (setStartPoint (Num c) s)) with (videoRef s). rewrite Hv.
  simpl. auto.
Qed.

Lemma Qle_bool_gt (x y : Q) : y < x -> Qle_bool x y = false.
Proof.
  intros H. destruct (Qle_bool x y) eqn:E; [|reflexivity].
  apply Qle_bool_iff in E. lra.
Qed.

Lemma onChangeStart_calls (s : State) (v : VideoElement) (value : string) (c : Q) :
  videoRef s = Some v ->
  min (parseTimeString value) (sub (endPoint s) EPS) = Num c ->
  surfaceCalls (onChangeStart value s)
  = (surfaceCalls s ++ [CallSeek (Num c)])%list.
Proof.
  intros Hv Hc. unfold onChangeStart. rewrite Hc.
  change (videoRef (setStartPoint (Num c) s)) with (videoRef s). rewrite Hv.
  unfold seekAndStore, seek.
  change (videoRef (setStartPoint (Num c) s)) with (videoRef s). rewrite Hv.
  reflexivity.
Qed.

(** X7. A time typed in a field of the range is stored clamped on one
    side. The Start field stores the typed time when that is at most
    [end - 0.1] and [end - 0.1] otherwise, leaves the end, and moves the
    playhead (state, ref and surface, by one seek) to the value it stored.
    The End field stores the typed time when that is above [start + 0.1]
    and [start + 0.1] otherwise, and writes nothing else: start, playhead,
    surface and its calls stay as they were. *)
Theorem X7_text_fields_store_clamped
    (s : State) (v : VideoElement) (value : string) (a b t : Q) :
  videoRef s = Some v -> startPoint s = Num a -> endPoint s = Num b ->
  parseTimeString value = Num t ->
  ((t <= b - (1 # 10) ->
    startPoint (onChangeStart value s) = Num t
    /\ playheadAt t (onChangeStart value s)
    /\ surfaceCalls (onChangeStart value s)
       = (surfaceCalls s ++ [CallSeek (Num t)])%list)
   /\ (b - (1 # 10) < t ->
       startPoint (onChangeStart value s) = Num (b - (1 # 10))
       /\ playheadAt (b - (1 # 10)) (onChangeStart value s)
       /\ surfaceCalls (onChangeStart value s)
          = (surfaceCalls s ++ [CallSeek (Num (b - (1 # 10)))])%list)
   /\ endPoint (onChangeStart value s) = Num b)
  /\ ((a + (1 # 10) < t -> endPoint (onChangeEnd value s) = Num t)
      /\ (t <= a + (1 # 10) ->
          endPoint (onChangeEnd value s) = Num (a + (1 # 10)))
      /\ startPoint (onChangeEnd value s) = Num a
      /\ currentTime (onChangeEnd value s) = currentTime s
      /\ currentTimeRef (onChangeEnd value s) = currentTimeRef s
      /\ videoRef (onChangeEnd value s) = videoRef s
      /\ surfaceCalls (onChangeEnd value s) = surfaceCalls s).
Proof.
  intros Hv Ha Hb Ht.
  assert (Hmin : min (parseTimeString value) (sub (endPoint s) EPS)
                 = Num (Qminb t (b - (1 # 10)))).
  { now rewrite Ht, Hb. }
  destruct (onChangeStart_stores s v value _ Hv Hmin) as (E1 & E2 & E3).
  pose proof (onChangeStart_calls s v value _ Hv Hmin) as E4.
  assert (Hend : endPoint (onChangeEnd value s)
                 = Num (Qmaxb t (a + (1 # 10)))).
  { unfold onChangeEnd. now rewrite Ht, Ha. }
  split; [split; [|split]|split; [|split; [|repeat split]]].
  - intros Hle. apply Qle_bool_iff in Hle.
    unfold Qminb in E1, E3, E4. rewrite Hle in E1, E3, E4. auto.
  - intros Hlt. apply Qle_bool_gt in Hlt.
    unfold Qminb in E1, E3, E4. rewrite Hlt in E1, E3, E4. auto.
  - now rewrite E2.
  - intros Hlt. apply Qle_bool_gt in Hlt.
    rewrite Hend. unfold Qmaxb. now rewrite Hlt.
  - intros Hle. apply Qle_bool_iff in Hle.
    rewrite Hend. unfold Qmaxb. now rewrite Hle.
  - exact Ha.
Qed.

Lemma X7_text_fields_store_clamped_witness :
  (startPoint (onChangeStart "9:00.500" intro)
   = Num ((120500 # 1000) - (1 # 10))
   /\ playheadAt ((120500 # 1000) - (1 # 10)) (onChangeStart "9:00.500" intro))
  /\ endPoint (onChangeEnd "9:00.500" intro) = Num (540500 # 1000)
  /\ startPoint (onChangeStart "0:30.000" intro) = Num (30000 # 1000)
  /\ endPoint (onChangeEnd "0:00.050" intro) = Num (0 + (1 # 10)).
Proof.
  pose (v := {| el_currentTime := of_Z 0; el_paused := true;
                el_duration := lit 1205 10 |}).
  destruct (X7_text_fields_store_clamped intro v "9:00.500" 0
              (120500 # 1000) (540500 # 1000))
    as ((_ & H1 & _) & (H2 & _)); [reflexivity|reflexivity|reflexivity|reflexivity|].
  destruct (X7_text_fields_store_clamped intro v "0:30.000" 0
              (120500 # 1000) (30000 # 1000))
    as ((H3 & _) & _); [reflexivity|reflexivity|reflexivity|reflexivity|].
  destruct (X7_text_fields_store_clamped intro v "0:00.050" 0
              (120500 # 1000) (50 # 1000))
    as (_ & (_ & H4 & _)); [reflexivity|reflexivity|reflexivity|reflexivity|].
  destruct H1 as (H1 & H1' & _); [reflexivity|].
  destruct H3 as (H3 & _); [vm_compute; discriminate|].
  split; [split; assumption|].
  split; [apply H2; reflexivity|].
  split; [exact H3|apply H4; vm_compute; discriminate].
Defined.

(** X8. Selecting an asset and loading its metadata: whatever the player
    held before, once the reset has run and the metadata of a medium of
    duration [d] has arrived, the range is the whole medium, [0] to [d]
    rounded to the millisecond, the playhead is at 0, nothing plays or
    drags, and no error is shown. The range invariant then holds exactly
    when the rounded duration is at least 0.1. *)
Theorem X8_selection_gives_full_range
    (s : State) (asset : VideoAsset) (el : VideoElement) (d : Q) :
  video s = Some asset -> videoRef s = Some el ->
  let s' := handleLoadedMetadata (surfaceLoads (Num d) (resetOnVideoChange s)) in
  startPoint s' = of_Z 0 /\ endPoint s' = Num (round3 d)
  /\ duration s' = Num (round3 d)
  /\ playheadAt 0 s'
  /\ dragType s' = None /\ isDraggingRef s' = false /\ isPlaying s' = false
  /\ error s' = None /\ isLoading s' = false
  /\ (rangeInvariant s' <-> 1 # 10 <= round3 d).
Proof.
  intros Hvid Hv s'.
  assert (E : startPoint s' = of_Z 0 /\ endPoint s' = Num (round3 d)
              /\ duration s' = Num (round3 d)).
  { subst s'. unfold handleLoadedMetadata, surfaceLoads, resetOnVideoChange, seek, play.
    rewrite Hvid. simpl. rewrite Hv. simpl. rewrite roundToPrecision_Num.
    destruct (autoPlay s); simpl; auto. }
  destruct E as (E1 & E2 & E3).
  split; [exact E1|]. split; [exact E2|]. split; [exact E3|].
  split; [|split; [|split; [|split; [|split; [|split]]]]];
    try (subst s';
         unfold handleLoadedMetadata, surfaceLoads, resetOnVideoChange, seek,
           play, playheadAt;
         rewrite Hvid; simpl; rewrite Hv; simpl;
         destruct (autoPlay s); simpl; auto; fail).
  unfold rangeInvariant. rewrite E1, E2, E3. simpl.
  change (inject_Z 0) with 0. split; [intros (_ & H & _)|intros H; repeat split]; lra.
Qed.

Lemma X8_selection_gives_full_range_witness :
  let s' := handleLoadedMetadata
              (surfaceLoads (Num (1205 # 10))
                 (resetOnVideoChange (run intro dragScenario))) in
  startPoint s' = of_Z 0 /\ endPoint s' = Num (round3 (1205 # 10))
  /\ duration s' = Num (round3 (1205 # 10))
  /\ playheadAt 0 s'
  /\ dragType s' = None /\ isDraggingRef s' = false /\ isPlaying s' = false
  /\ error s' = None /\ isLoading s' = false
  /\ (rangeInvariant s' <-> 1 # 10 <= round3 (1205 # 10)).
Proof.
  apply (X8_selection_gives_full_range (run intro dragScenario) introAsset
           {| el_currentTime := Num (1179000 # 10000); el_paused := true;
              el_duration := lit 1205 10 |} (1205 # 10));
    vm_compute; reflexivity.
Defined.

(** X9. Play from pause starts inside the range. With the surface paused
    at a position inside [[start, end)], a click on the video leaves the
    position and the displayed time as they are and asks the surface to
    play, by that one call. With the position before the start or at or
    past the end, the click first moves the playhead (state, ref and
    surface) to the start, by one seek, and then asks the surface to play.
    In both cases [isPlaying] is still false until the surface answers.
    While playing, the click pauses the surface where it is, by one call.
    The range is never written. *)
Theorem X9_play_starts_inside_range
    (s : State) (v : VideoElement) (a b c : Q) :
  videoRef s = Some v -> el_currentTime v = Num c ->
  startPoint s = Num a -> endPoint s = Num b ->
  (isPlaying s = false -> a <= c -> c < b ->
   option_map el_currentTime (videoRef (togglePlay s)) = Some (Num c)
   /\ currentTime (togglePlay s) = currentTime s
   /\ currentTimeRef (togglePlay s) = currentTimeRef s
   /\ surfaceCalls (togglePlay s) = (surfaceCalls s ++ [CallPlay])%list
   /\ isPlaying (togglePlay s) = false)
  /\ (isPlaying s = false -> c < a \/ b <= c ->
      playheadAt a (togglePlay s)
      /\ surfaceCalls (togglePlay s)
         = (surfaceCalls s ++ [CallSeek (Num a); CallPlay])%list
      /\ isPlaying (togglePlay s) = false)
  /\ (isPlaying s = true ->
      option_map el_currentTime (videoRef (togglePlay s)) = Some (Num c)
      /\ option_map el_paused (videoRef (togglePlay s)) = Some true
      /\ currentTime (togglePlay s) = currentTime s
      /\ currentTimeRef (togglePlay s) = currentTimeRef s
      /\ surfaceCalls (togglePlay s) = (surfaceCalls s ++ [CallPause])%list
      /\ isPlaying (togglePlay s) = false)
  /\ startPoint (togglePlay s) = Num a
  /\ endPoint (togglePlay s) = Num b.
Proof.
  intros Hv Hc Ha Hb.
  assert (Hin : isPlaying s = false -> a <= c -> c < b ->
                togglePlay s = play s).
  { intros Hp H1 H2. unfold togglePlay. rewrite Hv, Hp, Hc, Ha, Hb.
    change (lt (Num c) (Num a)) with (Qltb c a).
    change (ge (Num c) (Num b)) with (Qle_bool b c).
    assert (E1 : Qltb c a = false).
    { destruct (Qltb c a) eqn:E; [|reflexivity]. apply Qltb_true in E. lra. }
    rewrite E1, (Qle_bool_gt b c H2). reflexivity. }
  assert (Hout : isPlaying s = false -> c < a \/ b <= c ->
                 togglePlay s = play (seekAndStore (Num a) s)).
  { intros Hp H. unfold togglePlay. rewrite Hv, Hp, Hc, Ha, Hb.
    change (lt (Num c) (Num a)) with (Qltb c a).
    change (ge (Num c) (Num b)) with (Qle_bool b c).
    destruct (Qltb c a) eqn:E1; [reflexivity|].
    apply Qltb_false in E1. destruct H as [H|H]; [lra|].
    apply Qle_bool_iff in H. now rewrite H. }
  split; [|split; [|split; [|split]]].
  - intros Hp H1 H2. rewrite (Hin Hp H1 H2). unfold play. rewrite Hv.
    simpl. rewrite Hv. simpl. rewrite Hc. auto.
  - intros Hp H. rewrite (Hout Hp H).
    unfold play, seekAndStore, seek, playheadAt. rewrite Hv. simpl.
    rewrite <- app_assoc. auto.
  - intros Hp. unfold togglePlay, pause. rewrite Hv, Hp. simpl.
    rewrite Hc. auto 10.
  - unfold togglePlay, pause, play, seekAndStore, seek. rewrite Hv.
    destruct (isPlaying s); [exact Ha|].
    destruct (lt (el_currentTime v) (startPoint s)
              || ge (el_currentTime v) (endPoint s));
      simpl; rewrite ?Hv; simpl; exact Ha.
  - unfold togglePlay, pause, play, seekAndStore, seek. rewrite Hv.
    destruct (isPlaying s); [exact Hb|].
    destruct (lt (el_currentTime v) (startPoint s)
              || ge (el_currentTime v) (endPoint s));
      simpl; rewrite ?Hv; simpl; exact Hb.
Qed.

Lemma X9_play_starts_inside_range_witness :
  playheadAt 0 (togglePlay (run intro [SurfacePosition (lit 1206 10)]))
  /\ surfaceCalls (togglePlay (run intro [SurfacePosition (lit 1206 10)]))
     = (surfaceCalls (run intro [SurfacePosition (lit 1206 10)])
          ++ [CallSeek (Num 0); CallPlay])%list
  /\ option_map el_currentTime
       (videoRef (togglePlay (run intro [SurfacePosition (of_Z 60)])))
     = Some (Num 60).
Proof.
  destruct (X9_play_starts_inside_range
              (run intro [SurfacePosition (lit 1206 10)])
              {| el_currentTime := lit 1206 10; el_paused := true;
                 el_duration := lit 1205 10 |} 0 (120500 # 1000) (1206 # 10))
    as (_ & H & _); [reflexivity|reflexivity|reflexivity|reflexivity|].
  destruct H as (H1 & H2 & _);
    [reflexivity|right; vm_compute; discriminate|].
  destruct (X9_play_starts_inside_range
              (run intro [SurfacePosition (of_Z 60)])
              {| el_currentTime := of_Z 60; el_paused := true;
                 el_duration := lit 1205 10 |} 0 (120500 # 1000) 60)
    as (G & _); [reflexivity|reflexivity|reflexivity|reflexivity|].
  destruct G as (G1 & _);
    [reflexivity|vm_compute; discriminate|reflexivity|].
  split; [exact H1|split; [exact H2|exact G1]].
Defined.

(** X29. A preview range is applied as given. With a medium loaded, the
    effect stores the start and the end it is handed, unclamped, and moves
    the playhead to the start; the range invariant holds afterwards exactly
    when the range handed in satisfies it. *)
Theorem X29_preview_range_as_given
    (s : State) (v : VideoElement) (a b d : Q) :
  videoRef s = Some v -> duration s = Num d -> ~ d == 0 ->
  let s' := applyPreview (Num a) (Num b) s in
  startPoint s' = Num a /\ endPoint s' = Num b /\ duration s' = Num d
  /\ playheadAt a s'
  /\ (rangeInvariant s' <-> 0 <= a /\ a <= b - (1 # 10) /\ b - (1 # 10) <= d).
Proof.
  intros Hv Hd Hd0 s'.
  assert (E : s' = s |> setStartPoint (Num a) |> setEndPoint (Num b)
                     |> seek (Num a) |> set_currentTimeRef (Num a)
                     |> setCurrentTime (Num a)).
  { subst s'. unfold applyPreview. rewrite Hv, Hd.
    change (sameb (Num d) (of_Z 0)) with (Qeq_bool d 0).
    apply Qeq_bool_false in Hd0. now rewrite Hd0. }
  assert (F : startPoint s' = Num a /\ endPoint s' = Num b
              /\ duration s' = Num d).
  { rewrite E. unfold seek. cbn [videoRef setEndPoint setStartPoint].
    rewrite Hv. simpl. auto. }
  destruct F as (F1 & F2 & F3).
  split; [exact F1|]. split; [exact F2|]. split; [exact F3|]. split.
  - rewrite E. apply (seekAndStore_playhead _ v). exact Hv.
  - unfold rangeInvariant. rewrite F1, F2, F3. reflexivity.
Qed.

Lemma X29_preview_range_as_given_witness :
  let s' := applyPreview (Num 10) (Num 20) intro in
  startPoint s' = Num 10 /\ endPoint s' = Num 20
  /\ duration s' = Num (120500 # 1000)
  /\ playheadAt 10 s'
  /\ (rangeInvariant s' <->
      0 <= 10 /\ 10 <= 20 - (1 # 10) /\ 20 - (1 # 10) <= 120500 # 1000).
Proof.
  apply (X29_preview_range_as_given intro
           {| el_currentTime := of_Z 0; el_paused := true;
              el_duration := lit 1205 10 |} 10 20 (120500 # 1000));
    [reflexivity|reflexivity|vm_compute; congruence].
Defined.

End PlayerProperties.

(** ** Height of the controls area *)

Section ResizeProperties.

Import JS Player PlayerMore.
Local Open Scope Q_scope.

Lemma resizeStep_ok (c : Controls) (e : ResizeEvent) :
  finiteResize e -> resizeOk c -> resizeOk (resizeStep c e).
Proof.
  intros He [(h & Hh & Hb) Ha].
  destruct e as [[|y]|[|y]|]; try contradiction; simpl.
  - split; [exists h; now split|]. intros _. exists y, h. now split.
  - unfold handleResizeMove. destruct (isResizing c) eqn:Er.
    + destruct (Ha eq_refl) as (y0 & h0 & Hy & Hh0).
      split; [|simpl; intros _; exists y0, h0; now split].
      simpl. rewrite Hy, Hh0. simpl.
      eexists. split; [reflexivity|].
      change (inject_Z 150) with 150. change (inject_Z 600) with 600.
      destruct (Qminb_cases 600 (h0 + (y0 - y))) as [[H1 ->]|[H1 ->]];
        [destruct (Qmaxb_cases 150 600) as [[H2 ->]|[H2 ->]]
        |destruct (Qmaxb_cases 150 (h0 + (y0 - y))) as [[H2 ->]|[H2 ->]]];
        lra.
    + split; [exists h; now split|]. intros Hr. rewrite Er in Hr. discriminate.
  - unfold handleResizeEnd. destruct (isResizing c) eqn:Er.
    + split; [exists h; now split|]. simpl. discriminate.
    + split; [exists h; now split|]. intros Hr. rewrite Er in Hr. discriminate.
Qed.

(** X11. The height of the controls area stays between 150 and 600 pixels
    over every sequence of presses, moves and releases of the resize handle
    at finite pointer positions, starting from the initial 192. *)
Theorem X11_controls_height_bounded (es : list ResizeEvent) :
  Forall finiteResize es ->
  exists h,
    controlsHeight (fold_left resizeStep es initialControls) = Num h
    /\ 150 <= h <= 600.
Proof.
  intros Hall.
  assert (G : forall c, resizeOk c -> resizeOk (fold_left resizeStep es c)).
  { induction Hall as [|e es He Hes IH]; intros c Hc; [exact Hc|].
    simpl. apply IH. now apply resizeStep_ok. }
  apply G. split; [|discriminate].
  exists 192. split; [reflexivity|]. split; discriminate.
Qed.

Lemma X11_controls_height_bounded_witness :
  exists h,
    controlsHeight
      (fold_left resizeStep
         [ResizeDown (Num 700); ResizeMove (Num 100); ResizeUp;
          ResizeMove (Num 5000); ResizeDown (Num 100); ResizeMove (Num 9000)]
         initialControls) = Num h
    /\ 150 <= h <= 600.
Proof.
  apply (X11_controls_height_bounded
           [ResizeDown (Num 700); ResizeMove (Num 100); ResizeUp;
            ResizeMove (Num 5000); ResizeDown (Num 100); ResizeMove (Num 9000)]).
  repeat constructor.
Defined.

End ResizeProperties.

(** ** BufferNetworkMonitor *)

Section MonitorProperties.

Import JS Player PlayerMore.
Local Open Scope Z_scope.

Lemma spaced_snoc (gap : Z) (times : list Z) (x : Z) :
  spaced gap times ->
  (forall t, last times = Some t -> t + gap <= x) ->
  spaced gap (times ++ [x]).
Proof.
  induction times as [|t1 [|t2 rest] IH]; intros Hs Hl.
  - exact I.
  - simpl. split; [now apply Hl|exact I].
  - destruct Hs as [H12 Hs].
    change ((t1 :: t2 :: rest) ++ [x]) with (t1 :: ((t2 :: rest) ++ [x])).
    change ((t2 :: rest) ++ [x]) with (t2 :: (rest ++ [x])) at 1.
    split; [exact H12|].
    change (t2 :: (rest ++ [x])) with ((t2 :: rest) ++ [x]).
    apply IH; [exact Hs|]. intros t Ht. apply Hl. exact Ht.
Qed.

Ltac monitor_fields :=
  cbn [bufferMounted networkMounted lastBufferUpdate lastNetworkUpdate
       bytesLoaded isBuffering bufferShown speedShown].

Lemma monitorStep_invariant (st : Monitor) (e : MonitorEvent) :
  monitorInvariant st -> monitorInvariant (monitorStep st e).
Proof.
  intros (Hb1 & Hb2 & Hn1 & Hn2 & (b & Hb & Hb0) & Hpos).
  destruct e as [now m| | | |now elapsed media|hasVideo|]; cbn [monitorStep].
  - unfold handleProgress.
    destruct (bufferMounted st); [|now repeat split; eauto].
    destruct (bufferedEnd m) as [bEnd|]; [|now repeat split; eauto].
    destruct (sameb (mediaDuration m) (of_Z 0)); [now repeat split; eauto|].
    destruct (now - lastBufferUpdate st <? 500) eqn:E;
      [now repeat split; eauto|].
    apply Z.ltb_ge in E. unfold monitorInvariant. monitor_fields.
    rewrite map_app. cbn [map fst]. rewrite last_snoc.
    split; [|split; [|now repeat split; eauto]].
    + apply spaced_snoc; [exact Hb1|]. intros t Ht. specialize (Hb2 t Ht). lia.
    + intros t [= <-]. lia.
  - unfold handleBuffering. destruct (bufferMounted st); now repeat split; eauto.
  - unfold handleBuffering. destruct (bufferMounted st); now repeat split; eauto.
  - unfold handleBuffering. destruct (bufferMounted st); now repeat split; eauto.
  - unfold updateNetworkSpeed.
    destruct media as [m|]; [|now repeat split; eauto].
    destruct (negb (networkMounted st)); [now repeat split; eauto|].
    destruct (now - lastNetworkUpdate st <? 2000) eqn:E;
      [now repeat split; eauto|].
    apply Z.ltb_ge in E.
    assert (Hkeep : monitorInvariant
              {| bufferMounted := bufferMounted st;
                 networkMounted := networkMounted st;
                 lastBufferUpdate := lastBufferUpdate st;
                 lastNetworkUpdate := now;
                 bytesLoaded := bytesLoaded st; isBuffering := isBuffering st;
                 bufferShown := bufferShown st; speedShown := speedShown st |}).
    { unfold monitorInvariant. simpl.
      split; [exact Hb1|]. split; [exact Hb2|]. split; [exact Hn1|].
      split; [intros t Ht; specialize (Hn2 t Ht); lia|].
      split; [now exists b|exact Hpos]. }
    destruct (bufferedEnd m) as [bEnd|]; [|exact Hkeep].
    cbn [bytesLoaded].
    remember (mul bEnd (if gt (mediaDuration m) (of_Z 0)
                        then mul (mul (videoWidth m) (videoHeight m)) (lit 1 2)
                        else of_Z 1000000)) as est eqn:Eest.
    remember (div elapsed (of_Z 1000)) as el eqn:Eel.
    destruct (gt el (of_Z 0) && gt est (bytesLoaded st)) eqn:Ec; [|exact Hkeep].
    apply andb_prop in Ec as [E1 E2]. rewrite Hb in E2.
    destruct el as [|qe]; [discriminate E1|].
    destruct est as [|eb]; [discriminate E2|].
    apply Qltb_true in E1, E2. change (inject_Z 0) with 0%Q in E1.
    unfold monitorInvariant. monitor_fields.
    rewrite map_app. cbn [map fst]. rewrite last_snoc.
    split; [exact Hb1|]. split; [exact Hb2|].
    split; [apply spaced_snoc; [exact Hn1|];
            intros t Ht; specialize (Hn2 t Ht); lia|].
    split; [intros t [= <-]; lia|].
    split; [exists eb; split; [reflexivity|lra]|].
    apply Forall_app. split; [exact Hpos|].
    constructor; [|constructor]. cbn [snd].
    assert (Ez : Qeq_bool qe 0 = false).
    { destruct (Qeq_bool qe 0) eqn:Ez; [|reflexivity].
      apply Qeq_bool_iff in Ez. lra. }
    unfold div at 2. rewrite Ez. unfold div, of_Z.
    change (Qeq_bool (inject_Z (1024 * 1024)) 0) with false. cbv iota.
    eexists. split; [reflexivity|].
    assert (P1 : (0 < eb / qe)%Q).
    { apply Qlt_shift_div_l; [exact E1|lra]. }
    apply Qlt_shift_div_l; [reflexivity|lra].
  - unfold videoChanges. destruct hasVideo; unfold monitorInvariant; simpl.
    + split; [exact Hb1|]. split; [exact Hb2|]. split; [exact Hn1|].
      split; [exact Hn2|]. split; [|exact Hpos].
      exists (inject_Z 0). split; [reflexivity|]. discriminate.
    + now repeat split; eauto.
  - unfold teardownMonitor, monitorInvariant. simpl. now repeat split; eauto.
Qed.

Lemma monitor_run_invariant (es : list MonitorEvent) (st : Monitor) :
  monitorInvariant st -> monitorInvariant (fold_left monitorStep es st).
Proof.
  revert st. induction es as [|e es IH]; intros st Hst; [exact Hst|].
  simpl. apply IH. now apply monitorStep_invariant.
Qed.

Lemma initialMonitor_invariant : monitorInvariant initialMonitor.
Proof.
  unfold monitorInvariant. simpl.
  split; [exact I|]. split; [discriminate|]. split; [exact I|].
  split; [discriminate|]. split; [|constructor].
  exists (inject_Z 0). split; [reflexivity|discriminate].
Qed.

(** X12. The monitors throttle what they show, whatever arrives and in
    whatever order, across changes of the asset and the unmount: two
    consecutive buffer percentages shown by [handleProgress] are at least
    500 ms apart, two consecutive speeds shown by [updateNetworkSpeed] at
    least 2000 ms. *)
Theorem X12_monitor_updates_throttled (es : list MonitorEvent) :
  spaced 500 (map fst (bufferShown (fold_left monitorStep es initialMonitor)))
  /\ spaced 2000 (map fst (speedShown (fold_left monitorStep es initialMonitor))).
Proof.
  destruct (monitor_run_invariant es initialMonitor initialMonitor_invariant)
    as (H1 & _ & H2 & _).
  now split.
Qed.


Lemma teardown_frozen (st : Monitor) (e : MonitorEvent) :
  monitorHandlerEvent e ->
  bufferMounted st = false -> networkMounted st = false ->
  monitorStep st e = st.
Proof.
  intros He Hb Hn.
  destruct e as [now m| | | |now elapsed media|hasVideo|]; try contradiction;
    simpl; unfold handleProgress, handleBuffering, updateNetworkSpeed;
    rewrite ?Hb, ?Hn; try reflexivity.
  now destruct media.
Qed.

(** X14. After the unmount nothing is shown or stored any more: every
    event that still reaches a handler of the monitors leaves their refs,
    state and logs as the unmount left them. *)
Theorem X14_nothing_after_unmount (es : list MonitorEvent) (st : Monitor) :
  Forall monitorHandlerEvent es ->
  fold_left monitorStep es (teardownMonitor st) = teardownMonitor st.
Proof.
  induction 1 as [|e es He Hes IH]; [reflexivity|].
  simpl. rewrite (teardown_frozen (teardownMonitor st) e He); auto.
Qed.

Lemma X14_nothing_after_unmount_witness :
  fold_left monitorStep
    [Progress 9000 {| bufferedEnd := Some (of_Z 10); mediaDuration := of_Z 60;
                      videoWidth := of_Z 640; videoHeight := of_Z 360 |};
     Waiting;
     SpeedTick 9000 (of_Z 3000)
       (Some {| bufferedEnd := Some (of_Z 10); mediaDuration := of_Z 60;
                videoWidth := of_Z 640; videoHeight := of_Z 360 |})]
    (teardownMonitor initialMonitor)
  = teardownMonitor initialMonitor.
Proof.
  apply (X14_nothing_after_unmount _ initialMonitor). repeat constructor.
Defined.

End MonitorProperties.

(** ** Pages of the library *)

Section PageProperties.

Import JS JSString VideoLibrary LibraryMore.
Local Open Scope nat_scope.

Lemma slices_concat (k : nat) (n : nat) (vs : list VideoAsset) :
  length vs <= n * k ->
  concat ((fun p => take k (drop ((p - 1) * k) vs)) <$> seq 1 n) = vs.
Proof.
  revert vs. induction n as [|n IH]; intros vs Hlen.
  - simpl in *. assert (E : length vs = 0) by lia.
    now apply nil_length_inv in E.
  - rewrite <- cons_seq, <- fmap_S_seq. rewrite fmap_cons, <- list_fmap_compose.
    simpl concat. rewrite drop_0.
    transitivity (take k vs ++ drop k vs); [|apply take_drop]. f_equal.
    etransitivity; [|apply (IH (drop k vs))].
    + f_equal. apply list_fmap_ext. intros i p Hp. unfold compose.
      apply lookup_seq in Hp as [-> _].
      rewrite drop_drop. do 2 f_equal.
      replace (S (1 + i) - 1) with (S i) by lia.
      replace (1 + i - 1) with i by lia. simpl. lia.
    + rewrite length_drop. simpl in Hlen. lia.
Qed.

Lemma totalPages_spec (s : State) :
  length (videos s) <= totalPages s * ITEMS_PER_PAGE
  /\ (0 < totalPages s -> (totalPages s - 1) * ITEMS_PER_PAGE < length (videos s))
  /\ (videos s = [] <-> totalPages s = 0).
Proof.
  unfold totalPages, ITEMS_PER_PAGE.
  pose proof (Nat.div_mod_eq (length (videos s) + 12 - 1) 12) as E.
  pose proof (Nat.mod_upper_bound (length (videos s) + 12 - 1) 12) as U.
  split; [lia|]. split; [lia|].
  split; [intros ->; reflexivity|]. intros H.
  apply nil_length_inv. lia.
Qed.

(** X15. The pages partition the assets: put side by side in order, the
    slices shown as pages 1 to [totalPages] are exactly [videos]; every
    one of these pages shows at least one asset and at most twelve, and all
    but the last show twelve. *)
Theorem X15_pages_partition (s : State) :
  concat ((fun p => pageSlice p (videos s)) <$> seq 1 (totalPages s)) = videos s
  /\ paginatedVideos s = pageSlice (currentPage s) (videos s)
  /\ forall p, 1 <= p <= totalPages s ->
       1 <= length (pageSlice p (videos s)) <= ITEMS_PER_PAGE
       /\ (p < totalPages s -> length (pageSlice p (videos s)) = ITEMS_PER_PAGE).
Proof.
  destruct (totalPages_spec s) as (H1 & H2 & _).
  split; [now apply slices_concat|]. split; [reflexivity|].
  intros p Hp. unfold pageSlice. rewrite length_take, length_drop.
  assert (H3 : (totalPages s - 1) * ITEMS_PER_PAGE < length (videos s))
    by (apply H2; lia).
  unfold ITEMS_PER_PAGE in *. split; [nia|]. intros Hlt. nia.
Qed.

Lemma pageNum_first (tp cp : Z) :
  (1 <= cp <= tp)%Z ->
  exists first : Z,
    (forall i, pageNum tp cp i = first + i)%Z
    /\ (1 <= first)%Z /\ (first + Z.min 5 tp - 1 <= tp)%Z
    /\ (first <= cp < first + Z.min 5 tp)%Z.
Proof.
  intros Hcp. unfold pageNum.
  destruct (tp <=? 5)%Z eqn:E1; [exists 1%Z; split; [intros; lia|lia]|].
  destruct (cp <=? 3)%Z eqn:E2; [exists 1%Z; split; [intros; lia|lia]|].
  destruct (cp >=? tp - 2)%Z eqn:E3.
  - exists (tp - 4)%Z. split; [intros; lia|lia].
  - exists (cp - 2)%Z. split; [intros; lia|lia].
Qed.

(** X16. The page buttons show a window of consecutive page numbers: with
    the current page among the pages there are, the buttons carry
    [min 5 totalPages] consecutive numbers, all of them existing pages, and
    the current page is one of them. *)
Theorem X16_page_buttons_window (tp cp : Z) :
  (1 <= cp <= tp)%Z ->
  exists first : Z,
    pageButtons tp cp = seqZ first (Z.min 5 tp)
    /\ (1 <= first)%Z /\ (first + Z.min 5 tp - 1 <= tp)%Z
    /\ (first <= cp < first + Z.min 5 tp)%Z.
Proof.
  intros Hcp. destruct (pageNum_first tp cp Hcp) as (first & Hi & H1 & H2 & H3).
  exists first. split; [|now repeat split].
  unfold pageButtons, seqZ. apply list_fmap_ext. intros i n _.
  rewrite Hi. lia.
Qed.

Lemma X16_page_buttons_window_witness :
  exists first : Z,
    pageButtons 9 8 = seqZ first (Z.min 5 9)
    /\ (1 <= first)%Z /\ (first + Z.min 5 9 - 1 <= 9)%Z
    /\ (first <= 8 < first + Z.min 5 9)%Z.
Proof. apply (X16_page_buttons_window 9 8). lia. Defined.

End PageProperties.

(** ** What each event of the library leaves alone *)

Section LibraryFrames.

Import JS JSString VideoLibrary LibraryMore.
Local Open Scope Z_scope.

(** The [forEach] of the unmount writes the timers only, and only removes
    some. *)
Lemma clearTimers_shape (l : list (string * PollingTask)) (s : State) :
  fold_right clearOne s l = set_timers (timers (fold_right clearOne s l)) s.
Proof.
  induction l as [|kv l IH]; [now destruct s|].
  simpl. unfold clearOne at 1 3.
  destruct (timeoutId kv.2 =? 0); [exact IH|].
  unfold clearTimeout. cbn [timers set_timers].
  generalize (delete (timeoutId kv.2) (timers (fold_right clearOne s l))).
  intros D. rewrite IH. reflexivity.
Qed.

Lemma clearTimers_subset (l : list (string * PollingTask)) (s : State)
    (id : Z) (x : Z * Poll) :
  timers (fold_right clearOne s l) !! id = Some x -> timers s !! id = Some x.
Proof.
  induction l as [|kv l IH]; [easy|].
  simpl. unfold clearOne at 1.
  destruct (timeoutId kv.2 =? 0); [exact IH|].
  unfold clearTimeout. simpl. intros H. apply IH.
  apply lookup_delete_Some in H. tauto.
Qed.

Lemma abortAll_shape (s : State) :
  abortAll s
  = set_pollingTasksRef (abortTask <$> pollingTasksRef s)
      (set_timers (timers (abortAll s)) s).
Proof.
  unfold abortAll. rewrite clearOne_registry.
  rewrite clearTimers_shape at 1. reflexivity.
Qed.

(** The walk of the stale-entry effect writes the two refs and the cache
    only. *)
Lemma dropIfStale_shape (cur : gset string) (id : string) (s : State) :
  exists k r c,
    dropIfStale cur id s
    = set_thumbnailCache k (set_requestedThumbnails r (set_videoCardRefs c s)).
Proof.
  unfold dropIfStale. destruct (decide (id ∈ cur)).
  - exists (thumbnailCache s), (requestedThumbnails s), (videoCardRefs s).
    now destruct s.
  - cbn [videos set_requestedThumbnails set_videoCardRefs].
    destruct (findVideo id (videos s)); unfold clearThumbnailForVideo.
    + eexists _, _, _. reflexivity.
    + exists (thumbnailCache s), (requestedThumbnails s ∖ {[id]}),
        (videoCardRefs s ∖ {[id]}).
      now destruct s.
Qed.

Lemma dropStale_shape (cur : gset string) (l : list string) (s : State) :
  exists k r c,
    fold_right (dropIfStale cur) s l
    = set_thumbnailCache k (set_requestedThumbnails r (set_videoCardRefs c s)).
Proof.
  induction l as [|id l IH].
  - exists (thumbnailCache s), (requestedThumbnails s), (videoCardRefs s).
    now destruct s.
  - destruct IH as (k & r & c & E). simpl. rewrite E.
    destruct (dropIfStale_shape cur id
                (set_thumbnailCache k
                   (set_requestedThumbnails r (set_videoCardRefs c s))))
      as (k' & r' & c' & E').
    rewrite E'. exists k', r', c'. reflexivity.
Qed.

Lemma tuple5 {A B C D E : Type} (a a' : A) (b b' : B) (c c' : C) (d d' : D)
    (e e' : E) :
  (a, b, c, d, e) = (a', b', c', d', e') ->
  a = a' /\ b = b' /\ c = c' /\ d = d' /\ e = e'.
Proof. intros H. inversion H. auto. Qed.

Lemma tuple6 {A B C D E F : Type} (a a' : A) (b b' : B) (c c' : C) (d d' : D)
    (e e' : E) (f f' : F) :
  (a, b, c, d, e, f) = (a', b', c', d', e', f') ->
  a = a' /\ b = b' /\ c = c' /\ d = d' /\ e = e' /\ f = f'.
Proof. intros H. inversion H. auto 6. Qed.

Lemma tuple7 {A B C D E F G : Type} (a a' : A) (b b' : B) (c c' : C)
    (d d' : D) (e e' : E) (f f' : F) (g g' : G) :
  (a, b, c, d, e, f, g) = (a', b', c', d', e', f', g') ->
  a = a' /\ b = b' /\ c = c' /\ d = d' /\ e = e' /\ f = f' /\ g = g'.
Proof. intros H. inversion H. auto 7. Qed.

Ltac cases :=
  repeat match goal with
         | |- context [match ?x with _ => _ end] => destruct x eqn:?
         end.

(** *** The poller leaves the library part alone *)

Create Rewrite HintDb library.

Lemma alert_library (n : Notice) (s : State) :
  libraryPart (alert n s) = libraryPart s.
Proof. reflexivity. Qed.

Lemma set_timers_library (v : gmap Z (Z * Poll)) (s : State) :
  libraryPart (set_timers v s) = libraryPart s.
Proof. reflexivity. Qed.

Lemma set_nextTimer_library (v : Z) (s : State) :
  libraryPart (set_nextTimer v s) = libraryPart s.
Proof. reflexivity. Qed.

Lemma set_statusRequests_library (v : gmap Z Poll) (s : State) :
  libraryPart (set_statusRequests v s) = libraryPart s.
Proof. reflexivity. Qed.

Lemma set_optimizeRequests_library (v : gmap Z VideoAsset) (s : State) :
  libraryPart (set_optimizeRequests v s) = libraryPart s.
Proof. reflexivity. Qed.

Lemma set_nextRequest_library (v : Z) (s : State) :
  libraryPart (set_nextRequest v s) = libraryPart s.
Proof. reflexivity. Qed.

Lemma set_pollingTasksRef_library (v : gmap string PollingTask) (s : State) :
  libraryPart (set_pollingTasksRef v s) = libraryPart s.
Proof. reflexivity. Qed.

Lemma set_now_library (v : Z) (s : State) :
  libraryPart (set_now v s) = libraryPart s.
Proof. reflexivity. Qed.

Lemma set_mounted_library (v : bool) (s : State) :
  libraryPart (set_mounted v s) = libraryPart s.
Proof. reflexivity. Qed.

Lemma setOptimizingVideos_library (f : gset string -> gset string) (s : State) :
  libraryPart (setOptimizingVideos f s) = libraryPart s.
Proof. unfold setOptimizingVideos. now destruct (mounted s). Qed.

Hint Rewrite alert_library set_timers_library set_nextTimer_library
  set_statusRequests_library set_optimizeRequests_library
  set_nextRequest_library set_pollingTasksRef_library set_now_library
  set_mounted_library setOptimizingVideos_library : library.

Lemma clearTimeout_library (id : Z) (s : State) :
  libraryPart (clearTimeout id s) = libraryPart s.
Proof. reflexivity. Qed.

Lemma fetchStatus_library (p : Poll) (s : State) :
  libraryPart (fetchStatus p s) = libraryPart s.
Proof. reflexivity. Qed.

Lemma setTimeout_library (p : Poll) (delay : Z) (s : State) :
  libraryPart (setTimeout p delay s).2 = libraryPart s.
Proof. reflexivity. Qed.

Hint Rewrite clearTimeout_library fetchStatus_library : library.

Lemma cleanup_library (p : Poll) (s : State) :
  libraryPart (cleanup p s) = libraryPart s.
Proof.
  unfold cleanup. cases; now autorewrite with library.
Qed.

Hint Rewrite cleanup_library : library.

Lemma checkStatus_library (p : Poll) (s : State) :
  libraryPart (checkStatus p s) = libraryPart s.
Proof.
  unfold checkStatus. cases; now autorewrite with library.
Qed.

Lemma checkStatusResume_library (p : Poll) (r : Response) (s : State) :
  libraryPart (checkStatusResume p r s) = libraryPart s.
Proof.
  unfold checkStatusResume, setTimeout. cases; now autorewrite with library.
Qed.

Hint Rewrite checkStatus_library checkStatusResume_library : library.

Lemma pollOptimizeTask_library (task video : string) (s : State) :
  libraryPart (pollOptimizeTask task video s) = libraryPart s.
Proof. unfold pollOptimizeTask. now autorewrite with library. Qed.

Hint Rewrite pollOptimizeTask_library : library.

Lemma handleOptimize_library (video : VideoAsset) (confirmed : bool) (s : State) :
  libraryPart (handleOptimize video confirmed s) = libraryPart s.
Proof. unfold handleOptimize. cases; now autorewrite with library. Qed.

Lemma handleOptimizeResume_library (video : VideoAsset) (r : option string)
    (s : State) :
  libraryPart (handleOptimizeResume video r s) = libraryPart s.
Proof. unfold handleOptimizeResume. cases; now autorewrite with library. Qed.

Lemma unmount_library (s : State) : libraryPart (unmount s) = libraryPart s.
Proof.
  unfold unmount. autorewrite with library. now rewrite abortAll_shape.
Qed.

Hint Rewrite handleOptimize_library handleOptimizeResume_library
  unmount_library : library.

(** The events of the poller, the clock and the unmount leave the assets,
    the page, the thumbnails and the cards alone. *)
Lemma job_event_library (s : State) (e : Event) :
  match e with
  | ClickOptimize _ _ | OptimizeAnswer _ _ | TimerFires _ | StatusAnswer _ _
  | TimePasses _ | Unmount => True
  | _ => False
  end ->
  libraryPart (step s e) = libraryPart s.
Proof.
  destruct e; try contradiction; intros _; unfold step; cases;
    now autorewrite with library.
Qed.

(** *** The rest of the library leaves the poller alone *)

Lemma generateThumbnailOf_frame (view : State) (video : VideoAsset) (s : State) :
  let s' := generateThumbnailOf view video s in
  (jobPart s', videos s', currentPage s', videoCardRefs s', deleted s')
  = (jobPart s, videos s, currentPage s, videoCardRefs s, deleted s).
Proof.
  unfold generateThumbnailOf, setLoadingThumbnails. cbn zeta. cases; unfold jobPart in *; simpl in *; congruence.
Qed.

Lemma generateThumbnail_as_closure (video : VideoAsset) (s : State) :
  generateThumbnail video s = generateThumbnailOf s video s.
Proof. reflexivity. Qed.

Lemma generateThumbnailResume_frame (video : VideoAsset) (r : option string)
    (s : State) :
  let s' := generateThumbnailResume video r s in
  (jobPart s', videos s', currentPage s', videoCardRefs s', deleted s')
  = (jobPart s, videos s, currentPage s, videoCardRefs s, deleted s).
Proof.
  unfold generateThumbnailResume, setLoadingThumbnails, setThumbnails.
  cbn zeta. cases; unfold jobPart in *; simpl in *; congruence.
Qed.

Lemma handleRegenerateThumbnail_frame (video : VideoAsset) (s : State) :
  let s' := handleRegenerateThumbnail video s in
  (jobPart s', videos s', currentPage s', videoCardRefs s', deleted s')
  = (jobPart s, videos s, currentPage s, videoCardRefs s, deleted s).
Proof.
  unfold handleRegenerateThumbnail. cbn zeta.
  rewrite generateThumbnailOf_frame.
  unfold clearThumbnailForVideo, setThumbnails. cases; unfold jobPart in *; simpl in *; congruence.
Qed.

(** The events of the thumbnails leave the poller, the assets, the page
    and the cards alone. *)
Lemma thumbnail_event_frame (s : State) (e : UiEvent) :
  match e with
  | Core (CardVisible _) | Core (ThumbnailAnswer _ _) | ClickRegenerate _ => True
  | _ => False
  end ->
  let s' := uiStep s e in
  (jobPart s', videos s', currentPage s', videoCardRefs s', deleted s')
  = (jobPart s, videos s, currentPage s, videoCardRefs s, deleted s).
Proof.
  destruct e as [[v c|r o|dt|i|r rs| |id|req result|v c|vs]|video|page];
    try contradiction; intros _; cbn zeta; unfold uiStep, step.
  - destruct (mounted s); [|reflexivity]. unfold cardVisible.
    destruct (decide _); [|reflexivity].
    destruct (findVideo _ _); [|reflexivity].
    rewrite generateThumbnail_as_closure. apply generateThumbnailOf_frame.
  - destruct (thumbnailRequests s !! req) as [video|]; [|reflexivity].
    rewrite (generateThumbnailResume_frame video result). reflexivity.
  - destruct (mounted s && regenerateRendered video s); [|reflexivity].
    apply handleRegenerateThumbnail_frame.
Qed.

Lemma handleDelete_frame (video : VideoAsset) (confirmed : bool) (s : State) :
  let s' := handleDelete video confirmed s in
  (jobPart s', thumbnailRequests s', loadingThumbnails s', videos s',
   currentPage s')
  = (jobPart s, thumbnailRequests s, loadingThumbnails s, videos s,
     currentPage s).
Proof.
  unfold handleDelete, clearThumbnailForVideo, setThumbnails,
    setSelectedVideoId. cbn zeta. cases; unfold jobPart in *; simpl in *; congruence.
Qed.

Lemma registerCards_frame (s : State) :
  registerCards s = set_videoCardRefs (videoCardRefs (registerCards s)) s.
Proof. reflexivity. Qed.

Lemma videosChanged_frame (vs : list VideoAsset) (s : State) :
  let s' := videosChanged vs s in
  (jobPart s', thumbnailRequests s', loadingThumbnails s', thumbnails s',
   deleted s')
  = (jobPart s, thumbnailRequests s, loadingThumbnails s, thumbnails s,
     deleted s).
Proof.
  unfold videosChanged, staleCleanup. cbn zeta.
  match goal with
  | |- context [fold_right (dropIfStale ?cur) ?x ?l] =>
      destruct (dropStale_shape cur l x) as (k & r & c & ->)
  end.
  unfold clampPage, setCurrentPage. cases; unfold jobPart in *; simpl in *; congruence.
Qed.

Lemma pageTurn_frame (page : Z) (s : State) :
  let s' := pageTurn page s in
  (jobPart s', thumbnailRequests s', loadingThumbnails s', thumbnails s',
   videos s', deleted s')
  = (jobPart s, thumbnailRequests s, loadingThumbnails s, thumbnails s,
     videos s, deleted s).
Proof.
  unfold pageTurn, goToPage, clampPage, setCurrentPage. cbn zeta.
  cases; unfold jobPart in *; simpl in *; congruence.
Qed.

End LibraryFrames.

(** ** The page and the cards over a session of the library *)

Section SessionProperties.

Ltac cases :=
  repeat match goal with
         | |- context [match ?x with _ => _ end] => destruct x eqn:?
         end.

Import JS JSString VideoLibrary LibraryMore.
Local Open Scope Z_scope.

Lemma pageInvariant_ext (s s' : State) :
  videos s' = videos s -> currentPage s' = currentPage s ->
  pageInvariant s -> pageInvariant s'.
Proof.
  unfold pageInvariant, totalPages. now intros -> ->.
Qed.

Lemma clampPage_pages (s : State) :
  mounted s = true -> (1 <= currentPage s)%nat ->
  pageInvariant (clampPage s) /\ videos (clampPage s) = videos s.
Proof.
  intros Hm H1. unfold clampPage, setCurrentPage. rewrite Hm.
  destruct (totalPages s <? currentPage s)%nat eqn:E1;
    [destruct (0 <? totalPages s)%nat eqn:E2|]; simpl.
  - apply Nat.ltb_lt in E2. split; [|reflexivity].
    unfold pageInvariant.
    match goal with
    | |- (_ <= currentPage ?x)%nat /\ _ =>
        change (totalPages x) with (totalPages s);
        change (currentPage x) with (totalPages s)
    end.
    split; [lia|]. intros _. lia.
  - apply Nat.ltb_ge in E2. split; [|reflexivity]. split; [exact H1|]. lia.
  - apply Nat.ltb_ge in E1. split; [|reflexivity]. split; [exact H1|]. lia.
Qed.

Lemma videosChanged_pages (vs : list VideoAsset) (s : State) :
  mounted s = true -> (1 <= currentPage s)%nat ->
  pageInvariant (videosChanged vs s) /\ videos (videosChanged vs s) = vs.
Proof.
  intros Hm H1. unfold videosChanged, staleCleanup.
  match goal with
  | |- context [fold_right (dropIfStale ?cur) ?x ?l] =>
      destruct (dropStale_shape cur l x) as (k & r & c & ->)
  end.
  destruct (clampPage_pages (registerCards (set_videos vs s)) Hm H1)
    as [Hinv Hvs].
  split; [|exact Hvs].
  revert Hinv. apply pageInvariant_ext; reflexivity.
Qed.

Lemma pageTurn_pages (page : Z) (s : State) :
  mounted s = true -> pageInvariant (pageTurn page s).
Proof.
  intros Hm. unfold pageTurn.
  assert (H1 : (1 <= currentPage (registerCards (goToPage page s)))%nat).
  { unfold goToPage, setCurrentPage. rewrite Hm. simpl. lia. }
  assert (Hm' : mounted (registerCards (goToPage page s)) = true).
  { unfold goToPage, setCurrentPage. rewrite Hm. reflexivity. }
  destruct (clampPage_pages _ Hm' H1) as [Hinv _].
  revert Hinv. apply pageInvariant_ext; reflexivity.
Qed.

Lemma library_fields (s s' : State) :
  libraryPart s' = libraryPart s ->
  videos s' = videos s /\ currentPage s' = currentPage s
  /\ thumbnails s' = thumbnails s
  /\ loadingThumbnails s' = loadingThumbnails s
  /\ requestedThumbnails s' = requestedThumbnails s
  /\ thumbnailRequests s' = thumbnailRequests s
  /\ thumbnailCache s' = thumbnailCache s
  /\ videoCardRefs s' = videoCardRefs s
  /\ deleted s' = deleted s.
Proof.
  unfold libraryPart. intros H. injection H as -> -> -> -> -> -> -> -> ->.
  repeat split.
Qed.

Lemma job_event_pages (s : State) (e : Event) :
  match e with
  | ClickOptimize _ _ | OptimizeAnswer _ _ | TimerFires _ | StatusAnswer _ _
  | TimePasses _ | Unmount => True
  | _ => False
  end ->
  pageInvariant s -> pageInvariant (step s e).
Proof.
  intros He Hinv.
  destruct (library_fields _ _ (job_event_library s e He)) as (E1 & E2 & _).
  now apply (pageInvariant_ext s).
Qed.

Lemma thumbnail_event_pages (s : State) (e : UiEvent) :
  match e with
  | Core (CardVisible _) | Core (ThumbnailAnswer _ _) | ClickRegenerate _ => True
  | _ => False
  end ->
  pageInvariant s -> pageInvariant (uiStep s e).
Proof.
  intros He Hinv.
  destruct (tuple5 _ _ _ _ _ _ _ _ _ _ (thumbnail_event_frame s e He))
    as (_ & E1 & E2 & _ & _).
  now apply (pageInvariant_ext s).
Qed.

Lemma uiStep_pages (s : State) (e : UiEvent) :
  pageInvariant s -> pageInvariant (uiStep s e).
Proof.
  intros Hinv.
  destruct e as [[v c|r o|dt|i|r rs| |id|req result|v c|vs]|video|page].
  - now apply job_event_pages.
  - now apply job_event_pages.
  - now apply job_event_pages.
  - now apply job_event_pages.
  - now apply job_event_pages.
  - now apply job_event_pages.
  - now apply thumbnail_event_pages.
  - now apply thumbnail_event_pages.
  - unfold uiStep, step. destruct (mounted s); [|exact Hinv].
    destruct (tuple5 _ _ _ _ _ _ _ _ _ _ (handleDelete_frame v c s))
      as (_ & _ & _ & E1 & E2).
    now apply (pageInvariant_ext s).
  - unfold uiStep, step. destruct (mounted s) eqn:Hm; [|exact Hinv].
    apply videosChanged_pages; [exact Hm|apply Hinv].
  - now apply thumbnail_event_pages.
  - unfold uiStep. destruct (mounted s) eqn:Hm; [|exact Hinv].
    now apply pageTurn_pages.
Qed.

Lemma uiRun_pages (es : list UiEvent) (s : State) :
  pageInvariant s -> pageInvariant (uiRun s es).
Proof.
  revert s. induction es as [|e es IH]; intros s Hs; [exact Hs|].
  simpl. apply IH. now apply uiStep_pages.
Qed.

Lemma mount_pages (vs : list VideoAsset) : pageInvariant (mount vs).
Proof.
  unfold pageInvariant. simpl. split; [lia|]. intros H. exact H.
Qed.

(** X17. The page shown always exists: from the mount on, whatever the
    clicks, answers, timers and changes of [videos], the current page is at
    least 1 and, when there are assets, at most [totalPages]; so a library
    with assets never shows an empty page. *)
Theorem X17_current_page_exists (vs : list VideoAsset) (es : list UiEvent) :
  pageInvariant (uiRun (mount vs) es)
  /\ (paginatedVideos (uiRun (mount vs) es) = [] <->
      videos (uiRun (mount vs) es) = []).
Proof.
  pose proof (uiRun_pages es (mount vs) (mount_pages vs)) as Hinv.
  split; [exact Hinv|].
  set (s := uiRun (mount vs) es) in *.
  destruct (totalPages_spec s) as (H1 & H2 & H3).
  destruct Hinv as [Hp1 Hp2].
  split.
  - intros Hnil. apply H3.
    destruct (Nat.eq_dec (totalPages s) 0%nat) as [|Hne]; [assumption|exfalso].
    assert (Hlen : length (paginatedVideos s) = 0%nat) by now rewrite Hnil.
    unfold paginatedVideos in Hlen. rewrite length_take, length_drop in Hlen.
    assert (Hlt : ((totalPages s - 1) * ITEMS_PER_PAGE < length (videos s))%nat)
      by (apply H2; lia).
    assert (Hcp : (currentPage s <= totalPages s)%nat) by (apply Hp2; lia).
    unfold ITEMS_PER_PAGE in *. nia.
  - intros Hnil. unfold paginatedVideos. rewrite Hnil.
    now rewrite drop_nil, take_nil.
Qed.

(** *** Registered cards *)

Lemma page_ids_current (s : State) (id : string) :
  id ∈ (list_to_set (asset_id <$> paginatedVideos s) : gset string) ->
  id ∈ (list_to_set (asset_id <$> videos s) : gset string).
Proof.
  rewrite !elem_of_list_to_set, !list_elem_of_fmap.
  intros (v & -> & Hv). exists v. split; [reflexivity|].
  unfold paginatedVideos in Hv.
  apply (subseteq_drop ((currentPage s - 1) * ITEMS_PER_PAGE)%nat).
  now apply (subseteq_take ITEMS_PER_PAGE).
Qed.

Lemma registerCards_cards (s : State) (cur : gset string) :
  cur = list_to_set (asset_id <$> videos s) ->
  videoCardRefs s ⊆ cur -> videoCardRefs (registerCards s) ⊆ cur.
Proof.
  intros -> Hsub id. unfold registerCards. simpl.
  rewrite elem_of_union. intros [H|H]; [now apply Hsub|].
  now apply page_ids_current.
Qed.

(** The walk of the stale-entry effect drops every key it visits that is
    not an asset of [cur], and adds none. *)
Lemma dropStale_cards (cur : gset string) (l : list string) (s : State)
    (id : string) :
  id ∈ videoCardRefs (fold_right (dropIfStale cur) s l) ->
  id ∈ videoCardRefs s /\ (id ∈ l -> id ∈ cur).
Proof.
  induction l as [|x l IH]; simpl.
  - intros H. split; [exact H|]. intros Hin. inversion Hin.
  - unfold dropIfStale at 1. destruct (decide (x ∈ cur)) as [Hx|Hx].
    + intros H. destruct (IH H) as [H1 H2]. split; [exact H1|].
      intros [->|Hin]%elem_of_cons; [exact Hx|now apply H2].
    + set (acc := fold_right (dropIfStale cur) s l) in *.
      assert (E : forall t : State,
                 videoCardRefs
                   match findVideo x (videos t) with
                   | Some video => clearThumbnailForVideo (asset_url video) t
                   | None => t
                   end = videoCardRefs t).
      { intros t. now destruct (findVideo x (videos t)). }
      rewrite E. simpl. rewrite elem_of_difference, elem_of_singleton.
      intros [H Hne]. destruct (IH H) as [H1 H2]. split; [exact H1|].
      intros [->|Hin]%elem_of_cons; [contradiction|now apply H2].
Qed.

Lemma staleCleanup_cards (s : State) :
  videoCardRefs (staleCleanup s) ⊆ list_to_set (asset_id <$> videos s)
  /\ videos (staleCleanup s) = videos s.
Proof.
  unfold staleCleanup. split.
  - intros id H. apply dropStale_cards in H as [H1 H2].
    apply H2. now apply elem_of_elements.
  - match goal with
    | |- context [fold_right (dropIfStale ?cur) ?x ?l] =>
        destruct (dropStale_shape cur l x) as (k & r & c & ->)
    end.
    reflexivity.
Qed.

Lemma videosChanged_cards (vs : list VideoAsset) (s : State) :
  videoCardRefs (videosChanged vs s)
    ⊆ list_to_set (asset_id <$> videos (videosChanged vs s)).
Proof.
  unfold videosChanged.
  set (s1 := clampPage (registerCards (set_videos vs s))).
  destruct (staleCleanup_cards s1) as [Hsub Hvs].
  apply registerCards_cards; [reflexivity|].
  change (videos (registerCards (staleCleanup s1))) with (videos (staleCleanup s1)).
  now rewrite Hvs.
Qed.

Lemma pageTurn_cards (page : Z) (s : State) :
  videoCardRefs s ⊆ list_to_set (asset_id <$> videos s) ->
  videoCardRefs (pageTurn page s)
    ⊆ list_to_set (asset_id <$> videos (pageTurn page s)).
Proof.
  intros Hsub. unfold pageTurn.
  assert (H1 : videoCardRefs (registerCards (goToPage page s))
               ⊆ list_to_set (asset_id <$> videos s)).
  { apply registerCards_cards.
    - unfold goToPage, setCurrentPage. now destruct (mounted s).
    - unfold goToPage, setCurrentPage. now destruct (mounted s). }
  assert (E : forall t, videos (clampPage t) = videos t
                        /\ videoCardRefs (clampPage t) = videoCardRefs t).
  { intros t. unfold clampPage, setCurrentPage.
    destruct (_ && _)%bool; [|easy]. now destruct (mounted t). }
  assert (Ev : videos (goToPage page s) = videos s).
  { unfold goToPage, setCurrentPage. now destruct (mounted s). }
  apply (registerCards_cards (clampPage (registerCards (goToPage page s))) _
           eq_refl).
  destruct (E (registerCards (goToPage page s))) as [E1 E2].
  rewrite E1, E2.
  change (videos (registerCards (goToPage page s))) with (videos (goToPage page s)).
  now rewrite Ev.
Qed.

Lemma handleDelete_cards (v : VideoAsset) (c : bool) (s : State) :
  videoCardRefs (handleDelete v c s) ⊆ videoCardRefs s.
Proof.
  unfold handleDelete, clearThumbnailForVideo, setThumbnails,
    setSelectedVideoId.
  cases; simpl; try reflexivity;
    intros x; rewrite elem_of_difference; tauto.
Qed.

Lemma uiStep_cards (s : State) (e : UiEvent) :
  videoCardRefs s ⊆ list_to_set (asset_id <$> videos s) ->
  videoCardRefs (uiStep s e) ⊆ list_to_set (asset_id <$> videos (uiStep s e)).
Proof.
  intros Hinv.
  assert (Hjob : forall e0,
             match e0 with
             | ClickOptimize _ _ | OptimizeAnswer _ _ | TimerFires _
             | StatusAnswer _ _ | TimePasses _ | Unmount => True
             | _ => False
             end ->
             videoCardRefs (step s e0)
               ⊆ list_to_set (asset_id <$> videos (step s e0))).
  { intros e0 He.
    destruct (library_fields _ _ (job_event_library s e0 He))
      as (-> & _ & _ & _ & _ & _ & _ & -> & _).
    exact Hinv. }
  assert (Hthumb : forall e0,
             match e0 with
             | Core (CardVisible _) | Core (ThumbnailAnswer _ _)
             | ClickRegenerate _ => True
             | _ => False
             end ->
             videoCardRefs (uiStep s e0)
               ⊆ list_to_set (asset_id <$> videos (uiStep s e0))).
  { intros e0 He.
    destruct (tuple5 _ _ _ _ _ _ _ _ _ _ (thumbnail_event_frame s e0 He))
      as (_ & -> & _ & -> & _).
    exact Hinv. }
  destruct e as [[v c|r o|dt|i|r rs| |id|req result|v c|vs]|video|page];
    try (now apply Hjob); try (now apply Hthumb).
  - unfold uiStep, step. destruct (mounted s); [|exact Hinv].
    destruct (tuple5 _ _ _ _ _ _ _ _ _ _ (handleDelete_frame v c s))
      as (_ & _ & _ & -> & _).
    etransitivity; [apply handleDelete_cards|exact Hinv].
  - unfold uiStep, step. destruct (mounted s); [|exact Hinv].
    apply videosChanged_cards.
  - unfold uiStep. destruct (mounted s); [|exact Hinv].
    now apply pageTurn_cards.
Qed.

(** X18. The registered cards are cards of current assets: from the mount
    on, after every event, every key of [videoCardRefs] is the id of an
    asset of [videos]. The stale-entry effect is what keeps it so when
    [videos] changes. *)
Theorem X18_registered_cards_are_current
    (vs : list VideoAsset) (es : list UiEvent) :
  videoCardRefs (uiRun (mount vs) es)
    ⊆ list_to_set (asset_id <$> videos (uiRun (mount vs) es)).
Proof.
  assert (G : forall s,
             videoCardRefs s ⊆ list_to_set (asset_id <$> videos s) ->
             videoCardRefs (uiRun s es)
               ⊆ list_to_set (asset_id <$> videos (uiRun s es))).
  { induction es as [|e es IH]; intros s Hs; [exact Hs|].
    simpl. apply IH. now apply uiStep_cards. }
  apply G. unfold mount. apply registerCards_cards; [reflexivity|].
  simpl. set_solver.
Qed.

(** *** What is handed to [onDelete] *)

Lemma handleDelete_deleted (v : VideoAsset) (c : bool) (s : State) :
  deleted (handleDelete v c s) = deleted s
  \/ (deleted (handleDelete v c s) = deleted s ++ [v]
      /\ hlsPath (pathToDelete v) = false
      /\ (asset_id v ∉ optimizingVideos s) /\ c = true).
Proof.
  unfold handleDelete, hlsPath.
  destruct (_ || _ || _)%bool eqn:E; [now left|].
  destruct (decide (asset_id v ∈ optimizingVideos s)); [now left|].
  destruct c; [|now left]. right.
  split; [|now repeat split].
  unfold clearThumbnailForVideo, setThumbnails, setSelectedVideoId.
  cases; reflexivity.
Qed.

Lemma uiStep_deleted (s : State) (e : UiEvent) :
  Forall (fun v => hlsPath (pathToDelete v) = false) (deleted s) ->
  Forall (fun v => hlsPath (pathToDelete v) = false) (deleted (uiStep s e)).
Proof.
  intros Hinv.
  destruct e as [[v c|r o|dt|i|r rs| |id|req result|v c|vs]|video|page];
    try (match goal with
         | |- context [uiStep s (Core ?e0)] =>
             destruct (library_fields _ _ (job_event_library s e0 I))
               as (_ & _ & _ & _ & _ & _ & _ & _ & E);
             unfold uiStep; rewrite E; exact Hinv
         end);
    try (match goal with
         | |- context [uiStep s ?e0] =>
             destruct (tuple5 _ _ _ _ _ _ _ _ _ _ (thumbnail_event_frame s e0 I))
               as (_ & _ & _ & _ & E);
             rewrite E; exact Hinv
         end).
  - unfold uiStep, step. destruct (mounted s); [|exact Hinv].
    destruct (handleDelete_deleted v c s) as [->|(-> & H & _)]; [exact Hinv|].
    apply Forall_app. split; [exact Hinv|]. now constructor.
  - unfold uiStep, step. destruct (mounted s); [|exact Hinv].
    destruct (tuple5 _ _ _ _ _ _ _ _ _ _ (videosChanged_frame vs s))
      as (_ & _ & _ & _ & E).
    rewrite E. exact Hinv.
  - unfold uiStep. destruct (mounted s); [|exact Hinv].
    destruct (tuple6 _ _ _ _ _ _ _ _ _ _ _ _ (pageTurn_frame page s))
      as (_ & _ & _ & _ & _ & E).
    rewrite E. exact Hinv.
Qed.

(** X19. No HLS file is ever handed to [onDelete]: from the mount on,
    whatever the events, the path of every asset passed to the parent for
    deletion neither contains [/hls/] nor ends in [.m3u8] or [.ts]. *)
Theorem X19_hls_never_deleted (vs : list VideoAsset) (es : list UiEvent) :
  Forall (fun v => hlsPath (pathToDelete v) = false)
    (deleted (uiRun (mount vs) es)).
Proof.
  assert (G : forall s,
             Forall (fun v => hlsPath (pathToDelete v) = false) (deleted s) ->
             Forall (fun v => hlsPath (pathToDelete v) = false)
               (deleted (uiRun s es))).
  { induction es as [|e es IH]; intros s Hs; [exact Hs|].
    simpl. apply IH. now apply uiStep_deleted. }
  apply G. constructor.
Qed.

End SessionProperties.

(** ** One unit of work per asset *)

Section JobInvariantFacts.

Import JS JSString VideoLibrary LibraryMore.
Local Open Scope Z_scope.

Ltac cases :=
  repeat match goal with
         | |- context [match ?x with _ => _ end] => destruct x eqn:?
         end.

(** *** Three ways to keep the invariant *)

Lemma jobInvariant_same (s s' : State) :
  timers s' = timers s -> statusRequests s' = statusRequests s ->
  optimizeRequests s' = optimizeRequests s ->
  optimizingVideos s' = optimizingVideos s ->
  jobInvariant s -> jobInvariant s'.
Proof.
  intros E1 E2 E3 E4.
  assert (W : forall w, workAsset s' w = workAsset s w).
  { intros [id|req|req]; simpl; congruence. }
  unfold jobInvariant. intros [H1 H2]. split.
  - intros w v. rewrite W, E4. apply H1.
  - intros w w' v. rewrite !W. apply H2.
Qed.

Lemma jobInvariant_ext (s s' : State) :
  jobPart s' = jobPart s -> jobInvariant s -> jobInvariant s'.
Proof.
  unfold jobPart. intros E.
  destruct (tuple7 _ _ _ _ _ _ _ _ _ _ _ _ _ _ E) as (E1 & E2 & E3 & E4 & _).
  now apply jobInvariant_same.
Qed.

(** Work only goes away, and what stays keeps its mark. *)
Lemma inv_shrink (s s' : State) :
  jobInvariant s ->
  (forall w v, workAsset s' w = Some v -> workAsset s w = Some v) ->
  (forall w v, workAsset s' w = Some v -> v ∈ optimizingVideos s ->
               v ∈ optimizingVideos s') ->
  jobInvariant s'.
Proof.
  intros [H1 H2] Hw Hm. split.
  - intros w v H. apply (Hm w v H). apply (H1 w). now apply Hw.
  - intros w w' v H H'. apply (H2 w w' v); now apply Hw.
Qed.

(** One unit is added for an asset that had none. *)
Lemma inv_add (s s' : State) (w0 : Work) (v0 : string) :
  jobInvariant s -> idle s v0 ->
  v0 ∈ optimizingVideos s' ->
  optimizingVideos s ⊆ optimizingVideos s' ->
  (forall w v, workAsset s' w = Some v ->
               workAsset s w = Some v \/ (w = w0 /\ v = v0)) ->
  jobInvariant s'.
Proof.
  intros [H1 H2] Hidle Hv0 Hsub Hw. split.
  - intros w v H. destruct (Hw w v H) as [H'|[_ ->]]; [|exact Hv0].
    apply Hsub. now apply (H1 w).
  - intros w w' v H H'.
    destruct (Hw w v H) as [Hs|[Ew Ev]], (Hw w' v H') as [Hs'|[Ew' Ev']].
    + now apply (H2 w w' v).
    + subst. now destruct (Hidle w).
    + subst. now destruct (Hidle w').
    + congruence.
Qed.

Lemma idle_shrink (s s' : State) (v : string) :
  idle s v ->
  (forall w u, workAsset s' w = Some u -> workAsset s w = Some u) ->
  idle s' v.
Proof. intros Hidle Hw w H. apply (Hidle w). now apply Hw. Qed.

(** Taking a unit of work from the environment leaves its asset without
    any. *)
Lemma inv_consume (s s' : State) (w0 : Work) (v0 : string) :
  jobInvariant s -> workAsset s w0 = Some v0 ->
  (forall w v, workAsset s' w = Some v -> workAsset s w = Some v /\ w <> w0) ->
  optimizingVideos s' = optimizingVideos s ->
  jobInvariant s' /\ idle s' v0 /\ v0 ∈ optimizingVideos s'.
Proof.
  intros Hinv H0 Hw Hopt. split; [|split].
  - apply (inv_shrink s); [exact Hinv| |].
    + intros w v H. now apply Hw.
    + intros w v _. now rewrite Hopt.
  - intros w H. destruct (Hw w v0 H) as [Hs Hne].
    apply Hne. now apply (proj2 Hinv w w0 v0).
  - rewrite Hopt. now apply (proj1 Hinv w0).
Qed.

(** *** Work after each write *)

Lemma work_delete_timer (id : Z) (s : State) (w : Work) (v : string) :
  workAsset (clearTimeout id s) w = Some v ->
  workAsset s w = Some v /\ w <> WTimer id.
Proof.
  destruct w as [i|r|r]; simpl; [|now split..].
  rewrite !fmap_Some. intros (x & Hx & ->).
  apply lookup_delete_Some in Hx as [Hne Hx].
  split; [now exists x|congruence].
Qed.

Lemma work_delete_status (req : Z) (s : State) (w : Work) (v : string) :
  workAsset (set_statusRequests (delete req (statusRequests s)) s) w = Some v ->
  workAsset s w = Some v /\ w <> WStatus req.
Proof.
  destruct w as [i|r|r]; simpl; [now split| |now split].
  rewrite !fmap_Some. intros (x & Hx & ->).
  apply lookup_delete_Some in Hx as [Hne Hx].
  split; [now exists x|congruence].
Qed.

Lemma work_delete_optimize (req : Z) (s : State) (w : Work) (v : string) :
  workAsset (set_optimizeRequests (delete req (optimizeRequests s)) s) w = Some v ->
  workAsset s w = Some v /\ w <> WOptimize req.
Proof.
  destruct w as [i|r|r]; simpl; [now split..|].
  rewrite !fmap_Some. intros (x & Hx & ->).
  apply lookup_delete_Some in Hx as [Hne Hx].
  split; [now exists x|congruence].
Qed.

Lemma work_fetchStatus (p : Poll) (s : State) (w : Work) (v : string) :
  workAsset (fetchStatus p s) w = Some v ->
  workAsset s w = Some v \/ (w = WStatus (nextRequest s) /\ v = videoId p).
Proof.
  destruct w as [i|r|r]; simpl; [now left| |now left].
  rewrite !fmap_Some. intros (x & Hx & ->).
  apply lookup_insert_Some in Hx as [[<- <-]|[Hne Hx]].
  - now right.
  - left. now exists x.
Qed.

Lemma work_setTimeout (p : Poll) (delay : Z) (s : State) (w : Work) (v : string) :
  workAsset (setTimeout p delay s).2 w = Some v ->
  workAsset s w = Some v \/ (w = WTimer (nextTimer s) /\ v = videoId p).
Proof.
  destruct w as [i|r|r]; simpl; [|now left..].
  rewrite !fmap_Some. intros (x & Hx & ->).
  apply lookup_insert_Some in Hx as [[<- <-]|[Hne Hx]].
  - now right.
  - left. now exists x.
Qed.

Lemma work_set_pollingTasksRef (v : gmap string PollingTask) (s : State) (w : Work) :
  workAsset (set_pollingTasksRef v s) w = workAsset s w.
Proof. now destruct w. Qed.

Lemma work_alert (n : Notice) (s : State) (w : Work) :
  workAsset (alert n s) w = workAsset s w.
Proof. now destruct w. Qed.

Lemma work_setOptimizingVideos (f : gset string -> gset string) (s : State)
    (w : Work) :
  workAsset (setOptimizingVideos f s) w = workAsset s w.
Proof. unfold setOptimizingVideos. destruct (mounted s); now destruct w. Qed.

(** *** The functions of the poller *)

Lemma cleanup_work (p : Poll) (s : State) (w : Work) (v : string) :
  workAsset (cleanup p s) w = Some v -> workAsset s w = Some v.
Proof.
  unfold cleanup.
  rewrite work_setOptimizingVideos, work_set_pollingTasksRef.
  destruct (pollingTasksRef s !! taskId p) as [task|]; [|easy].
  destruct (timeoutId task =? 0); [easy|].
  intros H. now apply work_delete_timer in H.
Qed.

Lemma cleanup_marks (p : Poll) (s : State) (u : string) :
  u ∈ optimizingVideos s -> u <> videoId p ->
  u ∈ optimizingVideos (cleanup p s).
Proof.
  intros Hu Hne. unfold cleanup, setOptimizingVideos.
  destruct (pollingTasksRef s !! taskId p) as [task|];
    [destruct (timeoutId task =? 0)|];
    simpl; destruct (mounted s); simpl; try exact Hu;
    apply elem_of_difference; split; try exact Hu;
    now rewrite elem_of_singleton.
Qed.

Lemma cleanup_inv (p : Poll) (s : State) :
  jobInvariant s -> idle s (videoId p) -> jobInvariant (cleanup p s).
Proof.
  intros Hinv Hidle. apply (inv_shrink s); [exact Hinv|apply cleanup_work|].
  intros w v H Hv. apply cleanup_marks; [exact Hv|].
  intros ->. apply (Hidle w). now apply cleanup_work in H.
Qed.

Lemma alert_inv (n : Notice) (s : State) :
  jobInvariant s -> jobInvariant (alert n s).
Proof. now apply jobInvariant_same. Qed.

Lemma alert_idle (n : Notice) (s : State) (v : string) :
  idle s v -> idle (alert n s) v.
Proof. intros H w. rewrite work_alert. apply H. Qed.

Lemma fetchStatus_inv (p : Poll) (s : State) :
  jobInvariant s -> idle s (videoId p) -> videoId p ∈ optimizingVideos s ->
  jobInvariant (fetchStatus p s).
Proof.
  intros Hinv Hidle Hv.
  apply (inv_add s _ (WStatus (nextRequest s)) (videoId p));
    [exact Hinv|exact Hidle|exact Hv|reflexivity|apply work_fetchStatus].
Qed.

Lemma checkStatus_inv (p : Poll) (s : State) :
  jobInvariant s -> idle s (videoId p) -> videoId p ∈ optimizingVideos s ->
  jobInvariant (checkStatus p s).
Proof.
  intros Hinv Hidle Hv. unfold checkStatus.
  destruct (pollingTasksRef s !! taskId p) as [task|];
    [|now apply cleanup_inv].
  destruct (aborted task); [now apply cleanup_inv|].
  destruct (now s - startTime p >? OPTIMIZE_TIMEOUT).
  - apply cleanup_inv; [now apply alert_inv|now apply alert_idle].
  - now apply fetchStatus_inv.
Qed.

Lemma schedule_inv (p : Poll) (delay : Z) (s : State)
    (reg : gmap string PollingTask -> gmap string PollingTask) :
  jobInvariant s -> idle s (videoId p) -> videoId p ∈ optimizingVideos s ->
  jobInvariant
    (set_pollingTasksRef (reg (pollingTasksRef (setTimeout p delay s).2))
       (setTimeout p delay s).2).
Proof.
  intros Hinv Hidle Hv.
  apply (inv_add s _ (WTimer (nextTimer s)) (videoId p));
    [exact Hinv|exact Hidle|exact Hv|reflexivity|].
  intros w v. rewrite work_set_pollingTasksRef. apply work_setTimeout.
Qed.

Lemma checkStatusResume_inv (p : Poll) (r : Response) (s : State) :
  jobInvariant s -> idle s (videoId p) -> videoId p ∈ optimizingVideos s ->
  jobInvariant (checkStatusResume p r s).
Proof.
  intros Hinv Hidle Hv. unfold checkStatusResume.
  destruct r as [|status error].
  - destruct (_ <? 3).
    + destruct (pollingTasksRef s !! taskId p) as [task|]; [|exact Hinv].
      apply (schedule_inv p (POLL_INTERVAL * 2) s
               (fun m => <[taskId p := _]> m)); assumption.
    + apply cleanup_inv; [now apply alert_inv|now apply alert_idle].
  - destruct (String.eqb status "completed");
      [apply cleanup_inv; [now apply alert_inv|now apply alert_idle]|].
    destruct (String.eqb status "failed");
      [apply cleanup_inv; [now apply alert_inv|now apply alert_idle]|].
    change (let '(id, s1) := setTimeout p POLL_INTERVAL s in
            match pollingTasksRef s1 !! taskId p with
            | Some currentTask =>
                set_pollingTasksRef
                  (<[taskId p := {| timeoutId := id;
                                    aborted := aborted currentTask;
                                    retryCount := retryCount currentTask |}]>
                     (pollingTasksRef s1)) s1
            | None => s1
            end)
      with (match pollingTasksRef s !! taskId p with
            | Some currentTask =>
                set_pollingTasksRef
                  (<[taskId p := {| timeoutId := nextTimer s;
                                    aborted := aborted currentTask;
                                    retryCount := retryCount currentTask |}]>
                     (pollingTasksRef (setTimeout p POLL_INTERVAL s).2))
                  (setTimeout p POLL_INTERVAL s).2
            | None => (setTimeout p POLL_INTERVAL s).2
            end).
    destruct (pollingTasksRef s !! taskId p) as [task|].
    + apply (schedule_inv p POLL_INTERVAL s (fun m => <[taskId p := _]> m));
        assumption.
    + apply (inv_add s _ (WTimer (nextTimer s)) (videoId p));
        [exact Hinv|exact Hidle|exact Hv|reflexivity|apply work_setTimeout].
Qed.

Lemma pollOptimizeTask_inv (task video : string) (s : State) :
  jobInvariant s -> idle s video -> video ∈ optimizingVideos s ->
  jobInvariant (pollOptimizeTask task video s).
Proof.
  intros Hinv Hidle Hv. unfold pollOptimizeTask.
  apply checkStatus_inv.
  - revert Hinv. now apply jobInvariant_same.
  - intros w. rewrite work_set_pollingTasksRef. apply Hidle.
  - exact Hv.
Qed.

Lemma handleOptimizeResume_inv (video : VideoAsset) (r : option string)
    (s : State) :
  jobInvariant s -> idle s (asset_id video) ->
  asset_id video ∈ optimizingVideos s ->
  jobInvariant (handleOptimizeResume video r s).
Proof.
  intros Hinv Hidle Hv. unfold handleOptimizeResume. destruct r as [task|].
  - apply pollOptimizeTask_inv;
      [now apply alert_inv|now apply alert_idle|exact Hv].
  - apply (inv_shrink s); [exact Hinv| |].
    + intros w v. now rewrite work_setOptimizingVideos, work_alert.
    + intros w v H Hin. rewrite work_setOptimizingVideos, work_alert in H.
      unfold setOptimizingVideos. simpl.
      destruct (mounted s); simpl; [|exact Hin].
      apply elem_of_difference. split; [exact Hin|].
      rewrite elem_of_singleton. intros ->. now apply (Hidle w).
Qed.

Lemma handleOptimize_inv (video : VideoAsset) (confirmed : bool) (s : State) :
  mounted s = true -> jobInvariant s ->
  jobInvariant (handleOptimize video confirmed s).
Proof.
  intros Hm Hinv. unfold handleOptimize.
  destruct (decide (asset_id video ∈ optimizingVideos s)) as [Hin|Hout];
    [now apply alert_inv|].
  destruct confirmed; [|exact Hinv]. simpl negb. cbv iota.
  assert (Hidle : idle s (asset_id video)).
  { intros w H. apply Hout. now apply (proj1 Hinv w). }
  unfold setOptimizingVideos. rewrite Hm.
  apply (inv_add s _ (WOptimize (nextRequest s)) (asset_id video));
    [exact Hinv|exact Hidle| | |].
  - simpl. apply elem_of_union_r. now apply elem_of_singleton.
  - simpl. apply union_subseteq_l.
  - intros [i|r|r] v; simpl; [now left..|].
    rewrite !fmap_Some. intros (x & Hx & ->).
    apply lookup_insert_Some in Hx as [[<- <-]|[Hne Hx]].
    + now right.
    + left. now exists x.
Qed.

Lemma unmount_inv (s : State) : jobInvariant s -> jobInvariant (unmount s).
Proof.
  intros Hinv. unfold unmount. rewrite abortAll_shape.
  apply (inv_shrink s); [exact Hinv| |].
  - intros [i|r|r] v; simpl; [|easy..].
    rewrite !fmap_Some. intros (x & Hx & ->). exists x. split; [|reflexivity].
    unfold abortAll in Hx. simpl in Hx. now apply clearTimers_subset in Hx.
  - intros w v _ H. exact H.
Qed.

(** *** Every event keeps the invariant *)

Lemma step_inv (s : State) (e : Event) :
  jobInvariant s -> jobInvariant (step s e).
Proof.
  intros Hinv.
  destruct e as [v c|r o|dt|i|r rs| |id|req result|v c|vs]; unfold step.
  - destruct (mounted s) eqn:Hm; [|exact Hinv]. now apply handleOptimize_inv.
  - destruct (optimizeRequests s !! r) as [video|] eqn:Hr; [|exact Hinv].
    destruct (inv_consume s (set_optimizeRequests (delete r (optimizeRequests s)) s)
                (WOptimize r) (asset_id video) Hinv)
      as (H1 & H2 & H3);
      [simpl; now rewrite Hr|apply work_delete_optimize|reflexivity|].
    now apply handleOptimizeResume_inv.
  - destruct (0 <=? dt); [|exact Hinv].
    revert Hinv. now apply jobInvariant_same.
  - destruct (timers s !! i) as [[due p]|] eqn:Hi; [|exact Hinv].
    destruct (due <=? now s); [|exact Hinv].
    destruct (inv_consume s (clearTimeout i s) (WTimer i) (videoId p) Hinv)
      as (H1 & H2 & H3);
      [simpl; now rewrite Hi|apply work_delete_timer|reflexivity|].
    now apply checkStatus_inv.
  - destruct (statusRequests s !! r) as [p|] eqn:Hr; [|exact Hinv].
    destruct (inv_consume s (set_statusRequests (delete r (statusRequests s)) s)
                (WStatus r) (videoId p) Hinv)
      as (H1 & H2 & H3);
      [simpl; now rewrite Hr|apply work_delete_status|reflexivity|].
    now apply checkStatusResume_inv.
  - destruct (mounted s); [|exact Hinv]. now apply unmount_inv.
  - pose proof (thumbnail_event_frame s (Core (CardVisible id)) I) as E.
    destruct (tuple5 _ _ _ _ _ _ _ _ _ _ E) as (E1 & _).
    revert Hinv. now apply jobInvariant_ext.
  - pose proof (thumbnail_event_frame s (Core (ThumbnailAnswer req result)) I) as E.
    destruct (tuple5 _ _ _ _ _ _ _ _ _ _ E) as (E1 & _).
    revert Hinv. now apply jobInvariant_ext.
  - destruct (mounted s); [|exact Hinv].
    destruct (tuple5 _ _ _ _ _ _ _ _ _ _ (handleDelete_frame v c s)) as (E1 & _).
    revert Hinv. now apply jobInvariant_ext.
  - destruct (mounted s); [|exact Hinv].
    destruct (tuple5 _ _ _ _ _ _ _ _ _ _ (videosChanged_frame vs s)) as (E1 & _).
    revert Hinv. now apply jobInvariant_ext.
Qed.

Lemma uiStep_inv (s : State) (e : UiEvent) :
  jobInvariant s -> jobInvariant (uiStep s e).
Proof.
  intros Hinv. destruct e as [e|video|page].
  - now apply step_inv.
  - pose proof (thumbnail_event_frame s (ClickRegenerate video) I) as E.
    destruct (tuple5 _ _ _ _ _ _ _ _ _ _ E) as (E1 & _).
    revert Hinv. now apply jobInvariant_ext.
  - unfold uiStep. destruct (mounted s); [|exact Hinv].
    destruct (tuple6 _ _ _ _ _ _ _ _ _ _ _ _ (pageTurn_frame page s)) as (E1 & _).
    revert Hinv. now apply jobInvariant_ext.
Qed.

Lemma uiRun_inv (es : list UiEvent) (s : State) :
  jobInvariant s -> jobInvariant (uiRun s es).
Proof.
  revert s. induction es as [|e es IH]; intros s Hs; [exact Hs|].
  simpl. apply IH. now apply uiStep_inv.
Qed.

Lemma mount_inv (vs : list VideoAsset) : jobInvariant (mount vs).
Proof.
  split.
  - intros [i|r|r] v; simpl; rewrite lookup_empty; discriminate.
  - intros [i|r|r] w' v; simpl; rewrite lookup_empty; discriminate.
Qed.

(** X20. One unit of work per asset. From the mount on, whatever the
    clicks, the answers of the server (in any order, also after the
    unmount), the timers and the changes of [videos]: every pending timer,
    status request and optimize request belongs to an asset that is marked
    as optimizing, and no asset has two of them pending at once. *)
Theorem X20_one_job_per_asset (vs : list VideoAsset) (es : list UiEvent) :
  jobInvariant (uiRun (mount vs) es).
Proof. apply uiRun_inv, mount_inv. Qed.

End JobInvariantFacts.

(** ** Consequences for the buttons, and the deadline of a job *)

Section JobProperties.

Import JS JSString VideoLibrary LibraryMore.
Local Open Scope Z_scope.

Ltac cases :=
  repeat match goal with
         | |- context [match ?x with _ => _ end] => destruct x eqn:?
         end.

(** X21. An asset with work pending is protected: in every state reached
    from the mount, while a timer, a status request or an optimize request
    of an asset is pending, a click on its Optimize button only shows
    "already optimizing", and a click on its Delete button only shows a
    notice and hands nothing to [onDelete]. *)
Theorem X21_busy_asset_is_protected
    (vs : list VideoAsset) (es : list UiEvent) (video : VideoAsset) (w : Work)
    (confirmed : bool) :
  workAsset (uiRun (mount vs) es) w = Some (asset_id video) ->
  handleOptimize video confirmed (uiRun (mount vs) es)
  = alert AlreadyOptimizing (uiRun (mount vs) es)
  /\ exists n,
      handleDelete video confirmed (uiRun (mount vs) es)
      = alert n (uiRun (mount vs) es)
      /\ (n = CannotDeleteHls \/ n = CannotDeleteOptimizing).
Proof.
  intros Hw.
  pose proof (uiRun_inv es (mount vs) (mount_inv vs)) as [H1 _].
  apply H1 in Hw. set (s := uiRun (mount vs) es) in *.
  split.
  - unfold handleOptimize. now destruct (decide _).
  - unfold handleDelete. destruct (_ || _ || _)%bool.
    + exists CannotDeleteHls. split; [reflexivity|now left].
    + destruct (decide _); [|contradiction].
      exists CannotDeleteOptimizing. split; [reflexivity|now right].
Qed.

Lemma X21_busy_asset_is_protected_witness :
  handleOptimize assetA true jobStarted = alert AlreadyOptimizing jobStarted
  /\ exists n,
      handleDelete assetA true jobStarted = alert n jobStarted
      /\ (n = CannotDeleteHls \/ n = CannotDeleteOptimizing).
Proof.
  apply (X21_busy_asset_is_protected [assetA]
           [Core (ClickOptimize assetA true);
            Core (OptimizeAnswer 1 (Some "t1"%string))]
           assetA (WStatus 2) true).
  vm_compute. reflexivity.
Defined.

(** X22. The deadline of a job. When the check of a live job runs more
    than five minutes after the job began, it shows the timeout notice,
    removes the job from the registry, unmarks the asset and asks the server
    nothing, whatever the retry counter; within the five minutes it shows
    nothing and sends exactly one status request. *)
Theorem X22_deadline_of_a_job (p : Poll) (s : State) (task : PollingTask) :
  pollingTasksRef s !! taskId p = Some task -> aborted task = false ->
  (now s - startTime p > OPTIMIZE_TIMEOUT ->
   alerts (checkStatus p s) = alerts s ++ [OptimizeTimedOut]
   /\ pollingTasksRef (checkStatus p s) !! taskId p = None
   /\ statusRequests (checkStatus p s) = statusRequests s
   /\ (mounted s = true -> videoId p ∉ optimizingVideos (checkStatus p s)))
  /\ (now s - startTime p <= OPTIMIZE_TIMEOUT ->
      checkStatus p s = fetchStatus p s
      /\ alerts (checkStatus p s) = alerts s
      /\ statusRequests (checkStatus p s)
         = <[nextRequest s := p]> (statusRequests s)
      /\ pollingTasksRef (checkStatus p s) = pollingTasksRef s
      /\ optimizingVideos (checkStatus p s) = optimizingVideos s).
Proof.
  intros Hreg Hlive. split; intros Ht; unfold checkStatus;
    rewrite Hreg, Hlive.
  - assert (E : (now s - startTime p >? OPTIMIZE_TIMEOUT) = true)
      by (apply Z.gtb_lt; lia).
    rewrite E.
    destruct (cleanup_tears_down p (alert OptimizeTimedOut s) task Hreg)
      as (H1 & _ & H3 & H4).
    split; [exact H4|]. split; [exact H1|]. split; [|exact H3].
    unfold cleanup, setOptimizingVideos, clearTimeout. cases; reflexivity.
  - assert (E : (now s - startTime p >? OPTIMIZE_TIMEOUT) = false).
    { destruct (_ >? _) eqn:E; [|reflexivity]. apply Z.gtb_lt in E. lia. }
    rewrite E. repeat split.
Qed.

Lemma X22_deadline_of_a_job_witness :
  alerts (checkStatus pollA (step jobStarted (TimePasses 300001)))
  = alerts (step jobStarted (TimePasses 300001)) ++ [OptimizeTimedOut]
  /\ statusRequests (checkStatus pollA (step jobStarted (TimePasses 300001)))
     = statusRequests (step jobStarted (TimePasses 300001)).
Proof.
  destruct (X22_deadline_of_a_job pollA (step jobStarted (TimePasses 300001))
              {| timeoutId := 0; aborted := false; retryCount := None |})
    as [H _]; [reflexivity|reflexivity|].
  destruct H as (H1 & _ & H3 & _); [vm_compute; reflexivity|].
  split; assumption.
Defined.

End JobProperties.

(** ** LazyResourceLoader: one acquisition per asset *)

Section ThumbnailInvariantFacts.

Import JS JSString VideoLibrary LibraryMore.
Local Open Scope Z_scope.

Ltac cases :=
  repeat match goal with
         | |- context [match ?x with _ => _ end] => destruct x eqn:?
         end.

Lemma thumbnailInvariant_ext (s s' : State) :
  thumbnailRequests s' = thumbnailRequests s ->
  loadingThumbnails s' = loadingThumbnails s ->
  thumbnailInvariant s -> thumbnailInvariant s'.
Proof. unfold thumbnailInvariant. now intros -> ->. Qed.

Lemma generateThumbnailOf_inv (view : State) (video : VideoAsset) (s : State) :
  mounted s = true -> loadingThumbnails view = loadingThumbnails s ->
  thumbnailInvariant s -> thumbnailInvariant (generateThumbnailOf view video s).
Proof.
  intros Hm Hview [H1 H2]. unfold generateThumbnailOf.
  destruct (hasThumbnail (asset_id video) view); [now split|].
  rewrite Hview. simpl orb.
  destruct (bool_decide (asset_id video ∈ loadingThumbnails s)) eqn:Hl;
    [now split|].
  apply bool_decide_eq_false in Hl.
  destruct (bool_decide (asset_id video ∈ requestedThumbnails s));
    [now split|].
  simpl orb. cbv iota. unfold setLoadingThumbnails.
  change (mounted (set_requestedThumbnails _ s)) with (mounted s). rewrite Hm.
  unfold thumbnailInvariant. simpl. split.
  - intros req v Hreq. apply lookup_insert_Some in Hreq as [[_ <-]|[_ Hreq]].
    + apply elem_of_union_r. now apply elem_of_singleton.
    + apply elem_of_union_l. now apply (H1 req).
  - intros req req' v v' Hreq Hreq' Hid.
    apply lookup_insert_Some in Hreq as [[<- <-]|[Hne Hreq]];
      apply lookup_insert_Some in Hreq' as [[<- <-]|[Hne' Hreq']].
    + reflexivity.
    + exfalso. apply Hl. rewrite Hid. now apply (H1 req').
    + exfalso. apply Hl. rewrite <- Hid. now apply (H1 req).
    + now apply (H2 req req' v v').
Qed.

Lemma thumbnailAnswer_inv (req : Z) (video : VideoAsset) (r : option string)
    (s : State) :
  thumbnailRequests s !! req = Some video ->
  thumbnailInvariant s ->
  thumbnailInvariant
    (generateThumbnailResume video r
       (set_thumbnailRequests (delete req (thumbnailRequests s)) s)).
Proof.
  intros Hreq [H1 H2].
  assert (E : forall t : State,
             thumbnailRequests (generateThumbnailResume video r t)
             = thumbnailRequests t
             /\ (loadingThumbnails (generateThumbnailResume video r t)
                 = loadingThumbnails t
                 \/ loadingThumbnails (generateThumbnailResume video r t)
                    = loadingThumbnails t ∖ {[asset_id video]})).
  { intros t. unfold generateThumbnailResume, setLoadingThumbnails,
      setThumbnails.
    cases; simpl; auto. }
  destruct (E (set_thumbnailRequests (delete req (thumbnailRequests s)) s))
    as [Er El].
  unfold thumbnailInvariant. rewrite Er. simpl. split.
  - intros req0 v Hreq0. apply lookup_delete_Some in Hreq0 as [Hne Hreq0].
    destruct El as [->| ->]; simpl; [now apply (H1 req0)|].
    apply elem_of_difference. split; [now apply (H1 req0)|].
    rewrite elem_of_singleton. intros Hid. apply Hne.
    now apply (H2 req req0 video v).
  - intros req0 req1 v v' Hreq0 Hreq1 Hid.
    apply lookup_delete_Some in Hreq0 as [_ Hreq0].
    apply lookup_delete_Some in Hreq1 as [_ Hreq1].
    now apply (H2 req0 req1 v v').
Qed.

Lemma uiStep_thumbnails (s : State) (e : UiEvent) :
  thumbnailInvariant s -> thumbnailInvariant (uiStep s e).
Proof.
  intros Hinv.
  assert (Hjob : forall e0,
             match e0 with
             | ClickOptimize _ _ | OptimizeAnswer _ _ | TimerFires _
             | StatusAnswer _ _ | TimePasses _ | Unmount => True
             | _ => False
             end ->
             thumbnailInvariant (step s e0)).
  { intros e0 He.
    destruct (library_fields _ _ (job_event_library s e0 He))
      as (_ & _ & _ & E1 & _ & E2 & _).
    now apply (thumbnailInvariant_ext s). }
  destruct e as [[v c|r o|dt|i|r rs| |id|req result|v c|vs]|video|page];
    try (now apply Hjob).
  - unfold uiStep, step. destruct (mounted s) eqn:Hm; [|exact Hinv].
    unfold cardVisible. destruct (decide _); [|exact Hinv].
    destruct (findVideo _ _) as [video|]; [|exact Hinv].
    now apply (generateThumbnailOf_inv s video s).
  - unfold uiStep, step.
    destruct (thumbnailRequests s !! req) as [video|] eqn:Hreq; [|exact Hinv].
    now apply thumbnailAnswer_inv.
  - unfold uiStep, step. destruct (mounted s); [|exact Hinv].
    destruct (tuple5 _ _ _ _ _ _ _ _ _ _ (handleDelete_frame v c s))
      as (_ & E1 & E2 & _).
    now apply (thumbnailInvariant_ext s).
  - unfold uiStep, step. destruct (mounted s); [|exact Hinv].
    destruct (tuple5 _ _ _ _ _ _ _ _ _ _ (videosChanged_frame vs s))
      as (_ & E1 & E2 & _).
    now apply (thumbnailInvariant_ext s).
  - unfold uiStep.
    destruct (mounted s && regenerateRendered video s) eqn:Hc; [|exact Hinv].
    apply andb_prop in Hc as [Hm _].
    unfold handleRegenerateThumbnail. cbn zeta.
    apply generateThumbnailOf_inv.
    + unfold clearThumbnailForVideo, setThumbnails. simpl. now rewrite Hm.
    + unfold clearThumbnailForVideo, setThumbnails. simpl. now rewrite Hm.
    + revert Hinv. apply thumbnailInvariant_ext;
        unfold clearThumbnailForVideo, setThumbnails; simpl; now rewrite Hm.
  - unfold uiStep. destruct (mounted s); [|exact Hinv].
    destruct (tuple6 _ _ _ _ _ _ _ _ _ _ _ _ (pageTurn_frame page s))
      as (_ & E1 & E2 & _).
    now apply (thumbnailInvariant_ext s).
Qed.

(** X23. One acquisition per asset. From the mount on, whatever the
    events: every thumbnail acquisition in flight is for an asset marked as
    loading, and no asset has two acquisitions in flight, also when its card
    is reported visible again, when it is deleted or regenerated meanwhile,
    or when [videos] changes. *)
Theorem X23_one_acquisition_per_asset (vs : list VideoAsset) (es : list UiEvent) :
  thumbnailInvariant (uiRun (mount vs) es).
Proof.
  assert (G : forall s, thumbnailInvariant s -> thumbnailInvariant (uiRun s es)).
  { induction es as [|e es IH]; intros s Hs; [exact Hs|].
    simpl. apply IH. now apply uiStep_thumbnails. }
  apply G. split.
  - intros req v. simpl. rewrite lookup_empty. discriminate.
  - intros req req' v v'. simpl. rewrite lookup_empty. discriminate.
Qed.

(** X24. Regenerating a thumbnail. The click removes the thumbnail, the
    entry of the cache and the request mark of the asset, and starts no
    acquisition itself: its [generateThumbnail] still sees the thumbnail of
    the render that showed the button. The acquisition starts when the card
    is next reported visible, and is then the only one of the asset. *)
Theorem X24_regenerate_thumbnail (video shown : VideoAsset) (s : State) :
  mounted s = true -> hasThumbnail (asset_id video) s = true ->
  let s1 := handleRegenerateThumbnail video s in
  thumbnails s1 = delete (asset_id video) (thumbnails s)
  /\ (asset_url video ∉ thumbnailCache s1)
  /\ (asset_id video ∉ requestedThumbnails s1)
  /\ thumbnailRequests s1 = thumbnailRequests s
  /\ loadingThumbnails s1 = loadingThumbnails s
  /\ (asset_id video ∈ videoCardRefs s ->
      findVideo (asset_id video) (paginatedVideos s) = Some shown ->
      asset_id video ∉ loadingThumbnails s ->
      thumbnailRequests (cardVisible (asset_id video) s1)
      = <[nextRequest s := shown]> (thumbnailRequests s)
      /\ asset_id shown ∈ loadingThumbnails (cardVisible (asset_id video) s1)).
Proof.
  intros Hm Hth s1.
  assert (F : thumbnails s1 = delete (asset_id video) (thumbnails s)
              /\ thumbnailCache s1 = thumbnailCache s ∖ {[asset_url video]}
              /\ requestedThumbnails s1
                 = requestedThumbnails s ∖ {[asset_id video]}
              /\ thumbnailRequests s1 = thumbnailRequests s
              /\ loadingThumbnails s1 = loadingThumbnails s
              /\ videoCardRefs s1 = videoCardRefs s
              /\ paginatedVideos s1 = paginatedVideos s
              /\ nextRequest s1 = nextRequest s /\ mounted s1 = true).
  { subst s1. unfold handleRegenerateThumbnail, generateThumbnailOf.
    cbn zeta. rewrite Hth. cbn [orb].
    unfold clearThumbnailForVideo, setThumbnails. simpl.
    rewrite Hm. simpl. unfold paginatedVideos. simpl. now repeat split. }
  clearbody s1.
  destruct F as (F1 & F2 & F3 & F4 & F5 & F6 & F7 & F8 & F9).
  split; [exact F1|]. split; [rewrite F2; apply not_elem_of_removed|].
  split; [rewrite F3; apply not_elem_of_removed|].
  split; [exact F4|]. split; [exact F5|].
  intros Hcard Hfind Hload. unfold cardVisible. rewrite F6, F7, Hfind.
  destruct (decide _); [|contradiction].
  assert (Hid : asset_id shown = asset_id video).
  { unfold findVideo in Hfind. apply find_some in Hfind as [_ H].
    now apply String.eqb_eq in H. }
  unfold generateThumbnail, hasThumbnail. rewrite Hid, F1, lookup_delete_eq.
  rewrite F5, F3.
  rewrite (bool_decide_eq_false_2 _ Hload).
  rewrite (bool_decide_eq_false_2 _ (not_elem_of_removed _ _)).
  simpl orb. cbv iota. unfold setLoadingThumbnails.
  change (mounted (set_requestedThumbnails _ s1)) with (mounted s1).
  rewrite F9. simpl. rewrite F4, F8. split; [reflexivity|].
  apply elem_of_union_r. now apply elem_of_singleton.
Qed.

Lemma X24_regenerate_thumbnail_witness :
  let s1 := handleRegenerateThumbnail assetA thumbnailShown in
  thumbnails s1 = delete "A"%string (thumbnails thumbnailShown)
  /\ thumbnailRequests s1 = thumbnailRequests thumbnailShown
  /\ thumbnailRequests (cardVisible "A" s1)
     = <[nextRequest thumbnailShown := assetA]> (thumbnailRequests thumbnailShown).
Proof.
  destruct (X24_regenerate_thumbnail assetA assetA thumbnailShown)
    as (H1 & _ & _ & H4 & _ & H6); [reflexivity|reflexivity|].
  split; [exact H1|]. split; [exact H4|].
  apply H6; [vm_compute; reflexivity|reflexivity|].
  vm_compute. intros H. discriminate H.
Defined.

Lemma generateThumbnail_twice (video : VideoAsset) (s : State) :
  generateThumbnail video (generateThumbnail video s) = generateThumbnail video s.
Proof.
  destruct (hasThumbnail (asset_id video) s
            || bool_decide (asset_id video ∈ loadingThumbnails s)
            || bool_decide (asset_id video ∈ requestedThumbnails s))%bool
    eqn:Hg.
  - assert (E : generateThumbnail video s = s).
    { unfold generateThumbnail. now rewrite Hg. }
    now rewrite !E.
  - assert (E : asset_id video ∈ requestedThumbnails (generateThumbnail video s)).
    { unfold generateThumbnail. rewrite Hg. unfold setLoadingThumbnails.
      change (mounted (set_requestedThumbnails _ s)) with (mounted s).
      destruct (mounted s); simpl;
        apply elem_of_union_r; now apply elem_of_singleton. }
    unfold generateThumbnail at 1.
    rewrite (bool_decide_eq_true_2 _ E). now rewrite orb_true_r.
Qed.

Lemma generateThumbnail_page (video : VideoAsset) (s : State) :
  videoCardRefs (generateThumbnail video s) = videoCardRefs s
  /\ paginatedVideos (generateThumbnail video s) = paginatedVideos s.
Proof.
  unfold generateThumbnail, setLoadingThumbnails, paginatedVideos.
  cases; simpl; now split.
Qed.

(** X25. A card reported visible twice starts one acquisition: the second
    report changes nothing, whether or not the first one started
    anything. *)
Theorem X25_visible_twice_acquires_once (id : string) (s : State) :
  cardVisible id (cardVisible id s) = cardVisible id s.
Proof.
  destruct (decide (id ∈ videoCardRefs s)) as [Hc|Hc].
  - destruct (findVideo id (paginatedVideos s)) as [video|] eqn:Hf.
    + assert (E : cardVisible id s = generateThumbnail video s).
      { unfold cardVisible. destruct (decide _); [|contradiction].
        now rewrite Hf. }
      rewrite E. destruct (generateThumbnail_page video s) as [F1 F2].
      unfold cardVisible. rewrite F1, F2, Hf.
      destruct (decide _); [|contradiction].
      apply generateThumbnail_twice.
    + assert (E : cardVisible id s = s).
      { unfold cardVisible. destruct (decide _); [|reflexivity].
        now rewrite Hf. }
      now rewrite !E.
  - assert (E : cardVisible id s = s).
    { unfold cardVisible. now destruct (decide _). }
    now rewrite !E.
Qed.

End ThumbnailInvariantFacts.

(** ** The registry and the unmount *)

Section RegistryFacts.

Import JS JSString VideoLibrary LibraryMore.
Local Open Scope Z_scope.



(** *** Pending polls after each write *)





(** *** The functions of the poller *)










(** *** Every event of a live session keeps the invariant *)






End RegistryFacts.

(** ** The environment file of the build *)

Section EnvFileProperties.

Import JSString StringsMore DigitStrings ViteConfig.
Local Open Scope string_scope.

Lemma split_nonempty (c : ascii) (s : string) : split c s <> [].
Proof.
  induction s as [|a r IH]; [discriminate|]. simpl.
  destruct (Ascii.eqb a c); [discriminate|].
  now destruct (split c r).
Qed.

Lemma join_cons (c : ascii) (p : string) (rest : list string) :
  rest <> [] -> join c (p :: rest) = p ++ String c (join c rest).
Proof. now destruct rest. Qed.

(** [parts.join(c)] undoes [s.split(c)]. *)
Lemma join_split (c : ascii) (s : string) : join c (split c s) = s.
Proof.
  induction s as [|a r IH]; [reflexivity|]. simpl.
  destruct (Ascii.eqb_spec a c) as [->|Hne].
  - rewrite join_cons by apply split_nonempty. now rewrite IH.
  - pose proof (split_nonempty c r) as Hs.
    destruct (split c r) as [|hd tl]; [contradiction|].
    destruct tl as [|t tl].
    + simpl in *. now rewrite IH.
    + rewrite join_cons by discriminate.
      rewrite join_cons in IH by discriminate.
      change (String a (hd ++ String c (join c (t :: tl))) = String a r).
      now rewrite IH.
Qed.

Lemma split_snoc (c : ascii) (s t : string) :
  lacks c t = true -> split c (s ++ String c t) = (split c s ++ [t])%list.
Proof.
  intros Ht. induction s as [|a r IH].
  - change (split c (String c t) = [""; t]). simpl.
    now rewrite Ascii.eqb_refl, (split_lacks c t Ht).
  - change (split c (String a (r ++ String c t))
            = (split c (String a r) ++ [t])%list).
    simpl. rewrite IH. destruct (Ascii.eqb a c); [reflexivity|].
    pose proof (split_nonempty c r) as Hs.
    now destruct (split c r).
Qed.

Lemma prefix_cons (a b : ascii) (s1 s2 : string) :
  String.prefix (String a s1) (String b s2)
  = if ascii_dec a b then String.prefix s1 s2 else false.
Proof. reflexivity. Qed.

Lemma prefix_nil (s : string) : String.prefix "" s = true.
Proof. now destruct s. Qed.

Lemma prefix_hash (key rest : string) :
  key <> "" -> String.prefix "#" (key ++ rest) = String.prefix "#" key.
Proof.
  destruct key as [|a r]; [contradiction|]. intros _.
  change (String.prefix "#" (String a (r ++ rest)) = String.prefix "#" (String a r)).
  now rewrite !prefix_cons, !prefix_nil.
Qed.

Lemma parseLine_assignment (key value : string) :
  key <> "" -> lacks "=" key = true -> String.prefix "#" key = false ->
  trim (key ++ "=" ++ value) = key ++ "=" ++ value ->
  parseLine (key ++ "=" ++ value) = Some (key, trim value).
Proof.
  intros Hkey Hlacks Hhash Htrim. unfold parseLine. rewrite Htrim.
  assert (E1 : String.eqb (key ++ "=" ++ value) "" = false).
  { destruct key; [contradiction|reflexivity]. }
  rewrite E1, (prefix_hash key _ Hkey), Hhash. cbn [negb andb].
  change (key ++ "=" ++ value) with (key ++ String "=" value).
  rewrite (split_at "=" key value Hlacks).
  assert (E2 : String.eqb key "" = false) by (now apply String.eqb_neq).
  rewrite E2. cbn [negb andb].
  pose proof (split_nonempty "=" value) as Hs.
  destruct (split "=" value) as [|hd tl] eqn:Es; [contradiction|].
  cbn [length Nat.ltb Nat.leb]. now rewrite <- Es, join_split.
Qed.

(** X27. An assignment of the environment file. A line [KEY=VALUE] without
    white space around it, whose key is not empty, holds no [=] and does not
    begin with [#], assigns to [KEY] the whole of [VALUE] with the white
    space around it removed, also when [VALUE] itself holds [=] signs; a
    line that is blank, begins with [#] or holds no [=] assigns nothing. *)
Theorem X27_env_line_assignment (key value : string) :
  key <> "" -> lacks "=" key = true -> String.prefix "#" key = false ->
  trim (key ++ "=" ++ value) = key ++ "=" ++ value ->
  parseLine (key ++ "=" ++ value) = Some (key, trim value)
  /\ forall line,
       trim line = "" \/ String.prefix "#" (trim line) = true
       \/ lacks "=" (trim line) = true ->
       parseLine line = None.
Proof.
  intros Hkey Hlacks Hhash Htrim. split.
  - now apply parseLine_assignment.
  - intros line H. unfold parseLine.
    destruct (String.eqb_spec (trim line) "") as [E|E]; [reflexivity|].
    destruct H as [H|[H|H]]; [contradiction|now rewrite H|].
    destruct (String.prefix "#" (trim line)); [reflexivity|]. cbn [negb andb].
    rewrite (split_lacks "=" _ H). cbn [length Nat.ltb Nat.leb].
    now rewrite andb_false_r.
Qed.

Lemma X27_env_line_assignment_witness :
  parseLine "VITE_API_BASE_URL=https://api.example/v1?a=b"
  = Some ("VITE_API_BASE_URL", "https://api.example/v1?a=b")
  /\ parseLine "  # VITE_API_BASE_URL=x" = None.
Proof.
  destruct (X27_env_line_assignment "VITE_API_BASE_URL"
              "https://api.example/v1?a=b") as [H1 H2];
    [discriminate|reflexivity|reflexivity|reflexivity|].
  split; [exact H1|]. apply H2. right. left. reflexivity.
Defined.

Lemma parseEnv_last_line (content line : string) :
  lacks "010" line = true ->
  parseEnv (content ++ String "010" line) = assign (parseEnv content) line.
Proof.
  intros Hl. unfold parseEnv. rewrite (split_snoc _ _ _ Hl).
  now rewrite fold_left_app.
Qed.

Lemma assign_proto (m : gmap string string) (line : string) :
  m !! "__proto__" = None -> assign m line !! "__proto__" = None.
Proof.
  intros H. unfold assign. destruct (parseLine line) as [[k v]|]; [|exact H].
  destruct (String.eqb k "__proto__") eqn:E; [exact H|].
  apply String.eqb_neq in E. rewrite lookup_insert_ne by exact E. exact H.
Qed.

Lemma fold_assign_proto (lines : list string) (m : gmap string string) :
  m !! "__proto__" = None -> fold_left assign lines m !! "__proto__" = None.
Proof.
  revert m. induction lines as [|l lines IH]; intros m H; [exact H|].
  cbn [fold_left]. apply IH, assign_proto, H.
Qed.

(** X28. The last assignment wins, and the API base URL falls back. A
    well-formed assignment on the last line of the environment file, to a
    key other than [__proto__], gives its key the value it carries, whatever
    the lines before held; no file gives [customEnv] a property
    [__proto__]; and the API base URL is the value of [VITE_API_BASE_URL]
    in the file when that is not empty, the default
    [http://localhost:8000/api] when the file sets it to the empty string
    (whatever Vite's own environment holds), and otherwise Vite's value
    when not empty, else the default. *)
Theorem X28_env_last_assignment_wins (content key value : string) :
  key <> "" -> key <> "__proto__" ->
  lacks "=" key = true -> String.prefix "#" key = false ->
  trim (key ++ "=" ++ value) = key ++ "=" ++ value ->
  lacks "010" (key ++ "=" ++ value) = true ->
  parseEnv (content ++ String "010" (key ++ "=" ++ value)) !! key
  = Some (trim value)
  /\ (forall envContent : string, parseEnv envContent !! "__proto__" = None)
  /\ forall viteEnv customEnv : gmap string string,
       (forall a r, customEnv !! "VITE_API_BASE_URL" = Some (String a r) ->
                    apiBaseUrl viteEnv customEnv = String a r)
       /\ (customEnv !! "VITE_API_BASE_URL" = Some "" ->
           apiBaseUrl viteEnv customEnv = "http://localhost:8000/api")
       /\ (customEnv !! "VITE_API_BASE_URL" = None ->
           apiBaseUrl viteEnv customEnv = apiBaseUrl viteEnv ∅).
Proof.
  intros Hkey Hproto Hlacks Hhash Htrim Hnl. split; [|split].
  - rewrite (parseEnv_last_line _ _ Hnl). unfold assign.
    rewrite (parseLine_assignment key value Hkey Hlacks Hhash Htrim).
    apply String.eqb_neq in Hproto. rewrite Hproto.
    apply lookup_insert_eq.
  - intros envContent. apply fold_assign_proto, lookup_empty.
  - intros viteEnv customEnv. unfold apiBaseUrl. split; [|split].
    + intros a r H. now rewrite (lookup_union_Some_l _ _ _ _ H).
    + intros H. now rewrite (lookup_union_Some_l _ _ _ _ H).
    + intros H. rewrite lookup_union_r by exact H.
      now rewrite lookup_union_r by apply lookup_empty.
Qed.

Lemma X28_env_last_assignment_wins_witness :
  parseEnv ("A=1" ++ String "010" ("A" ++ "=" ++ "x=y")) !! "A" = Some "x=y"
  /\ parseEnv ("__proto__=1" ++ String "010" "B=2") !! "__proto__" = None.
Proof.
  destruct (X28_env_last_assignment_wins "A=1" "A" "x=y") as (H & Hp & _);
    [discriminate|discriminate|reflexivity|reflexivity|reflexivity|reflexivity|].
  split; [exact H|apply Hp].
Defined.

End EnvFileProperties.
